(** * Machnet (NSaaS) shared-memory channels

    A shallow embedding of [src/ext/machnet_private.h] (size calculation,
    initialisation and creation of a channel region) and of
    [src/include/channel.h] ([ShmChannel] and [ChannelManager]), together
    with the properties the channel specification states about them.

    Machine integers are [Z] with the wrap-around of their C type written
    out.  Code that lives in headers which are not part of the sources at
    hand ([nsaas_common.h], [jring.h], [channel_msgbuf.h]) is either a field
    of [Platform] (constants and [sizeof]s), a section variable (shared
    memory helpers whose result depends on concurrent peers), or a
    definition marked [Modelled from the spec]. *)

From Stdlib Require Import ZArith Lia.
From stdpp Require Import base gmap strings functions list.

Local Open Scope Z_scope.

(** ** Machine arithmetic *)

Definition SIZE_MAX : Z := 2 ^ 64 - 1.          (* (size_t)-1 *)
Definition wrap64 (x : Z) : Z := x mod 2 ^ 64.  (* size_t, uint64_t *)
Definition wrap32 (x : Z) : Z := x mod 2 ^ 32.  (* uint32_t *)

(** [#define IS_POW2(x) (((x) & ((x)-1)) == 0)] on a [size_t]. *)
Definition IS_POW2 (x : Z) : bool := Z.land x (wrap64 (x - 1)) =? 0.

(** [__builtin_clzll]; the C result is undefined at 0, where 64 is taken. *)
Definition clzll (y : Z) : Z := if y =? 0 then 64 else 63 - Z.log2 y.

(** [#define ROUNDUP_U64_POW2(x) (1ULL << (64 - __builtin_clzll(((uint64_t)x) - 1)))] *)
Definition ROUNDUP_U64_POW2 (x : Z) : Z :=
  wrap64 (Z.shiftl 1 (64 - clzll (wrap64 (x - 1)))).

(** Modelled from the spec: the macro [ALIGN_TO_PAGE_SIZE] of
    [nsaas_common.h] is missing; [align_page] of the spec's size formula
    rounds a [size_t] up to the next multiple of the page size. *)
Definition ALIGN_TO_PAGE_SIZE (x pagesz : Z) : Z :=
  wrap64 (x + (pagesz - 1)) / pagesz * pagesz.

(** Modelled from the spec: [HUGE_PAGE_2M_SIZE] of [nsaas_common.h] is
    missing; the huge pages that back a channel are 2 MiB pages. *)
Definition HUGE_PAGE_2M_SIZE : Z := 2 * 1024 * 1024.

(** Modelled from the spec: [NSaaSRingSlot_t] of [nsaas_common.h] is
    missing; a slot is a 32-bit unsigned index. *)
Definition sizeof_NSaaSRingSlot_t : Z := 4.

Definition NSAAS_CHANNEL_CTRL_SQ_SLOT_NR : Z := 2.
Definition NSAAS_CHANNEL_CTRL_CQ_SLOT_NR : Z := NSAAS_CHANNEL_CTRL_SQ_SLOT_NR.

(** A power of two in the mathematical sense (zero is not one). *)
Definition power_of_two (n : Z) : Prop := exists k, 0 <= k /\ n = 2 ^ k.

(** ** Constants of the missing headers *)

(** What [nsaas_common.h], [jring.h] and [channel_msgbuf.h] fix at compile
    time, and the page size the kernel reports. *)
Record Platform := {
  getpagesize : Z;
  sizeof_NSaaSChannelCtx_t : Z;
  sizeof_NSaaSChannelStats_t : Z;
  sizeof_NSaaSCtrlQueueEntry_t : Z;
  sizeof_jring : Z;
  NSAAS_MSGBUF_SPACE_RESERVED : Z;
  NSAAS_MSGBUF_HEADROOM_MAX : Z;
  NSAAS_MSGBUF_MAGIC : Z;
  NSAAS_CHANNEL_CTX_MAGIC : Z;
  NSAAS_CHANNEL_VERSION : Z;
  kMaxBurst : nat
}.

(** The assumptions on those constants which the proofs use. *)
Record PlatformOk (P : Platform) : Prop := {
  pagesize_pow2 : exists k, 1 <= k <= 30 /\ getpagesize P = 2 ^ k;
  sizeof_ctx_range : 0 <= sizeof_NSaaSChannelCtx_t P < 2 ^ 32;
  sizeof_stats_range : 0 <= sizeof_NSaaSChannelStats_t P < 2 ^ 32;
  sizeof_ctrl_entry_pos : 0 < sizeof_NSaaSCtrlQueueEntry_t P < 2 ^ 32;
  sizeof_jring_range : 0 <= sizeof_jring P < 2 ^ 32;
  reserved_range : 0 <= NSAAS_MSGBUF_SPACE_RESERVED P < 2 ^ 16;
  headroom_range : 0 <= NSAAS_MSGBUF_HEADROOM_MAX P < 2 ^ 16;
  msgbuf_magic_range : 0 <= NSAAS_MSGBUF_MAGIC P < 2 ^ 32;
  ctx_magic_nonzero : NSAAS_CHANNEL_CTX_MAGIC P <> 0
}.

Section Sizes.
Variable P : Platform.

(** Modelled from the spec: [jring_get_buf_ring_size] of [jring.h] is
    missing.  The spec's ring is a header followed by an inline array of
    [count] records; it rejects a slot count that is not a power of two, a
    zero capacity and a zero record size.  The source shows the failure
    value, [(size_t)-1]. *)
Definition jring_get_buf_ring_size (esize count : Z) : Z :=
  if (esize =? 0) || (count =? 0) || negb (IS_POW2 count) then SIZE_MAX
  else wrap64 (sizeof_jring P + wrap64 (count * esize)).

(** The loop over [ring_sizes] of the size calculation: [None] is its
    [return -1]. *)
Fixpoint add_ring_sizes (ring_sizes : list Z) (total_size : Z) : option Z :=
  match ring_sizes with
  | [] => Some total_size
  | n :: rest =>
      let acc := jring_get_buf_ring_size sizeof_NSaaSRingSlot_t n in
      if acc =? SIZE_MAX then None
      else add_ring_sizes rest (wrap64 (total_size + acc))
  end.

Definition kPageSize_of (is_posix_shm : bool) : Z :=
  if is_posix_shm then getpagesize P else HUGE_PAGE_2M_SIZE.

Definition total_buffer_size_of (buffer_size : Z) : Z :=
  ROUNDUP_U64_POW2
    (wrap64 (buffer_size + NSAAS_MSGBUF_SPACE_RESERVED P
             + NSAAS_MSGBUF_HEADROOM_MAX P)).

Definition __nsaas_channel_dataplane_calculate_size
    (nsaas_ring_slot_nr app_ring_slot_nr buf_ring_slot_nr buffer_size : Z)
    (is_posix_shm : bool) : Z :=
  if negb (IS_POW2 nsaas_ring_slot_nr) || negb (IS_POW2 app_ring_slot_nr)
     || negb (IS_POW2 buf_ring_slot_nr)
  then SIZE_MAX
  else
    let total_buffer_size := total_buffer_size_of buffer_size in
    let kPageSize := kPageSize_of is_posix_shm in
    if buffer_size >? kPageSize then SIZE_MAX
    else
      let total_size := sizeof_NSaaSChannelCtx_t P in
      let total_size := wrap64 (total_size + sizeof_NSaaSChannelStats_t P) in
      match add_ring_sizes
              [nsaas_ring_slot_nr; app_ring_slot_nr; buf_ring_slot_nr]
              total_size with
      | None => SIZE_MAX
      | Some total_size =>
          let total_size := ALIGN_TO_PAGE_SIZE total_size kPageSize in
          let total_size :=
            wrap64 (total_size + wrap64 (buf_ring_slot_nr * total_buffer_size)) in
          ALIGN_TO_PAGE_SIZE total_size kPageSize
      end.
End Sizes.


(** ** The ring of [jring.h] *)

(** Modelled from the spec: [jring.h] is missing.  The spec's ring has a
    power-of-two number of slots ([jr_size], with [jr_mask = jr_size - 1]),
    a producer and a consumer flag and an inline array of records, kept
    here as the FIFO of the entries in it.  [capacity] is the field the
    sources read: the number of entries the ring can hold, one less than the
    number of slots (the ring sentinel of the spec; the sources document the
    slot count of the free ring as "the number of buffers + 1" and store
    [capacity] as the pool mask). *)
Record jring := {
  jr_size : Z;
  jr_mask : Z;
  capacity : Z;
  jr_esize : Z;
  jr_prod_flag : bool;
  jr_cons_flag : bool;
  jr_entries : list Z
}.

Definition jring_zero : jring :=
  {| jr_size := 0; jr_mask := 0; capacity := 0; jr_esize := 0;
     jr_prod_flag := false; jr_cons_flag := false; jr_entries := [] |}.

(** Modelled from the spec: [jring_init] fails unless the slot count is a
    power of two, not zero, and the record size is not zero; on success the
    ring is empty. *)
Definition jring_init (r : jring) (count esize : Z) (prod cons : bool)
    : Z * jring :=
  if (esize =? 0) || (count =? 0) || negb (IS_POW2 count) then (-1, r)
  else (0, {| jr_size := count; jr_mask := count - 1; capacity := count - 1;
              jr_esize := esize; jr_prod_flag := prod; jr_cons_flag := cons;
              jr_entries := [] |}).

(** Modelled from the spec: [count() -> used] and
    [free_count() -> capacity - used]. *)
Definition jring_count (r : jring) : Z := Z.of_nat (length (jr_entries r)).
Definition jring_free_count (r : jring) : Z := capacity r - jring_count r.

Definition jring_with_entries (r : jring) (l : list Z) : jring :=
  {| jr_size := jr_size r; jr_mask := jr_mask r; capacity := capacity r;
     jr_esize := jr_esize r; jr_prod_flag := jr_prod_flag r;
     jr_cons_flag := jr_cons_flag r; jr_entries := l |}.

(** Modelled from the spec: [enqueue_bulk(items, n)] enqueues all [n] items
    or none; the second component is the free space left after the call
    (the out parameter [free_space]). *)
Definition jring_enqueue_bulk (r : jring) (items : list Z) (n : Z)
    : Z * Z * jring :=
  let free := jring_free_count r in
  if n <=? free
  then (n, free - n,
        jring_with_entries r (jr_entries r ++ take (Z.to_nat n) items))
  else (0, free, r).

(** Modelled from the spec: the burst variant of dequeue hands out up to
    [n] of the oldest entries. *)
Definition jring_dequeue_burst (r : jring) (n : nat) : list Z * jring :=
  (take n (jr_entries r), jring_with_entries r (drop n (jr_entries r))).

(** ** The channel region *)

(** The integer fields of [NSaaSChannelCtx_t], [ctx->f], [ctx->ctrl_ctx.f]
    and [ctx->data_ctx.f]. *)
Inductive ctx_field :=
  | ctx_magic | ctx_version | ctx_size | ctrl_ctx_req_id
  | stats_ofs | ctrl_sq_ring_ofs | ctrl_cq_ring_ofs | nsaas_ring_ofs
  | app_ring_ofs | buf_ring_ofs | buf_pool_ofs | buf_pool_mask
  | buf_size | buf_mss.

#[global] Instance ctx_field_eq_dec : EqDecision ctx_field.
Proof. solve_decision. Defined.

(** The five rings of a region, at the offsets the context records. *)
Inductive ring_id :=
  | ctrl_sq_ring | ctrl_cq_ring | nsaas_ring | app_ring | buf_ring.

#[global] Instance ring_id_eq_dec : EqDecision ring_id.
Proof. solve_decision. Defined.

(** Modelled from the spec: [NSaaSMsgBuf_t] and [__nsaas_channel_buf_init]
    of [nsaas_common.h] are missing.  Of the header of a buffer the three
    fields that are constant after the initialisation are kept, and whether
    [__nsaas_channel_buf_init], which prepares the mutable ones, has run on
    it. *)
Record MsgBufHdr := {
  mb_magic : Z;
  mb_index : Z;
  mb_size : Z;
  mb_reset : bool
}.

Definition MsgBufHdr_zero : MsgBufHdr :=
  {| mb_magic := 0; mb_index := 0; mb_size := 0; mb_reset := false |}.

(** The shared memory of a channel, by what lives in it and not by bytes. *)
Record Region := {
  hdr : ctx_field -> Z;
  ctx_name : string;
  stats_zeroed : bool;
  rings : ring_id -> jring;
  bufs : Z -> MsgBufHdr
}.

(** A mapping fresh from the kernel is zero-filled. *)
Definition Region_zero : Region :=
  {| hdr := fun _ => 0; ctx_name := ""; stats_zeroed := true;
     rings := fun _ => jring_zero; bufs := fun _ => MsgBufHdr_zero |}.

(** The writes of the initialisation to the region, in program order. *)
Inductive store :=
  | StCtx (f : ctx_field) (v : Z)
  | StName (s : string)
  | StStats
  | StRing (id : ring_id) (r : jring)
  | StBufInit (i : Z)
  | StBufMagic (i v : Z)
  | StBufIndex (i v : Z)
  | StBufSize (i v : Z)
  | Sync.                                   (* __sync_synchronize() *)

Definition set_buf (r : Region) (i : Z) (h : MsgBufHdr) : Region :=
  {| hdr := hdr r; ctx_name := ctx_name r; stats_zeroed := stats_zeroed r;
     rings := rings r; bufs := <[i := h]> (bufs r) |}.

Definition apply_store (r : Region) (e : store) : Region :=
  match e with
  | StCtx f v =>
      {| hdr := <[f := v]> (hdr r); ctx_name := ctx_name r;
         stats_zeroed := stats_zeroed r; rings := rings r; bufs := bufs r |}
  | StName s =>
      {| hdr := hdr r; ctx_name := s; stats_zeroed := stats_zeroed r;
         rings := rings r; bufs := bufs r |}
  | StStats =>
      {| hdr := hdr r; ctx_name := ctx_name r; stats_zeroed := true;
         rings := rings r; bufs := bufs r |}
  | StRing id q =>
      {| hdr := hdr r; ctx_name := ctx_name r; stats_zeroed := stats_zeroed r;
         rings := <[id := q]> (rings r); bufs := bufs r |}
  | StBufInit i =>
      let h := bufs r i in
      set_buf r i {| mb_magic := mb_magic h; mb_index := mb_index h;
                     mb_size := mb_size h; mb_reset := true |}
  | StBufMagic i v =>
      let h := bufs r i in
      set_buf r i {| mb_magic := v; mb_index := mb_index h;
                     mb_size := mb_size h; mb_reset := mb_reset h |}
  | StBufIndex i v =>
      let h := bufs r i in
      set_buf r i {| mb_magic := mb_magic h; mb_index := v;
                     mb_size := mb_size h; mb_reset := mb_reset h |}
  | StBufSize i v =>
      let h := bufs r i in
      set_buf r i {| mb_magic := mb_magic h; mb_index := mb_index h;
                     mb_size := v; mb_reset := mb_reset h |}
  | Sync => r
  end.

(** What a peer that maps the region sees after a prefix of the writes. *)
Definition replay (r : Region) (l : list store) : Region :=
  fold_left apply_store l r.

Definition is_magic_store (e : store) : bool :=
  match e with StCtx ctx_magic _ => true | _ => false end.

(** ** A monad for the initialisation

    The state is the region and the writes made so far; a computation either
    goes on with a value or leaves the C function with a return code. *)

Inductive outcome (A : Type) :=
  | Next (a : A)
  | Return (code : Z).
Arguments Next {A} a.
Arguments Return {A} code.

Definition IState : Type := Region * list store.

Definition M (A : Type) : Type := IState -> outcome A * IState.

#[global] Instance M_ret : MRet M := fun A a s => (Next a, s).

#[global] Instance M_bind : MBind M := fun A B k m s =>
  match m s with
  | (Next a, s') => k a s'
  | (Return c, s') => (Return c, s')
  end.

Definition exit {A} (code : Z) : M A := fun s => (Return code, s).

(** [if (c) return code;] *)
Definition return_if (c : bool) (code : Z) : M unit :=
  if c then exit code else mret tt.

Definition do_store (e : store) : M unit :=
  fun s => (Next tt, (apply_store (fst s) e, snd s ++ [e])).

Definition load (f : ctx_field) : M Z :=
  fun s => (Next (hdr (fst s) f), s).

Definition get_ring (id : ring_id) : M jring :=
  fun s => (Next (rings (fst s) id), s).

Fixpoint for_each {A} (l : list A) (body : A -> M unit) : M unit :=
  match l with
  | [] => mret tt
  | x :: l' => body x ;; for_each l' body
  end.

(** The value of the function: the code it returns and the final state. *)
Definition run (m : M Z) (s : IState) : Z * IState :=
  match m s with
  | (Next v, s') => (v, s')
  | (Return c, s') => (c, s')
  end.

(** The weakest precondition of a computation: [Q] holds of what the
    computation gives from the state [s]. *)
Definition wp {A} (m : M A) (s : IState) (Q : outcome A -> IState -> Prop)
    : Prop :=
  Q (m s).1 (m s).2.

(** No write of [l] is to the magic of the context. *)
Definition no_magic (l : list store) : bool :=
  forallb (fun e => negb (is_magic_store e)) l.

(** A computation only adds writes to the trace, none of them to the magic,
    and the region is the one it started from with these writes applied. *)
Definition writes_no_magic {A} (m : M A) : Prop :=
  forall s, exists new,
    (m s).2 = (replay s.1 new, s.2 ++ new) /\ no_magic new = true.

(** The same for a whole function, which may in the end publish the magic
    [v]: it does so exactly when it goes on to its last statement, and then
    by its last write, between two barriers. *)
Definition publishes_last (v : Z) (m : M Z) : Prop :=
  forall s, exists new,
    (m s).2 = (replay s.1 new, s.2 ++ new)
    /\ match (m s).1 with
       | Return _ => no_magic new = true
       | Next _ =>
           exists pre, new = pre ++ [Sync; StCtx ctx_magic v; Sync]
                       /\ no_magic pre = true
       end.

(** [int x = u;] for an unsigned 32-bit [u]. *)
Definition to_int (u : Z) : Z :=
  let w := wrap32 u in if w <? 2 ^ 31 then w else w - 2 ^ 32.

(** ** Initialisation of a region: [__nsaas_channel_dataplane_init] *)

Section Init.
Variable P : Platform.

(** [ret = jring_init(ring, count, esize, ...)] on the ring [id] of the
    region. *)
Definition do_jring_init (id : ring_id) (count esize : Z)
    (prod cons : bool) : M Z :=
  r ← get_ring id;
  let res := jring_init r count esize prod cons in
  (if res.1 =? 0 then do_store (StRing id res.2) else mret tt);;
  mret res.1.

(** The body of the loop over the buffers; the counter is a [uint32_t],
    and so are the three fields. *)
Definition init_buf (buffer_size : Z) (i : Z) : M unit :=
  do_store (StBufInit i);;
  do_store (StBufMagic i (NSAAS_MSGBUF_MAGIC P));;
  do_store (StBufIndex i (wrap32 i));;
  do_store (StBufSize i
              (wrap32 (wrap64 (buffer_size + NSAAS_MSGBUF_HEADROOM_MAX P)))).

(** The writes of one round of the loop, and the header they leave. *)
Definition buf_stores (buffer_size i : Z) : list store :=
  [StBufInit i; StBufMagic i (NSAAS_MSGBUF_MAGIC P); StBufIndex i (wrap32 i);
   StBufSize i (wrap32 (wrap64 (buffer_size + NSAAS_MSGBUF_HEADROOM_MAX P)))].

Definition initialised_hdr (buffer_size i : Z) : MsgBufHdr :=
  {| mb_magic := NSAAS_MSGBUF_MAGIC P; mb_index := wrap32 i;
     mb_size := wrap32 (wrap64 (buffer_size + NSAAS_MSGBUF_HEADROOM_MAX P));
     mb_reset := true |}.

(** From the check of the enqueue to the end: [enqueued] is the [int] of
    the source, [free_space] its [unsigned int]. *)
Definition init_publish (enqueued free_space cap : Z) : M Z :=
  return_if (negb (wrap64 enqueued =? cap) || negb (free_space =? 0)) (-1);;
  do_store Sync;;
  do_store (StCtx ctx_magic (NSAAS_CHANNEL_CTX_MAGIC P));;
  do_store Sync;;
  mret 0.

(** [malloc_ok] tells whether the [malloc] of the index table succeeds. *)
Definition __nsaas_channel_dataplane_init
    (shm_size : Z) (is_posix_shm : bool) (name : string)
    (nsaas_ring_slot_nr app_ring_slot_nr buf_ring_slot_nr buffer_size : Z)
    (is_multithread : bool) (malloc_ok : bool) : M Z :=
  let total_size :=
    __nsaas_channel_dataplane_calculate_size P nsaas_ring_slot_nr
      app_ring_slot_nr buf_ring_slot_nr buffer_size is_posix_shm in
  return_if ((total_size >? shm_size) || (total_size =? SIZE_MAX)) (-1);;
  do_store (StCtx ctx_version (NSAAS_CHANNEL_VERSION P));;
  do_store (StCtx ctx_size total_size);;
  do_store (StName (String.substring 0 63 name));;
  do_store (StCtx ctrl_ctx_req_id 0);;
  do_store (StCtx stats_ofs (sizeof_NSaaSChannelCtx_t P));;
  do_store StStats;;
  let kMultiThread := true in
  ofs ← load stats_ofs;
  do_store (StCtx ctrl_sq_ring_ofs
              (wrap64 (ofs + sizeof_NSaaSChannelStats_t P)));;
  ret ← do_jring_init ctrl_sq_ring NSAAS_CHANNEL_CTRL_SQ_SLOT_NR
          (sizeof_NSaaSCtrlQueueEntry_t P) is_multithread false;
  return_if (negb (ret =? 0)) ret;;
  ofs ← load ctrl_sq_ring_ofs;
  do_store (StCtx ctrl_cq_ring_ofs
              (wrap64 (ofs + jring_get_buf_ring_size P sizeof_NSaaSRingSlot_t
                               NSAAS_CHANNEL_CTRL_SQ_SLOT_NR)));;
  ret ← do_jring_init ctrl_cq_ring NSAAS_CHANNEL_CTRL_CQ_SLOT_NR
          (sizeof_NSaaSCtrlQueueEntry_t P) false is_multithread;
  return_if (negb (ret =? 0)) ret;;
  ofs ← load ctrl_cq_ring_ofs;
  do_store (StCtx nsaas_ring_ofs
              (wrap64 (ofs + jring_get_buf_ring_size P sizeof_NSaaSRingSlot_t
                               NSAAS_CHANNEL_CTRL_CQ_SLOT_NR)));;
  ret ← do_jring_init nsaas_ring nsaas_ring_slot_nr sizeof_NSaaSRingSlot_t
          is_multithread kMultiThread;
  return_if (negb (ret =? 0)) ret;;
  ofs ← load nsaas_ring_ofs;
  do_store (StCtx app_ring_ofs
              (wrap64 (ofs + jring_get_buf_ring_size P sizeof_NSaaSRingSlot_t
                               nsaas_ring_slot_nr)));;
  ret ← do_jring_init app_ring app_ring_slot_nr sizeof_NSaaSRingSlot_t
          kMultiThread is_multithread;
  return_if (negb (ret =? 0)) ret;;
  ofs ← load app_ring_ofs;
  do_store (StCtx buf_ring_ofs
              (wrap64 (ofs + jring_get_buf_ring_size P sizeof_NSaaSRingSlot_t
                               app_ring_slot_nr)));;
  ret ← do_jring_init buf_ring buf_ring_slot_nr sizeof_NSaaSRingSlot_t
          kMultiThread kMultiThread;
  return_if (negb (ret =? 0)) ret;;
  ofs ← load buf_ring_ofs;
  let buf_ring_end_ofs :=
    wrap64 (ofs + jring_get_buf_ring_size P sizeof_NSaaSRingSlot_t
                    buf_ring_slot_nr) in
  let kTotalBufSize := total_buffer_size_of P buffer_size in
  let kPageSize := kPageSize_of P is_posix_shm in
  do_store (StCtx buf_pool_ofs
              (ALIGN_TO_PAGE_SIZE buf_ring_end_ofs kPageSize));;
  q ← get_ring buf_ring;
  do_store (StCtx buf_pool_mask (capacity q));;
  do_store (StCtx buf_size (wrap32 kTotalBufSize));;
  do_store (StCtx buf_mss (wrap32 buffer_size));;
  for_each (seqZ 0 (capacity q)) (init_buf buffer_size);;
  return_if (negb malloc_ok) (-1);;
  let buf_index_table := wrap32 <$> seqZ 0 (capacity q) in
  let res := jring_enqueue_bulk q buf_index_table (capacity q) in
  do_store (StRing buf_ring res.2);;
  init_publish (to_int res.1.1) (wrap32 res.1.2) (capacity q).

(** The sub-steps of the initialisation in the spec's words: the size fits
    the mapping, the five rings initialise, the index table is allocated
    and the free ring takes every index and is full. *)
Definition init_substeps_ok
    (shm_size : Z) (is_posix_shm : bool)
    (nsaas_ring_slot_nr app_ring_slot_nr buf_ring_slot_nr buffer_size : Z)
    (malloc_ok : bool) : bool :=
  let total_size :=
    __nsaas_channel_dataplane_calculate_size P nsaas_ring_slot_nr
      app_ring_slot_nr buf_ring_slot_nr buffer_size is_posix_shm in
  let ring_ok count esize :=
    (jring_init jring_zero count esize false false).1 =? 0 in
  let free_ring :=
    (jring_init jring_zero buf_ring_slot_nr sizeof_NSaaSRingSlot_t
       true true).2 in
  let res :=
    jring_enqueue_bulk free_ring (wrap32 <$> seqZ 0 (capacity free_ring))
      (capacity free_ring) in
  (total_size <=? shm_size) && negb (total_size =? SIZE_MAX)
  && ring_ok NSAAS_CHANNEL_CTRL_SQ_SLOT_NR (sizeof_NSaaSCtrlQueueEntry_t P)
  && ring_ok NSAAS_CHANNEL_CTRL_CQ_SLOT_NR (sizeof_NSaaSCtrlQueueEntry_t P)
  && ring_ok nsaas_ring_slot_nr sizeof_NSaaSRingSlot_t
  && ring_ok app_ring_slot_nr sizeof_NSaaSRingSlot_t
  && ring_ok buf_ring_slot_nr sizeof_NSaaSRingSlot_t
  && malloc_ok
  && (wrap64 (to_int res.1.1) =? capacity free_ring)
  && (wrap32 res.1.2 =? 0).

(** The free ring as [jring_init] leaves it. *)
Definition free_ring_of (buf_ring_slot_nr : Z) : jring :=
  (jring_init jring_zero buf_ring_slot_nr sizeof_NSaaSRingSlot_t
     true true).2.

(** What a successful initialisation leaves in the region: the free ring
    after the enqueue of the index table, the pool fields of the context,
    the magic, and the header of every buffer below the capacity. *)
Definition initialised (buf_ring_slot_nr buffer_size : Z) (r : Region)
    : Prop :=
  let fr := free_ring_of buf_ring_slot_nr in
  rings r buf_ring
  = (jring_enqueue_bulk fr (wrap32 <$> seqZ 0 (capacity fr)) (capacity fr)).2
  /\ hdr r buf_pool_mask = capacity fr
  /\ hdr r buf_size = wrap32 (total_buffer_size_of P buffer_size)
  /\ hdr r buf_mss = wrap32 buffer_size
  /\ hdr r ctx_magic = NSAAS_CHANNEL_CTX_MAGIC P
  /\ forall i, 0 <= i < capacity fr ->
       bufs r i = initialised_hdr buffer_size i.

(** The two ways the initialisation ends. *)
Definition init_post
    (shm_size : Z) (is_posix_shm : bool)
    (nsaas_ring_slot_nr app_ring_slot_nr buf_ring_slot_nr buffer_size : Z)
    (malloc_ok : bool) (o : outcome Z) (s : IState) : Prop :=
  match o with
  | Return c =>
      c <> 0
      /\ init_substeps_ok shm_size is_posix_shm nsaas_ring_slot_nr
           app_ring_slot_nr buf_ring_slot_nr buffer_size malloc_ok = false
  | Next v =>
      v = 0
      /\ init_substeps_ok shm_size is_posix_shm nsaas_ring_slot_nr
           app_ring_slot_nr buf_ring_slot_nr buffer_size malloc_ok = true
      /\ initialised buf_ring_slot_nr buffer_size s.1
  end.
End Init.

(** ** Creation and destruction of the backing memory *)

Inductive syscall :=
  | sys_memfd_create (name : string)
  | sys_shm_open (name : string)
  | sys_ftruncate (fd size : Z)
  | sys_mmap (fd size : Z)
  | sys_mlock (size : Z)
  | sys_munmap (size : Z)
  | sys_close (fd : Z)
  | sys_shm_unlink (name : string).

(** What the kernel answers to the calls of one creation. *)
Record OsOutcome := {
  memfd_create_fd : Z;            (* a descriptor, or negative *)
  hugetlb_ftruncate_ok : bool;
  hugetlb_mmap_ok : bool;
  hugetlb_mlock_ok : bool;
  shm_open_fd : Z;                (* a descriptor, or negative *)
  shm_ftruncate_ok : bool;
  shm_mmap_ok : bool;
  shm_mlock_ok : bool;
  os_malloc_ok : bool
}.

(** Both creators give the mapping (or [None] for [NULL]), the value left
    in [*shm_fd] and the system calls made. *)
Definition __nsaas_channel_posix_create (os : OsOutcome)
    (channel_name : string) (channel_size : Z) (shm_fd : Z)
    : option Region * Z * list syscall :=
  let fd := shm_open_fd os in
  if fd <? 0 then (None, fd, [sys_shm_open channel_name])
  else if negb (shm_ftruncate_ok os) then
    (None, -1, [sys_shm_open channel_name; sys_ftruncate fd channel_size;
                sys_close fd; sys_shm_unlink channel_name])
  else if negb (shm_mmap_ok os) then
    (None, -1, [sys_shm_open channel_name; sys_ftruncate fd channel_size;
                sys_mmap fd channel_size;
                sys_close fd; sys_shm_unlink channel_name])
  else if negb (shm_mlock_ok os) then
    (None, -1, [sys_shm_open channel_name; sys_ftruncate fd channel_size;
                sys_mmap fd channel_size; sys_mlock channel_size;
                sys_munmap channel_size;
                sys_close fd; sys_shm_unlink channel_name])
  else
    (Some Region_zero, fd,
     [sys_shm_open channel_name; sys_ftruncate fd channel_size;
      sys_mmap fd channel_size; sys_mlock channel_size]).

Definition __nsaas_channel_hugetlbfs_create (os : OsOutcome)
    (channel_name : string) (channel_size : Z) (shm_fd : Z)
    : option Region * Z * list syscall :=
  if negb (Z.land channel_size (HUGE_PAGE_2M_SIZE - 1) =? 0)
  then (None, shm_fd, [])
  else
    let fd := memfd_create_fd os in
    if fd <? 0 then (None, fd, [sys_memfd_create channel_name])
    else if negb (hugetlb_ftruncate_ok os) then
      (None, -1, [sys_memfd_create channel_name; sys_ftruncate fd channel_size;
                  sys_close fd])
    else if negb (hugetlb_mmap_ok os) then
      (None, -1, [sys_memfd_create channel_name; sys_ftruncate fd channel_size;
                  sys_mmap fd channel_size; sys_close fd])
    else if negb (hugetlb_mlock_ok os) then
      (None, -1, [sys_memfd_create channel_name; sys_ftruncate fd channel_size;
                  sys_mmap fd channel_size; sys_mlock channel_size;
                  sys_munmap channel_size; sys_close fd])
    else
      (Some Region_zero, fd,
       [sys_memfd_create channel_name; sys_ftruncate fd channel_size;
        sys_mmap fd channel_size; sys_mlock channel_size]).

(** [__nsaas_channel_destroy]: the value left in [*shm_fd] and the calls. *)
Definition __nsaas_channel_destroy (mapped_mem_size : Z) (shm_fd : Z)
    (is_posix_shm : bool) (channel_name : string) : Z * list syscall :=
  ((if 0 <=? shm_fd then -1 else shm_fd),
   [sys_munmap mapped_mem_size]
     ++ (if 0 <=? shm_fd then [sys_close shm_fd] else [])
     ++ (if is_posix_shm then [sys_shm_unlink channel_name] else [])).

(** The result of [__nsaas_channel_create]: the returned pointer as the
    region it points to, the three out parameters and the system calls. *)
Record Created := {
  cr_channel : option Region;
  cr_mem_size : Z;
  cr_is_posix_shm : bool;
  cr_shm_fd : Z;
  cr_syscalls : list syscall
}.

Section Create.
Variable P : Platform.

(** The label [out:] of the creation: initialise the mapping, destroy it
    when that fails. *)
Definition create_out (os : OsOutcome) (channel : Region)
    (channel_name : string)
    (nsaas_ring_slot_nr app_ring_slot_nr buf_ring_slot_nr buffer_size : Z)
    (channel_mem_size : Z) (is_posix_shm : bool) (shm_fd : Z)
    (calls : list syscall) : Created :=
  let res :=
    run (__nsaas_channel_dataplane_init P channel_mem_size is_posix_shm
           channel_name nsaas_ring_slot_nr app_ring_slot_nr
           buf_ring_slot_nr buffer_size false (os_malloc_ok os))
        (channel, []) in
  if negb (res.1 =? 0) then
    let d := __nsaas_channel_destroy channel_mem_size shm_fd is_posix_shm
               channel_name in
    {| cr_channel := None; cr_mem_size := 0;
       cr_is_posix_shm := is_posix_shm; cr_shm_fd := d.1;
       cr_syscalls := calls ++ d.2 |}
  else
    {| cr_channel := Some res.2.1; cr_mem_size := channel_mem_size;
       cr_is_posix_shm := is_posix_shm; cr_shm_fd := shm_fd;
       cr_syscalls := calls |}.

(** [shm_fd] is what the caller's variable holds before the call. *)
Definition __nsaas_channel_create (os : OsOutcome) (channel_name : string)
    (nsaas_ring_slot_nr app_ring_slot_nr buf_ring_slot_nr buffer_size : Z)
    (shm_fd : Z) : Created :=
  let huge_size :=
    __nsaas_channel_dataplane_calculate_size P nsaas_ring_slot_nr
      app_ring_slot_nr buf_ring_slot_nr buffer_size false in
  let h := __nsaas_channel_hugetlbfs_create os channel_name huge_size shm_fd in
  match h.1.1 with
  | Some channel =>
      create_out os channel channel_name nsaas_ring_slot_nr app_ring_slot_nr
        buf_ring_slot_nr buffer_size huge_size false h.1.2 h.2
  | None =>
      let posix_size :=
        __nsaas_channel_dataplane_calculate_size P nsaas_ring_slot_nr
          app_ring_slot_nr buf_ring_slot_nr buffer_size true in
      let p :=
        __nsaas_channel_posix_create os channel_name posix_size h.1.2 in
      match p.1.1 with
      | Some channel =>
          create_out os channel channel_name nsaas_ring_slot_nr
            app_ring_slot_nr buf_ring_slot_nr buffer_size posix_size true
            p.1.2 (h.2 ++ p.2)
      | None =>
          {| cr_channel := None; cr_mem_size := posix_size;
             cr_is_posix_shm := true; cr_shm_fd := p.1.2;
             cr_syscalls := h.2 ++ p.2 |}
      end
  end.
End Create.

(** ** [ShmChannel] *)

(** The members of a [ShmChannel]; [ctx_] is the region the handle points
    to. *)
Record ShmChannel := {
  name_ : string;
  ctx_ : Region;
  mem_size_ : Z;
  is_posix_shm_ : bool;
  channel_fd_ : Z
}.

(** Modelled from the spec: [__nsaas_channel_buffers_avail] of
    [nsaas_common.h] is missing; the free buffer count is the number of
    indices on the free ring. *)
Definition __nsaas_channel_buffers_avail (ctx : Region) : Z :=
  jring_count (rings ctx buf_ring).

(** Modelled from the spec: [__nsaas_channel_buf] of [nsaas_common.h] is
    missing; the address of slot [i] is [pool_base + i * buf_size], the pool
    lying [buf_pool_ofs] bytes after the address [base] of the mapping. *)
Definition __nsaas_channel_buf (base : Z) (ctx : Region) (index : Z) : Z :=
  base + ctx.(hdr) buf_pool_ofs + index * ctx.(hdr) buf_size.

(** The accessors return [uint32_t]. *)
Definition GetTotalBufSize (ch : ShmChannel) : Z :=
  wrap32 (ch.(ctx_).(hdr) buf_size).
Definition GetUsableBufSize (ch : ShmChannel) : Z :=
  wrap32 (ch.(ctx_).(hdr) buf_mss).
Definition GetTotalBufCount (ch : ShmChannel) : Z :=
  wrap32 (capacity (ch.(ctx_).(rings) buf_ring)).
Definition GetFreeBufCount (ch : ShmChannel) : Z :=
  wrap32 (__nsaas_channel_buffers_avail ch.(ctx_)).

(** Modelled from the spec: [MsgBufBatch] of [channel_msgbuf.h] is missing.
    A batch has a capacity fixed at compile time ([kMaxBurst]), a count, and
    two arrays of that capacity: slot indices and buffer pointers. *)
Record MsgBufBatch := {
  cnt_ : nat;
  buf_indices : list Z;
  bufs_ : list Z
}.

Definition GetSize (batch : MsgBufBatch) : nat := cnt_ batch.
Definition GetRoom (P : Platform) (batch : MsgBufBatch) : nat :=
  (kMaxBurst P - cnt_ batch)%nat.
Definition IncrCount (batch : MsgBufBatch) (n : nat) : MsgBufBatch :=
  {| cnt_ := (cnt_ batch + n)%nat; buf_indices := buf_indices batch;
     bufs_ := bufs_ batch |}.
Definition Clear (batch : MsgBufBatch) : MsgBufBatch :=
  {| cnt_ := 0%nat; buf_indices := buf_indices batch; bufs_ := bufs_ batch |}.

Section ShmChannelOps.
Variable P : Platform.

(** The shared memory as this thread's calls find it: its peers in the
    other process change it between two calls, so the helpers of
    [nsaas_common.h] that act on the rings are taken as they come.  Each
    one maps the state before the call to its result and the state
    after. *)
Variable Shm : Type.
(* returns the number of indices put on the free ring *)
Variable __nsaas_channel_buf_free_bulk : Shm -> nat -> list Z -> Z * Shm.
(* returns the indices taken from the free ring *)
Variable __nsaas_channel_buf_alloc_bulk : Shm -> nat -> list Z * Shm.
(* returns the indices taken from the application ring *)
Variable __nsaas_channel_app_ring_dequeue : Shm -> nat -> list Z * Shm.
(* returns the number of indices put on the NSaaS ring *)
Variable __nsaas_channel_nsaas_ring_enqueue :
  Shm -> nat -> list Z -> nat * Shm.
(* the slot index of a buffer address *)
Variable __nsaas_channel_buf_index : Z -> Z.

(** Where this process maps the region, and its context. *)
Variable base : Z.
Variable ctx : Region.

Definition GetMsgBuf (index : Z) : Z := __nsaas_channel_buf base ctx index.

Definition EnqueueMessages (shm : Shm) (msgbuf_indices : list Z)
    (nb_msgs : nat) : nat * Shm :=
  __nsaas_channel_nsaas_ring_enqueue shm nb_msgs msgbuf_indices.

(** [for (i = 0; i < nmsgs; i++) slots[i] = index of msgs[i];] *)
Definition fill_slots (msgs : list Z) (nmsgs : nat) (slots : list Z)
    : list Z :=
  foldl (fun slots i => <[i := __nsaas_channel_buf_index (msgs !!! i)]> slots)
        slots (seq 0 nmsgs).

(** The overload on an array of pointers; the local array [slots] starts
    with indeterminate entries, taken as zeros. *)
Definition EnqueueMessages_ptrs (shm : Shm) (msgs : list Z) (nb_msgs : nat)
    : nat * Shm :=
  let slots := replicate (kMaxBurst P) 0 in
  let nmsgs := Nat.min nb_msgs (kMaxBurst P) in
  let slots := fill_slots msgs nmsgs slots in
  EnqueueMessages shm slots nmsgs.

Definition EnqueueMessages_batch (shm : Shm) (batch : MsgBufBatch)
    : nat * Shm :=
  EnqueueMessages shm (buf_indices batch) (GetSize batch).

(** [for (i = 0; i < ret; i++) msgs[i] = buffer of msg_indices[i];] *)
Definition resolve_msgs (msg_indices : list Z) (ret : nat) (msgs : list Z)
    : list Z :=
  foldl (fun msgs i => <[i := __nsaas_channel_buf base ctx (msg_indices !!! i)]> msgs)
        msgs (seq 0 ret).

(** The result: the count, the two arrays after the call, the shared
    memory. *)
Definition DequeueMessages (shm : Shm) (msg_indices msgs : list Z)
    (nb_msgs : nat) : nat * list Z * list Z * Shm :=
  let d := __nsaas_channel_app_ring_dequeue shm nb_msgs in
  let ret := length d.1 in
  let msg_indices := list_inserts 0 d.1 msg_indices in
  (ret, msg_indices, resolve_msgs msg_indices ret msgs, d.2).

(** [do { ret = free_bulk(n, indices); } while (ret == 0 && retries-- > 0);]
    with [retries] counting down from a non-negative start.  The third
    component lists what each attempt returned, in order. *)
Fixpoint free_bulk_retry (retries : nat) (shm : Shm) (n : nat)
    (indices : list Z) : Z * Shm * list Z :=
  let r := __nsaas_channel_buf_free_bulk shm n indices in
  if r.1 =? 0 then
    match retries with
    | S k =>
        let t := free_bulk_retry k r.2 n indices in
        (t.1.1, t.1.2, r.1 :: t.2)
    | O => (r.1, r.2, [r.1])
    end
  else (r.1, r.2, [r.1]).

(** The result: the [bool] returned, the shared memory, the attempts. *)
Definition MsgBufFree (shm : Shm) (buf : Z) : bool * Shm * list Z :=
  let index := [__nsaas_channel_buf_index buf] in
  let t := free_bulk_retry 5 shm 1 index in
  (negb (t.1.1 =? 0), t.1.2, t.2).

(** The result: the [bool] returned, the batch and the shared memory. *)
Definition MsgBufBulkAlloc (shm : Shm) (batch : MsgBufBatch) (cnt : nat)
    : bool * MsgBufBatch * Shm :=
  let a := __nsaas_channel_buf_alloc_bulk shm
             (Nat.min cnt (GetRoom P batch)) in
  let ret := length a.1 in
  let batch :=
    {| cnt_ := cnt_ batch;
       buf_indices := list_inserts 0 a.1 (buf_indices batch);
       bufs_ := list_inserts 0 (__nsaas_channel_buf base ctx <$> a.1)
                  (bufs_ batch) |} in
  let batch := IncrCount batch ret in
  if (ret =? 0)%nat then (false, batch, a.2) else (true, batch, a.2).

(** The result: the [bool] returned, the batch, the shared memory and the
    attempts. *)
Definition MsgBufBulkFree (shm : Shm) (batch : MsgBufBatch)
    : bool * MsgBufBatch * Shm * list Z :=
  if (GetSize batch =? 0)%nat then (true, batch, shm, [])
  else
    let t := free_bulk_retry 5 shm (GetSize batch) (buf_indices batch) in
    if t.1.1 =? 0 then (false, batch, t.1.2, t.2)
    else (true, Clear batch, t.1.2, t.2).

(** The shared memory after [k] calls of the free helper in a row. *)
Fixpoint after_free_attempts (k : nat) (shm : Shm) (n : nat)
    (indices : list Z) : Shm :=
  match k with
  | O => shm
  | S k' =>
      after_free_attempts k'
        (__nsaas_channel_buf_free_bulk shm n indices).2 n indices
  end.
End ShmChannelOps.

(** ** [ChannelManager] *)

Definition kMaxChannelNr : nat := 32.

(** [std::unordered_map::insert] keeps the entry of a key that is present. *)
Definition unordered_map_insert {V} (k : string) (v : V)
    (m : gmap string V) : gmap string V :=
  match m !! k with
  | Some _ => m
  | None => <[k := v]> m
  end.

Section ChannelManager.
Variable P : Platform.

(** [channels_] is the member of the manager; [channel_fd] is what the
    uninitialised local holds.  The result: the [bool] returned, the
    member afterwards, the system calls made. *)
Definition AddChannel (os : OsOutcome) (channels_ : gmap string ShmChannel)
    (name : string)
    (nsaas_ring_slot_nr app_ring_slot_nr buf_ring_slot_nr buffer_size : Z)
    (channel_fd : Z) : bool * gmap string ShmChannel * list syscall :=
  if decide (kMaxChannelNr <= size channels_)%nat
  then (false, channels_, [])
  else if decide (is_Some (channels_ !! name))
  then (false, channels_, [])
  else
    let c := __nsaas_channel_create P os name nsaas_ring_slot_nr
               app_ring_slot_nr buf_ring_slot_nr buffer_size channel_fd in
    match cr_channel c with
    | None => (false, channels_, cr_syscalls c)
    | Some ctx =>
        (true,
         unordered_map_insert name
           {| name_ := name; ctx_ := ctx; mem_size_ := cr_mem_size c;
              is_posix_shm_ := cr_is_posix_shm c;
              channel_fd_ := cr_shm_fd c |}
           channels_,
         cr_syscalls c)
    end.

Definition GetChannel (channels_ : gmap string ShmChannel) (name : string)
    : option ShmChannel :=
  channels_ !! name.

Definition GetChannelCount (channels_ : gmap string ShmChannel) : nat :=
  size channels_.
End ChannelManager.

(** ** A concrete platform and single-threaded helpers

    Values with which the statements below are exercised: 4 KiB pages, a
    64-byte buffer header, and the helpers of [nsaas_common.h] as they act
    when no peer interferes, the shared memory being the region itself. *)

Definition example_platform : Platform :=
  {| getpagesize := 4096;
     sizeof_NSaaSChannelCtx_t := 192;
     sizeof_NSaaSChannelStats_t := 64;
     sizeof_NSaaSCtrlQueueEntry_t := 64;
     sizeof_jring := 128;
     NSAAS_MSGBUF_SPACE_RESERVED := 64;
     NSAAS_MSGBUF_HEADROOM_MAX := 64;
     NSAAS_MSGBUF_MAGIC := 0x4e53;
     NSAAS_CHANNEL_CTX_MAGIC := 0x4e536161;
     NSAAS_CHANNEL_VERSION := 1;
     kMaxBurst := 16 |}.

Definition all_ok : OsOutcome :=
  {| memfd_create_fd := 3; hugetlb_ftruncate_ok := true;
     hugetlb_mmap_ok := true; hugetlb_mlock_ok := true;
     shm_open_fd := 4; shm_ftruncate_ok := true; shm_mmap_ok := true;
     shm_mlock_ok := true; os_malloc_ok := true |}.

Definition set_ring (r : Region) (id : ring_id) (q : jring) : Region :=
  apply_store r (StRing id q).

Definition seq_buf_free_bulk (r : Region) (n : nat) (indices : list Z)
    : Z * Region :=
  let e := jring_enqueue_bulk (rings r buf_ring) indices (Z.of_nat n) in
  (e.1.1, set_ring r buf_ring e.2).

Definition seq_buf_alloc_bulk (r : Region) (n : nat) : list Z * Region :=
  let d := jring_dequeue_burst (rings r buf_ring) n in
  (d.1, set_ring r buf_ring d.2).

Definition seq_app_ring_dequeue (r : Region) (n : nat) : list Z * Region :=
  let d := jring_dequeue_burst (rings r app_ring) n in
  (d.1, set_ring r app_ring d.2).

Definition seq_nsaas_ring_enqueue (r : Region) (n : nat) (indices : list Z)
    : nat * Region :=
  let e := jring_enqueue_bulk (rings r nsaas_ring) indices (Z.of_nat n) in
  (Z.to_nat e.1.1, set_ring r nsaas_ring e.2).

(** A free helper that never makes progress, as under lasting contention. *)
Definition stuck_free_bulk (r : Region) (n : nat) (indices : list Z)
    : Z * Region := (0, r).

(** A small region: every ring with 4 slots, empty. *)
Definition small_ring : jring :=
  (jring_init jring_zero 4 sizeof_NSaaSRingSlot_t true true).2.

Definition small_region : Region :=
  {| hdr := <[buf_size := 2048]> (<[buf_pool_ofs := 4096]> (fun _ => 0));
     ctx_name := "c0"; stats_zeroed := true;
     rings := fun _ => small_ring; bufs := fun _ => MsgBufHdr_zero |}.

(** The size of a region with 2 slots on each message ring, 4 slots on the
    free ring and 64-byte buffers, on POSIX shared memory. *)
Definition small_size : Z :=
  __nsaas_channel_dataplane_calculate_size example_platform 2 2 4 64 true.

(** A small region whose application ring holds the slots 2 and 0, and
    whose free ring holds the slots 1 and 3. *)
Definition busy_region : Region :=
  set_ring (set_ring small_region app_ring (jring_with_entries small_ring [2; 0]))
    buf_ring (jring_with_entries small_ring [1; 3]).

Definition example_channel : ShmChannel :=
  {| name_ := "c0"; ctx_ := small_region; mem_size_ := small_size;
     is_posix_shm_ := true; channel_fd_ := 4 |}.

(** A batch holding the slots 0 and 1, and an empty one. *)
Definition example_batch : MsgBufBatch :=
  {| cnt_ := 2; buf_indices := [0; 1] ++ replicate 14 0;
     bufs_ := [0x20001000; 0x20001800] ++ replicate 14 0 |}.

Definition empty_batch : MsgBufBatch :=
  {| cnt_ := 0; buf_indices := replicate 16 0; bufs_ := replicate 16 0 |}.

(** The kernel as in [all_ok], but for a [malloc] that fails. *)
Definition malloc_fails : OsOutcome :=
  {| memfd_create_fd := 3; hugetlb_ftruncate_ok := true;
     hugetlb_mmap_ok := true; hugetlb_mlock_ok := true;
     shm_open_fd := 4; shm_ftruncate_ok := true; shm_mmap_ok := true;
     shm_mlock_ok := true; os_malloc_ok := false |}.

(** The kernel without huge pages and with a [malloc] that fails. *)
Definition no_huge_pages_malloc_fails : OsOutcome :=
  {| memfd_create_fd := -1; hugetlb_ftruncate_ok := true;
     hugetlb_mmap_ok := true; hugetlb_mlock_ok := true;
     shm_open_fd := 4; shm_ftruncate_ok := true; shm_mmap_ok := true;
     shm_mlock_ok := true; os_malloc_ok := false |}.

(** ** The rest of [ShmChannel] and of [ChannelManager] *)

Definition GetFd (ch : ShmChannel) : Z := channel_fd_ ch.
Definition GetName (ch : ShmChannel) : string := name_ ch.
Definition IsPosixShm (ch : ShmChannel) : bool := is_posix_shm_ ch.
(** [GetSize] of a channel: [ctx_->size]. *)
Definition GetChannelSize (ch : ShmChannel) : Z := wrap64 (ch.(ctx_).(hdr) ctx_size).

Section ShmChannelMore.
Variable P : Platform.
Variable Shm : Type.
Variable __nsaas_channel_buf_alloc_bulk : Shm -> nat -> list Z * Shm.
Variable __nsaas_channel_app_ring_dequeue : Shm -> nat -> list Z * Shm.
Variable base : Z.
Variable ctx : Region.

(** [MsgBufAlloc]: the pointer returned ([None] for [nullptr]) and the
    shared memory.  The helper fills [indices] and [buf] with what it
    took. *)
Definition MsgBufAlloc (shm : Shm) : option Z * Shm :=
  let a := __nsaas_channel_buf_alloc_bulk shm 1 in
  let buf := __nsaas_channel_buf base ctx <$> a.1 in
  if (length a.1 =? 1)%nat then (Some (buf !!! 0%nat), a.2) else (None, a.2).

(** The overload of [DequeueMessages] on a batch: the two arrays are handed
    over from the entry [GetSize()] on, with the room left as the count. *)
Definition DequeueMessages_batch (shm : Shm) (batch : MsgBufBatch)
    : nat * MsgBufBatch * Shm :=
  let size := GetSize batch in
  let d :=
    DequeueMessages Shm __nsaas_channel_app_ring_dequeue base ctx shm
      (drop size (buf_indices batch)) (drop size (bufs_ batch))
      (GetRoom P batch) in
  let batch :=
    {| cnt_ := cnt_ batch;
       buf_indices := take size (buf_indices batch) ++ d.1.1.2;
       bufs_ := take size (bufs_ batch) ++ d.1.2 |} in
  (d.1.1.1, IncrCount batch d.1.1.1, d.2).
End ShmChannelMore.

(** [DestroyChannel]: the member afterwards.  The destructor of the handle,
    which [erase] may run, is in a file that is not at hand and is left
    out. *)
Definition DestroyChannel (channels_ : gmap string ShmChannel) (name : string)
    : gmap string ShmChannel :=
  if decide (is_Some (channels_ !! name)) then delete name channels_
  else channels_.

(** [GetAllChannels]: the handles, in the order the map is walked. *)
Definition GetAllChannels (channels_ : gmap string ShmChannel)
    : list ShmChannel :=
  (map_to_list channels_).*2.

(** ** The layout the initialisation records *)

Section Layout.
Variable P : Platform.

(** The bytes the initialisation steps over for a ring of [n] slots. *)
Definition ring_bytes (n : Z) : Z :=
  jring_get_buf_ring_size P sizeof_NSaaSRingSlot_t n.

(** The ring [jring_init] leaves on success. *)
Definition ring_of (count esize : Z) (prod cons : bool) : jring :=
  (jring_init jring_zero count esize prod cons).2.

(** The context, the statistics and the four message and control rings of
    a region [r] that an initialisation of the region [r0] returned 0 on. *)
Definition init_layout (r0 : Region) (shm_size : Z) (is_posix_shm : bool)
    (name : string)
    (nsaas_ring_slot_nr app_ring_slot_nr buf_ring_slot_nr buffer_size : Z)
    (is_multithread : bool) (r : Region) : Prop :=
  let total_size :=
    __nsaas_channel_dataplane_calculate_size P nsaas_ring_slot_nr
      app_ring_slot_nr buf_ring_slot_nr buffer_size is_posix_shm in
  let esize := sizeof_NSaaSCtrlQueueEntry_t P in
  (hdr r ctx_version = NSAAS_CHANNEL_VERSION P
   /\ hdr r ctx_size = total_size /\ total_size <= shm_size
   /\ ctx_name r = String.substring 0 63 name
   /\ hdr r ctrl_ctx_req_id = 0
   /\ stats_zeroed r = true)
  /\ (hdr r stats_ofs = sizeof_NSaaSChannelCtx_t P
      /\ hdr r ctrl_sq_ring_ofs
         = wrap64 (hdr r stats_ofs + sizeof_NSaaSChannelStats_t P)
      /\ hdr r ctrl_cq_ring_ofs
         = wrap64 (hdr r ctrl_sq_ring_ofs
                   + ring_bytes NSAAS_CHANNEL_CTRL_SQ_SLOT_NR)
      /\ hdr r nsaas_ring_ofs
         = wrap64 (hdr r ctrl_cq_ring_ofs
                   + ring_bytes NSAAS_CHANNEL_CTRL_CQ_SLOT_NR)
      /\ hdr r app_ring_ofs
         = wrap64 (hdr r nsaas_ring_ofs + ring_bytes nsaas_ring_slot_nr)
      /\ hdr r buf_ring_ofs
         = wrap64 (hdr r app_ring_ofs + ring_bytes app_ring_slot_nr)
      /\ hdr r buf_pool_ofs
         = ALIGN_TO_PAGE_SIZE
             (wrap64 (hdr r buf_ring_ofs + ring_bytes buf_ring_slot_nr))
             (kPageSize_of P is_posix_shm))
  /\ (rings r ctrl_sq_ring
      = ring_of NSAAS_CHANNEL_CTRL_SQ_SLOT_NR esize is_multithread false
      /\ rings r ctrl_cq_ring
         = ring_of NSAAS_CHANNEL_CTRL_CQ_SLOT_NR esize false is_multithread
      /\ rings r nsaas_ring
         = ring_of nsaas_ring_slot_nr sizeof_NSaaSRingSlot_t
             is_multithread true
      /\ rings r app_ring
         = ring_of app_ring_slot_nr sizeof_NSaaSRingSlot_t true
             is_multithread)
  /\ (forall i, ~ 0 <= i < capacity (free_ring_of buf_ring_slot_nr) ->
        bufs r i = bufs r0 i).

Definition init_layout_post (r0 : Region) (shm_size : Z)
    (is_posix_shm : bool) (name : string)
    (nsaas_ring_slot_nr app_ring_slot_nr buf_ring_slot_nr buffer_size : Z)
    (is_multithread : bool) (o : outcome Z) (s : IState) : Prop :=
  match o with
  | Return _ => True
  | Next _ =>
      init_layout r0 shm_size is_posix_shm name nsaas_ring_slot_nr
        app_ring_slot_nr buf_ring_slot_nr buffer_size is_multithread s.1
  end.
End Layout.

(** ** Calls on a manager *)

(** A call that changes the registry of a manager, with what the kernel
    answers during the call and what the local [channel_fd] held. *)
Inductive ManagerCall :=
  | CallAddChannel (os : OsOutcome) (name : string)
      (nsaas_ring_slot_nr app_ring_slot_nr buf_ring_slot_nr buffer_size : Z)
      (channel_fd : Z)
  | CallDestroyChannel (name : string).

(** The registry after one call, and after a sequence of calls on a new
    manager; the mutex of the manager makes the calls of its clients such a
    sequence. *)
Definition manager_call (P : Platform) (channels_ : gmap string ShmChannel)
    (c : ManagerCall) : gmap string ShmChannel :=
  match c with
  | CallAddChannel os name ns app bufn bs fd =>
      (AddChannel P os channels_ name ns app bufn bs fd).1.2
  | CallDestroyChannel name => DestroyChannel channels_ name
  end.

Definition manager_calls (P : Platform) (calls : list ManagerCall)
    : gmap string ShmChannel :=
  foldl (manager_call P) ∅ calls.
(** ** Facts of the machine arithmetic *)

Lemma wrap64_range x : 0 <= wrap64 x < 2 ^ 64.
Proof. unfold wrap64. apply Z.mod_pos_bound. lia. Qed.

Lemma wrap64_small x : 0 <= x < 2 ^ 64 -> wrap64 x = x.
Proof. intros. unfold wrap64. apply Z.mod_small. lia. Qed.

Lemma IS_POW2_zero : IS_POW2 0 = true.
Proof. reflexivity. Qed.

Lemma IS_POW2_power k : 0 <= k -> IS_POW2 (2 ^ k) = true.
Proof.
  intros Hk. unfold IS_POW2.
  assert (0 < 2 ^ k) by (apply Z.pow_pos_nonneg; lia).
  destruct (Z_lt_le_dec (2 ^ k - 1) (2 ^ 64)) as [Hlt | Hge].
  - rewrite wrap64_small by lia.
    replace (2 ^ k - 1) with (Z.ones k) by (rewrite Z.ones_equiv; lia).
    rewrite Z.land_ones by lia. rewrite Z.mod_same by lia. reflexivity.
  - (* 2^k beyond a size_t: every bit of the wrapped operand is below k *)
    apply Z.eqb_eq. apply Z.bits_inj'. intros n Hn.
    rewrite Z.land_spec, Z.bits_0.
    destruct (Z.eq_dec n k) as [-> | Hne].
    + assert (64 <= k).
      { destruct (Z_lt_le_dec k 64); [|lia].
        assert (2 ^ k <= 2 ^ 63) by (apply Z.pow_le_mono_r; lia). lia. }
      unfold wrap64. rewrite Z.mod_pow2_bits_high by lia.
      apply andb_false_r.
    + rewrite Z.pow2_bits_eqb by lia.
      destruct (Z.eqb_spec k n); [lia | reflexivity].
Qed.

Lemma IS_POW2_sound x :
  0 <= x < 2 ^ 64 -> IS_POW2 x = true -> x = 0 \/ power_of_two x.
Proof.
  intros Hx Hp. destruct (Z.eq_dec x 0) as [-> | Hnz]; [now left | right].
  unfold IS_POW2 in Hp. apply Z.eqb_eq in Hp.
  rewrite wrap64_small in Hp by lia.
  set (k := Z.log2 x).
  assert (Hk : 0 <= k) by apply Z.log2_nonneg.
  destruct (Z.log2_spec x) as [Hlo Hhi]; [lia |]. fold k in Hlo, Hhi.
  exists k. split; [exact Hk |].
  destruct (Z.eq_dec x (2 ^ k)) as [E | Hne]; [exact E | exfalso].
  assert (Hk' : Z.log2 (x - 1) = k).
  { apply Z.log2_unique; [exact Hk | lia]. }
  assert (Hb : Z.testbit (Z.land x (x - 1)) k = true).
  { rewrite Z.land_spec. unfold k at 1. rewrite Z.bit_log2 by lia.
    rewrite <- Hk'. rewrite Z.bit_log2; [reflexivity |].
    assert (0 < 2 ^ k) by (apply Z.pow_pos_nonneg; lia). lia. }
  rewrite Hp in Hb. rewrite Z.bits_0 in Hb. discriminate.
Qed.

Lemma IS_POW2_false_not_power x :
  0 <= x < 2 ^ 64 -> ~ power_of_two x -> x <> 0 -> IS_POW2 x = false.
Proof.
  intros Hx Hn Hz. destruct (IS_POW2 x) eqn:E; [| reflexivity].
  destruct (IS_POW2_sound x Hx E); tauto.
Qed.

Lemma ALIGN_TO_PAGE_SIZE_even x p k :
  1 <= k -> p = 2 ^ k -> exists q, ALIGN_TO_PAGE_SIZE x p = 2 * q.
Proof.
  intros Hk ->. unfold ALIGN_TO_PAGE_SIZE.
  set (d := wrap64 (x + (2 ^ k - 1)) / 2 ^ k).
  exists (d * 2 ^ (k - 1)).
  assert (E : 2 ^ k = 2 * 2 ^ (k - 1))
    by (rewrite <- Z.pow_succ_r by lia; f_equal; lia).
  rewrite E. ring.
Qed.

Lemma ALIGN_TO_PAGE_SIZE_range x p :
  0 < p -> 0 <= ALIGN_TO_PAGE_SIZE x p < 2 ^ 64.
Proof.
  intros Hp. unfold ALIGN_TO_PAGE_SIZE.
  pose proof (wrap64_range (x + (p - 1))) as [H0 H1].
  pose proof (Z.mul_div_le (wrap64 (x + (p - 1))) p Hp).
  assert (0 <= wrap64 (x + (p - 1)) / p) by (apply Z.div_pos; lia).
  nia.
Qed.

(** ** The definitions on small inputs *)

Example IS_POW2_256 : IS_POW2 256 = true.
Proof. reflexivity. Qed.

Example IS_POW2_3 : IS_POW2 3 = false.
Proof. reflexivity. Qed.

Example ROUNDUP_U64_POW2_1152 : ROUNDUP_U64_POW2 1152 = 2048.
Proof. reflexivity. Qed.

Example ROUNDUP_U64_POW2_2048 : ROUNDUP_U64_POW2 2048 = 2048.
Proof. reflexivity. Qed.

Example ALIGN_TO_PAGE_SIZE_5000 : ALIGN_TO_PAGE_SIZE 5000 4096 = 8192.
Proof. reflexivity. Qed.

Example to_int_minus_one : to_int (2 ^ 32 - 1) = -1.
Proof. reflexivity. Qed.

Example jring_init_4096 :
  let r := jring_init jring_zero 4096 sizeof_NSaaSRingSlot_t true true in
  r.1 = 0 /\ capacity r.2 = 4095 /\ jr_mask r.2 = 4095.
Proof. vm_compute. auto. Qed.

Example jring_init_zero_count :
  (jring_init jring_zero 0 sizeof_NSaaSRingSlot_t true true).1 = -1.
Proof. reflexivity. Qed.

Example jring_enqueue_bulk_all_or_nothing :
  (jring_enqueue_bulk small_ring [7; 8; 9] 3).1 = (3, 0)
  /\ (jring_enqueue_bulk small_ring [7; 8; 9; 10] 4).1 = (0, 3).
Proof. vm_compute. auto. Qed.

Example calculate_size_c0 :
  __nsaas_channel_dataplane_calculate_size example_platform 256 256 4096 1024
    true = 8409088
  /\ __nsaas_channel_dataplane_calculate_size example_platform 256 256 4096
       1024 false = 10485760.
Proof. vm_compute. auto. Qed.

Example calculate_size_oversized_buffer :
  __nsaas_channel_dataplane_calculate_size example_platform 256 256 4096 4097
    true = SIZE_MAX.
Proof. reflexivity. Qed.

Example create_small_channel :
  let c := __nsaas_channel_create example_platform all_ok "c0" 2 2 4 64 (-1) in
  match cr_channel c with
  | Some r =>
      hdr r ctx_magic = NSAAS_CHANNEL_CTX_MAGIC example_platform
      /\ jr_entries (rings r buf_ring) = [0; 1; 2]
      /\ hdr r buf_size = 256 /\ hdr r buf_mss = 64
      /\ mb_index (bufs r 2) = 2 /\ mb_size (bufs r 2) = 128
  | None => False
  end.
Proof. vm_compute. repeat split. Qed.

Example MsgBufFree_gives_up_after_six_attempts :
  let res := MsgBufFree Region stuck_free_bulk (fun p => p) small_region 0 in
  res.1.1 = false /\ res.2 = [0; 0; 0; 0; 0; 0].
Proof. vm_compute. auto. Qed.

Example MsgBufFree_first_attempt :
  let res := MsgBufFree Region seq_buf_free_bulk (fun p => p) small_region 2 in
  res.1.1 = true /\ res.2 = [1]
  /\ jr_entries (rings res.1.2 buf_ring) = [2].
Proof. vm_compute. auto. Qed.

(** ** Facts of the ring *)

Lemma jring_init_code_indep r count esize prod cons :
  (jring_init r count esize prod cons).1
  = (jring_init jring_zero count esize false false).1.
Proof. unfold jring_init. now destruct (_ || _). Qed.

Lemma jring_init_ring_indep r count esize prod cons :
  (jring_init r count esize prod cons).1 = 0 ->
  (jring_init r count esize prod cons).2
  = (jring_init jring_zero count esize prod cons).2.
Proof. unfold jring_init. destruct (_ || _); [discriminate | reflexivity]. Qed.

Lemma jring_init_ok_capacity r count esize prod cons :
  (jring_init r count esize prod cons).1 = 0 ->
  capacity (jring_init r count esize prod cons).2 = count - 1
  /\ jr_entries (jring_init r count esize prod cons).2 = [].
Proof. unfold jring_init. destruct (_ || _); [discriminate | auto]. Qed.

Lemma jring_enqueue_bulk_empty q items :
  jr_entries q = [] -> 0 <= capacity q ->
  jring_enqueue_bulk q items (capacity q)
  = (capacity q, 0,
     jring_with_entries q (take (Z.to_nat (capacity q)) items)).
Proof.
  intros He Hc. unfold jring_enqueue_bulk, jring_free_count, jring_count.
  rewrite He. simpl length. rewrite Z.sub_0_r.
  rewrite Z.leb_refl. rewrite Z.sub_diag. reflexivity.
Qed.

(** ** Replaying writes *)

Lemma replay_app r l1 l2 : replay r (l1 ++ l2) = replay (replay r l1) l2.
Proof. unfold replay. apply fold_left_app. Qed.

Lemma apply_store_magic r e :
  is_magic_store e = false -> hdr (apply_store r e) ctx_magic = hdr r ctx_magic.
Proof. destruct e as [f v| | | | | | | |]; try reflexivity. now destruct f. Qed.

Lemma replay_no_magic l : forall r,
  forallb (fun e => negb (is_magic_store e)) l = true ->
  hdr (replay r l) ctx_magic = hdr r ctx_magic.
Proof.
  induction l as [|e l IH]; intros r H; [reflexivity |].
  simpl in H. apply andb_prop in H as [He Hl].
  change (replay r (e :: l)) with (replay (apply_store r e) l).
  rewrite IH by exact Hl. apply apply_store_magic.
  now destruct (is_magic_store e).
Qed.

(** ** Rules of the weakest precondition *)

Lemma wp_bind {A B} (m : M A) (k : A -> M B) s Q :
  wp m s (fun o s' =>
            match o with
            | Next a => wp (k a) s' Q
            | Return c => Q (Return c) s'
            end) ->
  wp (m ≫= k) s Q.
Proof.
  unfold wp, mbind, M_bind. destruct (m s) as [[a|c] s']; simpl; auto.
Qed.

Lemma wp_store e s Q :
  Q (Next tt) (apply_store s.1 e, s.2 ++ [e]) -> wp (do_store e) s Q.
Proof. auto. Qed.

Lemma wp_load f s Q : Q (Next (hdr s.1 f)) s -> wp (load f) s Q.
Proof. auto. Qed.

Lemma wp_get_ring id s Q : Q (Next (rings s.1 id)) s -> wp (get_ring id) s Q.
Proof. auto. Qed.

Lemma wp_ret {A} (a : A) s Q : Q (Next a) s -> wp (mret a) s Q.
Proof. auto. Qed.

Lemma wp_return_if c code s Q :
  (c = true -> Q (Return code) s) -> (c = false -> Q (Next tt) s) ->
  wp (return_if c code) s Q.
Proof. unfold return_if, wp. destruct c; simpl; auto. Qed.

Lemma wp_mono {A} (m : M A) s (Q Q' : outcome A -> IState -> Prop) :
  (forall o s', Q o s' -> Q' o s') -> wp m s Q -> wp m s Q'.
Proof. unfold wp. auto. Qed.

Lemma wp_for_each {A} (I : IState -> Prop) (body : A -> M unit) l s Q :
  I s ->
  (forall x s', I s' -> wp (body x) s' (fun o s'' => o = Next tt /\ I s'')) ->
  (forall s', I s' -> Q (Next tt) s') ->
  wp (for_each l body) s Q.
Proof.
  intros Hs Hbody HQ. revert s Hs.
  induction l as [|x l IH]; intros s Hs; simpl.
  - apply wp_ret. auto.
  - apply wp_bind. eapply wp_mono; [| apply (Hbody x s Hs)].
    intros o s' [-> Hs']. apply IH. exact Hs'.
Qed.

Lemma wp_do_jring_init id count esize prod cons s Q :
  ((jring_init jring_zero count esize false false).1 = 0 ->
   let q := (jring_init jring_zero count esize prod cons).2 in
   Q (Next 0) (apply_store s.1 (StRing id q), s.2 ++ [StRing id q])) ->
  (forall code, code <> 0 ->
     (jring_init jring_zero count esize false false).1 = code ->
     Q (Next code) s) ->
  wp (do_jring_init id count esize prod cons) s Q.
Proof.
  intros Hok Hfail. unfold do_jring_init.
  apply wp_bind, wp_get_ring, wp_bind.
  pose proof (jring_init_code_indep (rings s.1 id) count esize prod cons) as E.
  destruct (Z.eqb_spec (jring_init (rings s.1 id) count esize prod cons).1 0)
    as [E0 | E0].
  - apply wp_store, wp_ret. rewrite E0.
    rewrite jring_init_ring_indep by exact E0.
    apply Hok. congruence.
  - apply wp_ret, wp_ret. apply Hfail; [exact E0 | congruence].
Qed.

(** ** Rules for the trace of writes *)

Lemma no_magic_app l1 l2 :
  no_magic (l1 ++ l2) = no_magic l1 && no_magic l2.
Proof. apply forallb_app. Qed.

Lemma writes_ret {A} (a : A) : writes_no_magic (mret a : M A).
Proof. intros s. exists []. split; [| reflexivity].
  cbn. rewrite app_nil_r. now destruct s. Qed.

Lemma writes_exit {A} c : writes_no_magic (exit c : M A).
Proof. intros s. exists []. split; [| reflexivity].
  cbn. rewrite app_nil_r. now destruct s. Qed.

Lemma writes_load f : writes_no_magic (load f).
Proof. intros s. exists []. split; [| reflexivity].
  cbn. rewrite app_nil_r. now destruct s. Qed.

Lemma writes_get_ring id : writes_no_magic (get_ring id).
Proof. intros s. exists []. split; [| reflexivity].
  cbn. rewrite app_nil_r. now destruct s. Qed.

Lemma writes_return_if c code : writes_no_magic (return_if c code).
Proof. destruct c; [apply writes_exit | apply writes_ret]. Qed.

Lemma writes_store e : is_magic_store e = false -> writes_no_magic (do_store e).
Proof.
  intros He s. exists [e]. split; [reflexivity |].
  cbn. now rewrite He.
Qed.

Lemma writes_bind {A B} (m : M A) (k : A -> M B) :
  writes_no_magic m -> (forall a, writes_no_magic (k a)) ->
  writes_no_magic (m ≫= k).
Proof.
  intros Hm Hk s. destruct (Hm s) as (n1 & E1 & N1).
  unfold mbind, M_bind. destruct (m s) as [[a | c] s1]; cbn [snd] in E1.
  - destruct (Hk a s1) as (n2 & E2 & N2). exists (n1 ++ n2).
    rewrite E2, E1. cbn [fst snd].
    rewrite replay_app, app_assoc, no_magic_app, N1, N2. auto.
  - exists n1. auto.
Qed.

Lemma writes_for_each {A} (l : list A) (body : A -> M unit) :
  (forall x, writes_no_magic (body x)) -> writes_no_magic (for_each l body).
Proof.
  intros Hb. induction l as [|x l IH]; [apply writes_ret |].
  cbn [for_each]. apply writes_bind; auto.
Qed.

Lemma publishes_bind {A} v (m : M A) (k : A -> M Z) :
  writes_no_magic m -> (forall a, publishes_last v (k a)) ->
  publishes_last v (m ≫= k).
Proof.
  intros Hm Hk s. destruct (Hm s) as (n1 & E1 & N1).
  unfold mbind, M_bind. destruct (m s) as [[a | c] s1]; cbn [snd] in E1.
  - subst s1. destruct (Hk a (replay s.1 n1, s.2 ++ n1)) as (n2 & E2 & H2).
    exists (n1 ++ n2). rewrite E2. cbn [fst snd].
    rewrite replay_app, app_assoc. split; [reflexivity |].
    destruct ((k a (replay s.1 n1, s.2 ++ n1)).1) as [z | c].
    + destruct H2 as [pre [E Np]]. subst n2. exists (n1 ++ pre).
      now rewrite <- app_assoc, no_magic_app, N1, Np.
    + now rewrite no_magic_app, N1, H2.
  - exists n1. auto.
Qed.

(** ** The loop over the buffers *)

Section InitFacts.
Variable P : Platform.

Lemma for_each_init_buf bs l : forall s,
  for_each l (init_buf P bs) s
  = (Next tt, (replay s.1 (l ≫= buf_stores P bs), s.2 ++ (l ≫= buf_stores P bs))).
Proof.
  induction l as [|x l IH]; intros [r log].
  - simpl. now rewrite app_nil_r.
  - cbn [for_each]. unfold mbind at 1, M_bind at 1.
    unfold init_buf at 1. unfold mbind, M_bind, do_store. cbn [fst snd].
    fold (@mbind M M_bind). rewrite IH. cbn [fst snd].
    rewrite bind_cons, replay_app. unfold buf_stores at 3 6.
    repeat rewrite <- app_assoc. reflexivity.
Qed.

Lemma replay_buf_stores_frame bs l : forall r,
  hdr (replay r (l ≫= buf_stores P bs)) = hdr r
  /\ rings (replay r (l ≫= buf_stores P bs)) = rings r
  /\ ctx_name (replay r (l ≫= buf_stores P bs)) = ctx_name r
  /\ stats_zeroed (replay r (l ≫= buf_stores P bs)) = stats_zeroed r.
Proof.
  induction l as [|x l IH]; intros r; [auto |].
  rewrite bind_cons, replay_app.
  destruct (IH (replay r (buf_stores P bs x))) as (-> & -> & -> & ->). auto.
Qed.

Lemma replay_buf_stores_other bs l i : forall r,
  i ∉ l -> bufs (replay r (l ≫= buf_stores P bs)) i = bufs r i.
Proof.
  induction l as [|x l IH]; intros r Hi; [reflexivity |].
  apply not_elem_of_cons in Hi as [Hx Hl].
  rewrite bind_cons, replay_app, IH by exact Hl.
  cbn. repeat rewrite fn_lookup_insert_ne by congruence. reflexivity.
Qed.

Lemma replay_buf_stores_at bs l i : forall r,
  i ∈ l -> bufs (replay r (l ≫= buf_stores P bs)) i = initialised_hdr P bs i.
Proof.
  induction l as [|x l IH]; intros r Hi; [now apply elem_of_nil in Hi |].
  rewrite bind_cons, replay_app.
  destruct (decide (i ∈ l)) as [Hl | Hl]; [now apply IH |].
  apply elem_of_cons in Hi as [-> | Hi]; [| contradiction].
  rewrite replay_buf_stores_other by exact Hl.
  cbn. repeat rewrite fn_lookup_insert. reflexivity.
Qed.

Lemma init_substeps_ok_spec shm_size posix ns app bufn bs mok :
  let total := __nsaas_channel_dataplane_calculate_size P ns app bufn bs posix in
  let code c e := (jring_init jring_zero c e false false).1 in
  let fr := free_ring_of bufn in
  let res := jring_enqueue_bulk fr (wrap32 <$> seqZ 0 (capacity fr)) (capacity fr) in
  init_substeps_ok P shm_size posix ns app bufn bs mok = true <->
  ((total >? shm_size) || (total =? SIZE_MAX) = false
   /\ code NSAAS_CHANNEL_CTRL_SQ_SLOT_NR (sizeof_NSaaSCtrlQueueEntry_t P) = 0
   /\ code NSAAS_CHANNEL_CTRL_CQ_SLOT_NR (sizeof_NSaaSCtrlQueueEntry_t P) = 0
   /\ code ns sizeof_NSaaSRingSlot_t = 0
   /\ code app sizeof_NSaaSRingSlot_t = 0
   /\ code bufn sizeof_NSaaSRingSlot_t = 0
   /\ mok = true
   /\ negb (wrap64 (to_int res.1.1) =? capacity fr)
      || negb (wrap32 res.1.2 =? 0) = false).
Proof.
  intros total code fr res. unfold init_substeps_ok.
  fold total. fold (free_ring_of bufn). fold fr. fold res.
  rewrite !andb_true_iff, orb_false_iff, orb_false_iff, !negb_false_iff,
    !negb_true_iff, !Z.eqb_eq, Z.leb_le, Z.gtb_ltb, Z.ltb_ge, Z.eqb_neq.
  unfold code. tauto.
Qed.

Lemma wp_for_each_init_buf bs l s Q :
  Q (Next tt) (replay s.1 (l ≫= buf_stores P bs), s.2 ++ (l ≫= buf_stores P bs)) ->
  wp (for_each l (init_buf P bs)) s Q.
Proof. unfold wp. now rewrite for_each_init_buf. Qed.

Ltac wp_step :=
  lazymatch goal with
  | |- wp (mbind _ _) _ _ => apply wp_bind
  | |- wp (do_store _) _ _ => apply wp_store
  | |- wp (load _) _ _ => apply wp_load
  | |- wp (get_ring _) _ _ => apply wp_get_ring
  | |- wp (mret _) _ _ => apply wp_ret
  end;
  cbn [apply_store hdr rings bufs ctx_name stats_zeroed set_buf fst snd];
  rewrite ?fn_lookup_insert.

Ltac wp_fail H :=
  split; [try lia; try congruence | apply not_true_iff_false; intros H;
    apply init_substeps_ok_spec in H; cbv zeta in H].

(* one ring: initialise it, leave with its code when that is not 0 *)
Ltac wp_ring H :=
  apply wp_do_jring_init;
  [ let C := fresh "C" in let q := fresh "q" in let D := fresh "D" in
    intros C q; subst q;
    apply wp_bind, wp_return_if; intros D; [discriminate | clear D]
  | let code := fresh "code" in let Hc := fresh "Hc" in
    let E := fresh "E" in let D := fresh "D" in
    intros code Hc E;
    apply wp_bind, wp_return_if; intros D;
    [ wp_fail H
    | destruct (Z.eqb_spec code 0); [contradiction | discriminate] ] ].

Lemma init_outcome shm_size posix name ns app bufn bs mt mok s :
  wp (__nsaas_channel_dataplane_init P shm_size posix name ns app bufn bs mt mok) s
     (init_post P shm_size posix ns app bufn bs mok).
Proof.
  unfold __nsaas_channel_dataplane_init.
  apply wp_bind, wp_return_if; intros C0.
  { wp_fail H. destruct H as (H & _). congruence. }
  repeat wp_step.
  wp_ring H; [| destruct H as (_ & H & _); congruence].
  repeat wp_step.
  wp_ring H; [| destruct H as (_ & _ & H & _); congruence].
  repeat wp_step.
  wp_ring H; [| destruct H as (_ & _ & _ & H & _); congruence].
  repeat wp_step.
  wp_ring H; [| destruct H as (_ & _ & _ & _ & H & _); congruence].
  repeat wp_step.
  wp_ring H; [| destruct H as (_ & _ & _ & _ & _ & H & _); congruence].
  repeat wp_step.
  apply wp_for_each_init_buf. cbn [fst snd].
  apply wp_bind, wp_return_if; intros Cm.
  { wp_fail H. destruct H as (_ & _ & _ & _ & _ & _ & H & _).
    rewrite H in Cm. discriminate. }
  repeat wp_step.
  unfold init_publish.
  apply wp_bind, wp_return_if; intros Ce.
  { wp_fail H. destruct H as (_ & _ & _ & _ & _ & _ & _ & H).
    exact (eq_true_false_abs _ Ce H). }
  repeat wp_step.
  cbn [init_post fst].
  split; [reflexivity |]. split.
  { apply init_substeps_ok_spec. cbv zeta. unfold free_ring_of.
    apply negb_false_iff in Cm. repeat split; assumption. }
  unfold initialised, free_ring_of.
  cbn [hdr rings bufs].
  lazymatch goal with
  | |- context [replay ?r (mbind _ ?l)] =>
      destruct (replay_buf_stores_frame bs l r) as (Eh & Er & _)
  end.
  cbn [hdr] in Eh. rewrite Eh.
  repeat split;
    try (repeat (rewrite fn_lookup_insert
                 || rewrite fn_lookup_insert_ne by discriminate);
         reflexivity).
  intros i Hi. apply replay_buf_stores_at. apply elem_of_seqZ. lia.
Qed.
End InitFacts.

(** ** The trace and the result of the initialisation *)

Section InitTrace.
Variable P : Platform.

Lemma writes_do_jring_init id count esize prod cons :
  writes_no_magic (do_jring_init id count esize prod cons).
Proof.
  unfold do_jring_init. apply writes_bind; [apply writes_get_ring |].
  intros r. apply writes_bind; [| intros; apply writes_ret].
  destruct (_ =? _); [now apply writes_store | apply writes_ret].
Qed.

Lemma writes_init_buf bs i : writes_no_magic (init_buf P bs i).
Proof.
  unfold init_buf.
  repeat (apply writes_bind; [now apply writes_store | intros _]).
  now apply writes_store.
Qed.

Lemma publishes_init_publish enqueued free_space cap :
  publishes_last (NSAAS_CHANNEL_CTX_MAGIC P)
    (init_publish P enqueued free_space cap).
Proof.
  intros [r log]. unfold init_publish, return_if.
  destruct (_ || _).
  - exists []. cbn. now rewrite app_nil_r.
  - exists [Sync; StCtx ctx_magic (NSAAS_CHANNEL_CTX_MAGIC P); Sync].
    unfold mbind, M_bind, mret, M_ret, do_store. cbn.
    repeat rewrite <- app_assoc. split; [reflexivity |].
    now exists [].
Qed.

Ltac trace_step :=
  lazymatch goal with
  | |- publishes_last _ (init_publish _ _ _ _) =>
      apply publishes_init_publish
  | |- publishes_last _ (mbind _ _) => apply publishes_bind
  | |- writes_no_magic (do_jring_init _ _ _ _ _) =>
      apply writes_do_jring_init
  | |- writes_no_magic (for_each _ _) =>
      apply writes_for_each; intros; apply writes_init_buf
  | |- writes_no_magic (mbind _ _) => apply writes_bind
  | |- writes_no_magic (return_if _ _) => apply writes_return_if
  | |- writes_no_magic (load _) => apply writes_load
  | |- writes_no_magic (get_ring _) => apply writes_get_ring
  | |- writes_no_magic (do_store _) => apply writes_store; reflexivity
  | |- forall _, _ => intros ?
  end.

Lemma init_publishes_last shm_size posix name ns app bufn bs mt mok :
  publishes_last (NSAAS_CHANNEL_CTX_MAGIC P)
    (__nsaas_channel_dataplane_init P shm_size posix name ns app bufn bs
       mt mok).
Proof.
  unfold __nsaas_channel_dataplane_init. cbv zeta. repeat trace_step.
Qed.

(** The initialisation returns 0 exactly when every sub-step succeeds,
    and then leaves the region initialised. *)
Lemma init_result shm_size posix name ns app bufn bs mt mok s :
  let res :=
    run (__nsaas_channel_dataplane_init P shm_size posix name ns app bufn
           bs mt mok) s in
  (res.1 = 0
   /\ init_substeps_ok P shm_size posix ns app bufn bs mok = true
   /\ initialised P bufn bs res.2.1)
  \/ (res.1 <> 0
      /\ init_substeps_ok P shm_size posix ns app bufn bs mok = false).
Proof.
  pose proof (init_outcome P shm_size posix name ns app bufn bs mt mok s)
    as H.
  unfold wp in H. unfold run. cbv zeta.
  destruct (__nsaas_channel_dataplane_init _ _ _ _ _ _ _ _ _ _ s)
    as [[v | c] s']; cbn [fst snd init_post] in *.
  - left. tauto.
  - right. tauto.
Qed.

Lemma init_trace shm_size posix name ns app bufn bs mt mok s :
  let res :=
    run (__nsaas_channel_dataplane_init P shm_size posix name ns app bufn
           bs mt mok) s in
  exists new,
    res.2 = (replay s.1 new, s.2 ++ new)
    /\ (res.1 = 0 ->
        exists pre,
          new = pre ++ [Sync; StCtx ctx_magic (NSAAS_CHANNEL_CTX_MAGIC P); Sync]
          /\ no_magic pre = true)
    /\ (res.1 <> 0 -> no_magic new = true).
Proof.
  pose proof (init_outcome P shm_size posix name ns app bufn bs mt mok s)
    as H.
  destruct (init_publishes_last shm_size posix name ns app bufn bs mt mok s)
    as (new & E & T).
  unfold wp in H. unfold run. cbv zeta.
  destruct (__nsaas_channel_dataplane_init _ _ _ _ _ _ _ _ _ _ s)
    as [[v | c] s']; cbn [fst snd init_post] in *; exists new.
  - split; [exact E |]. split; [auto |]. intros Hv. tauto.
  - split; [exact E |]. split; [| auto]. intros Hc. tauto.
Qed.

(** A prefix of the writes that stops before the magic leaves the magic
    of the region as it was. *)
Lemma replay_prefix_magic r pre v k :
  no_magic pre = true -> (k <= S (length pre))%nat ->
  hdr (replay r (take k (pre ++ [Sync; StCtx ctx_magic v; Sync]))) ctx_magic
  = hdr r ctx_magic.
Proof.
  intros Np Hk. apply replay_no_magic.
  change (no_magic (take k (pre ++ [Sync; StCtx ctx_magic v; Sync])) = true).
  replace (pre ++ [Sync; StCtx ctx_magic v; Sync])
    with ((pre ++ [Sync]) ++ [StCtx ctx_magic v; Sync])
    by now rewrite <- app_assoc.
  rewrite take_app_le by (rewrite length_app; simpl; lia).
  assert (Hall : no_magic (pre ++ [Sync]) = true)
    by now rewrite no_magic_app, Np.
  rewrite <- (take_drop k (pre ++ [Sync])) in Hall.
  rewrite no_magic_app in Hall. now apply andb_prop in Hall.
Qed.
End InitTrace.

(** ** The layout after a successful initialisation *)

Section LayoutFacts.
Variable P : Platform.

Ltac lay_step :=
  lazymatch goal with
  | |- wp (mbind _ _) _ _ => apply wp_bind
  | |- wp (do_store _) _ _ => apply wp_store
  | |- wp (load _) _ _ => apply wp_load
  | |- wp (get_ring _) _ _ => apply wp_get_ring
  | |- wp (mret _) _ _ => apply wp_ret
  end;
  cbn [apply_store hdr rings bufs ctx_name stats_zeroed set_buf fst snd];
  rewrite ?fn_lookup_insert.

(* one ring: initialise it, leave with its code when that is not 0 *)
Ltac lay_ring :=
  apply wp_do_jring_init;
  [ let C := fresh "C" in let q := fresh "q" in let D := fresh "D" in
    intros C q; subst q;
    apply wp_bind, wp_return_if; intros D; [discriminate | clear D]
  | let code := fresh "code" in let Hc := fresh "Hc" in
    let E := fresh "E" in let D := fresh "D" in
    intros code Hc E;
    apply wp_bind, wp_return_if; intros D;
    [ exact I
    | destruct (Z.eqb_spec code 0); [contradiction | discriminate] ] ].

Ltac lookups :=
  repeat (rewrite fn_lookup_insert
          || rewrite fn_lookup_insert_ne by discriminate).

Lemma init_layout_outcome shm_size posix name ns app bufn bs mt mok s :
  wp (__nsaas_channel_dataplane_init P shm_size posix name ns app bufn bs mt
        mok) s
     (init_layout_post P s.1 shm_size posix name ns app bufn bs mt).
Proof.
  unfold __nsaas_channel_dataplane_init.
  apply wp_bind, wp_return_if; intros C0; [exact I |].
  repeat lay_step. lay_ring.
  repeat lay_step. lay_ring.
  repeat lay_step. lay_ring.
  repeat lay_step. lay_ring.
  repeat lay_step. lay_ring.
  repeat lay_step.
  apply wp_for_each_init_buf. cbn [fst snd].
  apply wp_bind, wp_return_if; intros Cm; [exact I |].
  repeat lay_step.
  unfold init_publish.
  apply wp_bind, wp_return_if; intros Ce; [exact I |].
  repeat lay_step.
  cbn [init_layout_post fst]. unfold init_layout, ring_bytes, ring_of.
  cbn [hdr rings bufs ctx_name stats_zeroed].
  lazymatch goal with
  | |- context [replay ?r (mbind _ ?l)] =>
      destruct (replay_buf_stores_frame P bs l r) as (Eh & Er & En & Es)
  end.
  cbn [hdr rings ctx_name stats_zeroed] in Eh, Er, En, Es.
  rewrite Eh, Er, En, Es.
  apply orb_false_iff in C0 as [Cgt Cmax].
  rewrite Z.gtb_ltb in Cgt. apply Z.ltb_ge in Cgt.
  split; [| split; [| split]].
  - repeat split; lookups; try reflexivity. exact Cgt.
  - repeat split; lookups; reflexivity.
  - repeat split; lookups; reflexivity.
  - intros i Hi. rewrite replay_buf_stores_other; [reflexivity |].
    intros Hin. apply elem_of_seqZ in Hin. apply Hi.
    unfold free_ring_of. lia.
Qed.
End LayoutFacts.

Lemma init_layout_result P shm_size posix name ns app bufn bs mt mok s :
  let res :=
    run (__nsaas_channel_dataplane_init P shm_size posix name ns app bufn bs
           mt mok) s in
  res.1 = 0 ->
  init_layout P s.1 shm_size posix name ns app bufn bs mt res.2.1
  /\ init_substeps_ok P shm_size posix ns app bufn bs mok = true.
Proof.
  pose proof (init_outcome P shm_size posix name ns app bufn bs mt mok s)
    as H.
  pose proof (init_layout_outcome P shm_size posix name ns app bufn bs mt mok
                s) as L.
  unfold wp in H, L. unfold run. cbv zeta.
  destruct (__nsaas_channel_dataplane_init _ _ _ _ _ _ _ _ _ _ s)
    as [[v | c] s']; cbn [fst snd init_post init_layout_post] in *.
  - intros _. split; [exact L | tauto].
  - intros ->. destruct H as [H _]. contradiction.
Qed.

(** ** The size calculation *)

Lemma example_platform_ok : PlatformOk example_platform.
Proof.
  constructor; cbn; try lia.
  exists 12. split; [lia | reflexivity].
Qed.

Section SizeFacts.
Variable P : Platform.
Hypothesis HP : PlatformOk P.

Lemma kPageSize_pow2 posix :
  exists k, 1 <= k <= 30 /\ kPageSize_of P posix = 2 ^ k.
Proof.
  destruct posix; cbn.
  - apply (pagesize_pow2 P HP).
  - exists 21. split; [lia | reflexivity].
Qed.

Lemma wrap64_mul4_power k :
  0 <= k -> 0 <= wrap64 (2 ^ k * 4) <= 2 ^ 63.
Proof.
  intros Hk. unfold wrap64.
  replace (2 ^ k * 4) with (2 ^ (k + 2))
    by (rewrite Z.pow_add_r by lia; reflexivity).
  destruct (Z_lt_le_dec (k + 2) 64) as [Hlt | Hge].
  - assert (2 ^ (k + 2) <= 2 ^ 63) by (apply Z.pow_le_mono_r; lia).
    assert (0 < 2 ^ (k + 2)) by (apply Z.pow_pos_nonneg; lia).
    rewrite Z.mod_small; lia.
  - replace (k + 2) with (64 + (k + 2 - 64)) by lia.
    rewrite Z.pow_add_r by lia.
    rewrite Z.mul_comm, Z.mod_mul by lia. lia.
Qed.

Lemma jring_get_buf_ring_size_ok n :
  power_of_two n -> 0 <= n < 2 ^ 64 ->
  0 <= jring_get_buf_ring_size P sizeof_NSaaSRingSlot_t n < SIZE_MAX.
Proof.
  intros (k & Hk & ->) Hn. unfold jring_get_buf_ring_size.
  assert (0 < 2 ^ k) by (apply Z.pow_pos_nonneg; lia).
  rewrite IS_POW2_power by exact Hk.
  destruct (Z.eqb_spec (2 ^ k) 0); [lia |]. cbn [orb negb].
  change (sizeof_NSaaSRingSlot_t =? 0) with false. cbn [orb].
  pose proof (wrap64_mul4_power k Hk) as Hw.
  pose proof (sizeof_jring_range P HP).
  change sizeof_NSaaSRingSlot_t with 4.
  rewrite (wrap64_small (_ + _)); unfold SIZE_MAX; lia.
Qed.

(** The calculation succeeds only on three powers of two and a buffer
    size within a page. *)
Lemma calculate_size_ok_inv ns app bufn bs posix :
  0 <= ns < 2 ^ 64 -> 0 <= app < 2 ^ 64 -> 0 <= bufn < 2 ^ 64 ->
  __nsaas_channel_dataplane_calculate_size P ns app bufn bs posix
    <> SIZE_MAX ->
  power_of_two ns /\ power_of_two app /\ power_of_two bufn
  /\ bs <= kPageSize_of P posix.
Proof.
  intros Hns Happ Hbuf. unfold __nsaas_channel_dataplane_calculate_size.
  destruct (_ || _); [congruence |].
  destruct (Z.gtb_spec bs (kPageSize_of P posix)) as [| Hbs]; [congruence |].
  cbn [add_ring_sizes]. intros H.
  assert (Hdec : forall n, 0 <= n < 2 ^ 64 ->
            (jring_get_buf_ring_size P sizeof_NSaaSRingSlot_t n =? SIZE_MAX)
            = false -> power_of_two n).
  { intros n Hn E. apply Z.eqb_neq in E.
    destruct (IS_POW2 n) eqn:Ep.
    - destruct (IS_POW2_sound n Hn Ep) as [-> | Hp]; [| exact Hp].
      exfalso. apply E. reflexivity.
    - exfalso. apply E. unfold jring_get_buf_ring_size.
      rewrite Ep. now rewrite orb_true_r. }
  destruct (_ =? SIZE_MAX) eqn:E1 in H; [congruence |].
  destruct (_ =? SIZE_MAX) eqn:E2 in H; [congruence |].
  destruct (_ =? SIZE_MAX) eqn:E3 in H; [congruence |].
  repeat split; auto.
Qed.

Lemma calculate_size_ok ns app bufn bs posix :
  0 <= ns < 2 ^ 64 -> 0 <= app < 2 ^ 64 -> 0 <= bufn < 2 ^ 64 ->
  power_of_two ns -> power_of_two app -> power_of_two bufn ->
  bs <= kPageSize_of P posix ->
  0 <= __nsaas_channel_dataplane_calculate_size P ns app bufn bs posix
    < SIZE_MAX.
Proof.
  intros Hns Happ Hbuf Pns Papp Pbuf Hbs.
  unfold __nsaas_channel_dataplane_calculate_size.
  destruct Pns as (k1 & Hk1 & E1). destruct Papp as (k2 & Hk2 & E2).
  destruct Pbuf as (k3 & Hk3 & E3).
  assert (I1 : IS_POW2 ns = true) by (rewrite E1; now apply IS_POW2_power).
  assert (I2 : IS_POW2 app = true) by (rewrite E2; now apply IS_POW2_power).
  assert (I3 : IS_POW2 bufn = true) by (rewrite E3; now apply IS_POW2_power).
  rewrite I1, I2, I3. cbn [negb orb].
  destruct (Z.gtb_spec bs (kPageSize_of P posix)); [lia |].
  cbn [add_ring_sizes].
  pose proof (jring_get_buf_ring_size_ok ns (ex_intro _ k1 (conj Hk1 E1)) Hns).
  pose proof (jring_get_buf_ring_size_ok app (ex_intro _ k2 (conj Hk2 E2)) Happ).
  pose proof (jring_get_buf_ring_size_ok bufn (ex_intro _ k3 (conj Hk3 E3)) Hbuf).
  destruct (Z.eqb_spec
              (jring_get_buf_ring_size P sizeof_NSaaSRingSlot_t ns) SIZE_MAX);
    [lia |].
  destruct (Z.eqb_spec
              (jring_get_buf_ring_size P sizeof_NSaaSRingSlot_t app) SIZE_MAX);
    [lia |].
  destruct (Z.eqb_spec
              (jring_get_buf_ring_size P sizeof_NSaaSRingSlot_t bufn) SIZE_MAX);
    [lia |].
  destruct (kPageSize_pow2 posix) as (k & Hk & Ek). cbv zeta.
  match goal with
  | |- _ /\ ALIGN_TO_PAGE_SIZE ?x ?p < _ =>
      destruct (ALIGN_TO_PAGE_SIZE_even x p k ltac:(lia) Ek) as (q & Eq);
      pose proof (ALIGN_TO_PAGE_SIZE_range x p) as Hr
  end.
  assert (0 < 2 ^ k) by (apply Z.pow_pos_nonneg; lia).
  unfold SIZE_MAX. change (2 ^ 64) with 18446744073709551616 in *. lia.
Qed.
End SizeFacts.

(** C4.  For all [size_t] arguments the size calculation returns
    [(size_t)-1] when one of the three slot counts is not a power of two
    (zero included) or the buffer size exceeds the page size of the backing,
    and a size other than [(size_t)-1] otherwise. *)
Theorem calculate_size_rejects_bad_parameters
    (P : Platform) (ns app bufn bs : Z) (posix : bool) :
  PlatformOk P ->
  0 <= ns < 2 ^ 64 -> 0 <= app < 2 ^ 64 -> 0 <= bufn < 2 ^ 64 ->
  0 <= bs < 2 ^ 64 ->
  let size := __nsaas_channel_dataplane_calculate_size P ns app bufn bs posix in
  (~ power_of_two ns \/ ~ power_of_two app \/ ~ power_of_two bufn
   \/ bs > kPageSize_of P posix \/ ns = 0 \/ app = 0 \/ bufn = 0 ->
   size = SIZE_MAX)
  /\ (power_of_two ns /\ power_of_two app /\ power_of_two bufn
      /\ bs <= kPageSize_of P posix ->
      0 <= size < SIZE_MAX).
Proof.
  intros HP Hns Happ Hbuf Hbs size. split.
  - intros Hbad.
    destruct (Z.eq_dec size SIZE_MAX) as [E | E]; [exact E | exfalso].
    destruct (calculate_size_ok_inv P ns app bufn bs posix Hns Happ Hbuf E)
      as (P1 & P2 & P3 & Hle).
    assert (Hz : forall n, power_of_two n -> n <> 0).
    { intros n (k & Hk & ->). assert (0 < 2 ^ k) by (apply Z.pow_pos_nonneg; lia).
      lia. }
    destruct Hbad as [H | [H | [H | [H | [H | [H | H]]]]]];
      try tauto; try lia; [now apply (Hz ns) | now apply (Hz app)
                           | now apply (Hz bufn)].
  - intros (P1 & P2 & P3 & Hle).
    now apply calculate_size_ok.
Qed.

Lemma not_power_of_two_3 : ~ power_of_two 3.
Proof.
  intros (k & Hk & E).
  destruct (Z_lt_le_dec k 2) as [Hlt | Hge].
  - assert (k = 0 \/ k = 1) as [-> | ->] by lia; discriminate.
  - assert (2 ^ 2 <= 2 ^ k) by (apply Z.pow_le_mono_r; lia). lia.
Qed.

Lemma calculate_size_rejects_bad_parameters_witness :
  __nsaas_channel_dataplane_calculate_size example_platform 3 256 4096 1024
    true = SIZE_MAX
  /\ 0 <= __nsaas_channel_dataplane_calculate_size example_platform 256 256
            4096 1024 true < SIZE_MAX.
Proof.
  split.
  - apply (calculate_size_rejects_bad_parameters example_platform 3 256 4096
             1024 true example_platform_ok); try lia.
    left. exact not_power_of_two_3.
  - apply (calculate_size_rejects_bad_parameters example_platform 256 256 4096
             1024 true example_platform_ok); try lia.
    repeat split; [exists 8 | exists 8 | exists 12 | cbn; lia];
      (split; [lia | reflexivity]).
Defined.

(** ** Creation *)

Section CreateFacts.
Variable P : Platform.

(** At the label [out:] the mapping is either initialised and returned,
    or destroyed. *)
Lemma create_out_cases os channel name ns app bufn bs size posix fd calls :
  let c := create_out P os channel name ns app bufn bs size posix fd calls in
  let ok := init_substeps_ok P size posix ns app bufn bs (os_malloc_ok os) in
  (ok = true
   /\ exists r, cr_channel c = Some r /\ initialised P bufn bs r
        /\ cr_mem_size c = size /\ cr_is_posix_shm c = posix
        /\ cr_shm_fd c = fd /\ cr_syscalls c = calls)
  \/ (ok = false
      /\ c = {| cr_channel := None; cr_mem_size := 0;
                cr_is_posix_shm := posix;
                cr_shm_fd :=
                  (__nsaas_channel_destroy size fd posix name).1;
                cr_syscalls :=
                  calls ++ (__nsaas_channel_destroy size fd posix name).2 |}).
Proof.
  intros c ok. subst c. unfold create_out.
  destruct (init_result P size posix name ns app bufn bs false
              (os_malloc_ok os) (channel, []))
    as [(E & Hok & Hinit) | (E & Hok)]; cbv zeta in *.
  - left. split; [exact Hok |]. rewrite E. cbn [Z.eqb negb].
    eexists. cbn [cr_channel cr_mem_size cr_is_posix_shm cr_shm_fd
                  cr_syscalls].
    split; [reflexivity |]. split; [exact Hinit | auto].
  - right. split; [exact Hok |].
    destruct (Z.eqb_spec
      (run (__nsaas_channel_dataplane_init P size posix name ns app bufn bs
              false (os_malloc_ok os)) (channel, [])).1 0);
      [contradiction | reflexivity].
Qed.

Lemma hugetlbfs_create_some os name size fd ch :
  (__nsaas_channel_hugetlbfs_create os name size fd).1.1 = Some ch ->
  ch = Region_zero.
Proof.
  unfold __nsaas_channel_hugetlbfs_create.
  repeat (destruct (_ : bool); cbn; try discriminate). congruence.
Qed.

Lemma posix_create_some os name size fd ch :
  (__nsaas_channel_posix_create os name size fd).1.1 = Some ch ->
  ch = Region_zero.
Proof.
  unfold __nsaas_channel_posix_create.
  repeat (destruct (_ : bool); cbn; try discriminate). congruence.
Qed.

(** A channel that [__nsaas_channel_create] returns is initialised. *)
Lemma create_some os name ns app bufn bs fd r :
  cr_channel (__nsaas_channel_create P os name ns app bufn bs fd) = Some r ->
  initialised P bufn bs r
  /\ exists size posix,
       init_substeps_ok P size posix ns app bufn bs (os_malloc_ok os) = true.
Proof.
  unfold __nsaas_channel_create. cbv zeta.
  destruct ((__nsaas_channel_hugetlbfs_create _ _ _ _).1.1) as [ch |].
  - match goal with
    | |- cr_channel (create_out _ ?os ?ch ?n ?a ?b ?c ?d ?sz ?px ?f ?cl) = _ -> _ =>
        destruct (create_out_cases os ch n a b c d sz px f cl)
          as [(Hok & r' & E & Hi & _) | (Hok & E)]; rewrite E
    end.
    + intros [= <-]. split; [exact Hi | eauto].
    + discriminate.
  - destruct ((__nsaas_channel_posix_create _ _ _ _).1.1) as [ch |];
      [| discriminate].
    match goal with
    | |- cr_channel (create_out _ ?os ?ch ?n ?a ?b ?c ?d ?sz ?px ?f ?cl) = _ -> _ =>
        destruct (create_out_cases os ch n a b c d sz px f cl)
          as [(Hok & r' & E & Hi & _) | (Hok & E)]; rewrite E
    end.
    + intros [= <-]. split; [exact Hi | eauto].
    + discriminate.
Qed.
Lemma create_out_some os channel name ns app bufn bs size posix fd calls r :
  cr_channel (create_out P os channel name ns app bufn bs size posix fd calls)
  = Some r ->
  let res :=
    run (__nsaas_channel_dataplane_init P size posix name ns app bufn bs
           false (os_malloc_ok os)) (channel, []) in
  let c := create_out P os channel name ns app bufn bs size posix fd calls in
  res.1 = 0 /\ r = res.2.1 /\ cr_mem_size c = size
  /\ cr_is_posix_shm c = posix /\ cr_shm_fd c = fd.
Proof.
  unfold create_out. cbv zeta.
  destruct (Z.eqb_spec
    (run (__nsaas_channel_dataplane_init P size posix name ns app bufn bs
            false (os_malloc_ok os)) (channel, [])).1 0) as [E | E];
    cbn [negb cr_channel cr_mem_size cr_is_posix_shm cr_shm_fd];
    [| discriminate].
  intros [= <-]. auto.
Qed.

(** A channel that [__nsaas_channel_create] returns holds what the
    initialisation of a fresh mapping of the recorded size leaves. *)
Lemma create_some_layout os name ns app bufn bs fd r :
  let c := __nsaas_channel_create P os name ns app bufn bs fd in
  cr_channel c = Some r ->
  init_layout P Region_zero (cr_mem_size c) (cr_is_posix_shm c) name ns app
    bufn bs false r.
Proof.
  unfold __nsaas_channel_create. cbv zeta.
  destruct ((__nsaas_channel_hugetlbfs_create _ _ _ _).1.1) as [ch |] eqn:Hh.
  - apply hugetlbfs_create_some in Hh. subst ch. intros Hc.
    destruct (create_out_some _ _ _ _ _ _ _ _ _ _ _ _ Hc)
      as (H0 & -> & -> & -> & _).
    apply (init_layout_result P _ _ _ _ _ _ _ _ _ (Region_zero, []) H0).
  - destruct ((__nsaas_channel_posix_create _ _ _ _).1.1) as [ch |] eqn:Hp;
      [| discriminate].
    apply posix_create_some in Hp. subst ch. intros Hc.
    destruct (create_out_some _ _ _ _ _ _ _ _ _ _ _ _ Hc)
      as (H0 & -> & -> & -> & _).
    apply (init_layout_result P _ _ _ _ _ _ _ _ _ (Region_zero, []) H0).
Qed.
End CreateFacts.

(** The closing barrier changes nothing in the region. *)
Lemma replay_but_closing_barrier r pre e k :
  (length (pre ++ [Sync; e; Sync]) <= S k)%nat ->
  replay r (take k (pre ++ [Sync; e; Sync]))
  = replay r (pre ++ [Sync; e; Sync]).
Proof.
  intros Hlen.
  destruct (Nat.le_gt_cases (length (pre ++ [Sync; e; Sync])) k)
    as [Hge | Hlt]; [now rewrite take_ge |].
  assert (Ek : k = length (pre ++ [Sync; e]))
    by (rewrite !length_app in *; simpl in *; lia).
  replace (pre ++ [Sync; e; Sync]) with ((pre ++ [Sync; e]) ++ [Sync])
    by now rewrite <- app_assoc.
  rewrite Ek, take_app_length.
  rewrite (replay_app r (pre ++ [Sync; e]) [Sync]). reflexivity.
Qed.

(** C1.  For every run of the initialisation, from any region and with any
    outcome of its [malloc]: the region it leaves is the one it started from
    with its writes applied in order; it returns 0 exactly when every
    sub-step succeeds, and the region is then complete: the context and the
    offsets are set, the four rings for control and for messages are
    initialised, the header of every buffer below the capacity is written
    and the free ring holds every index.  When the sub-steps succeed, the
    last write is the magic, between two barriers, and no earlier write
    touches the magic; when one fails, no write touches the magic.  So, on
    a region whose magic was not yet set, the magic is set in the end
    exactly when every sub-step succeeded, which is exactly when the region
    is complete, and a peer that sees the magic after some prefix of the
    writes sees a run that succeeded with every write made but (at most)
    the closing barrier: the region it sees is the final one, complete.
    When the initialisation of a mapping fails inside
    [__nsaas_channel_create], the creator returns [NULL] after [munmap],
    [close] and, for POSIX shared memory, [shm_unlink]; a channel that it
    returns carries the magic and is complete. *)
Theorem magic_set_iff_initialised (P : Platform) :
  (forall shm_size posix name ns app bufn bs mt mok r0 log0,
     let res :=
       run (__nsaas_channel_dataplane_init P shm_size posix name ns app bufn
              bs mt mok) (r0, log0) in
     let ok := init_substeps_ok P shm_size posix ns app bufn bs mok in
     let magic := NSAAS_CHANNEL_CTX_MAGIC P in
     let complete (r : Region) :=
       initialised P bufn bs r
       /\ init_layout P r0 shm_size posix name ns app bufn bs mt r in
     exists new,
       res.2 = (replay r0 new, log0 ++ new)
       /\ (res.1 = 0 <-> ok = true)
       /\ (ok = true -> complete res.2.1)
       /\ (ok = true ->
           exists pre, new = pre ++ [Sync; StCtx ctx_magic magic; Sync]
                       /\ no_magic pre = true)
       /\ (ok = false -> no_magic new = true)
       /\ (hdr r0 ctx_magic <> magic ->
           (hdr res.2.1 ctx_magic = magic <-> ok = true)
           /\ (hdr res.2.1 ctx_magic = magic <-> complete res.2.1)
           /\ forall k, hdr (replay r0 (take k new)) ctx_magic = magic ->
                ok = true /\ (length new <= S k)%nat
                /\ replay r0 (take k new) = res.2.1
                /\ complete (replay r0 (take k new))))
  /\ (forall os name ns app bufn bs fd,
        let huge_size :=
          __nsaas_channel_dataplane_calculate_size P ns app bufn bs false in
        let posix_size :=
          __nsaas_channel_dataplane_calculate_size P ns app bufn bs true in
        let h := __nsaas_channel_hugetlbfs_create os name huge_size fd in
        let p := __nsaas_channel_posix_create os name posix_size h.1.2 in
        let c := __nsaas_channel_create P os name ns app bufn bs fd in
        (is_Some h.1.1 ->
         init_substeps_ok P huge_size false ns app bufn bs (os_malloc_ok os)
           = false ->
         cr_channel c = None
         /\ cr_syscalls c
            = h.2 ++ [sys_munmap huge_size]
                ++ (if 0 <=? h.1.2 then [sys_close h.1.2] else []))
        /\ (h.1.1 = None -> is_Some p.1.1 ->
            init_substeps_ok P posix_size true ns app bufn bs (os_malloc_ok os)
              = false ->
            cr_channel c = None
            /\ cr_syscalls c
               = (h.2 ++ p.2) ++ [sys_munmap posix_size]
                   ++ (if 0 <=? p.1.2 then [sys_close p.1.2] else [])
                   ++ [sys_shm_unlink name])
        /\ (forall r, cr_channel c = Some r ->
              hdr r ctx_magic = NSAAS_CHANNEL_CTX_MAGIC P
              /\ initialised P bufn bs r
              /\ init_layout P Region_zero (cr_mem_size c)
                   (cr_is_posix_shm c) name ns app bufn bs false r)).
Proof.
  split.
  - intros shm_size posix name ns app bufn bs mt mok r0 log0 res ok magic
      complete.
    destruct (init_trace P shm_size posix name ns app bufn bs mt mok (r0, log0))
      as (new & E & T0 & T1).
    destruct (init_result P shm_size posix name ns app bufn bs mt mok (r0, log0))
      as [(R & Hok & Hinit) | (R & Hok)];
      cbv zeta in *; fold res in E, T0, T1, R; fold ok in Hok;
      exists new; cbn [fst snd] in E.
    + destruct (init_layout_result P shm_size posix name ns app bufn bs mt mok
                  (r0, log0) R) as [Hlay _].
      cbn [fst] in Hlay. fold res in Hinit, Hlay.
      assert (Hcomplete : complete res.2.1) by (split; assumption).
      specialize (T0 R) as (pre & Enew & Np).
      split; [exact E |]. split; [tauto |]. split; [auto |].
      split; [eauto |]. split; [congruence |]. intros H0.
      split; [| split].
      * split; [auto |]. intros _. apply Hinit.
      * split; [auto |]. intros _. apply Hinit.
      * intros k Hk. split; [exact Hok |].
        assert (Hlen : (length new <= S k)%nat).
        { destruct (Nat.le_gt_cases (length new) (S k)) as [| Hlt];
            [assumption |].
          exfalso. apply H0. rewrite <- Hk. subst new. symmetry.
          apply replay_prefix_magic; [exact Np |].
          rewrite length_app in Hlt. simpl in Hlt. lia. }
        split; [exact Hlen |].
        assert (Esame : replay r0 (take k new) = res.2.1).
        { rewrite E. cbn [fst]. subst new.
          apply replay_but_closing_barrier. exact Hlen. }
        split; [exact Esame |]. rewrite Esame. exact Hcomplete.
    + specialize (T1 R).
      split; [exact E |]. split; [split; congruence |].
      split; [congruence |]. split; [congruence |]. split; [auto |].
      intros H0.
      assert (Hpre : forall k, hdr (replay r0 (take k new)) ctx_magic
                               = hdr r0 ctx_magic).
      { intros k. apply replay_no_magic.
        change (no_magic (take k new) = true).
        rewrite <- (take_drop k new) in T1.
        rewrite no_magic_app in T1. now apply andb_prop in T1. }
      assert (Hend : hdr res.2.1 ctx_magic = hdr r0 ctx_magic).
      { rewrite E. cbn [fst]. now apply replay_no_magic. }
      split; [| split].
      * rewrite Hend. split; [contradiction | congruence].
      * split; [rewrite Hend; contradiction |].
        intros [Hi _]. exfalso. apply H0. rewrite <- Hend. apply Hi.
      * intros k Hk. rewrite Hpre in Hk. contradiction.
  - intros os name ns app bufn bs fd huge_size posix_size h p c.
    split; [| split].
    + intros [ch Hch] Hfail. subst c. unfold __nsaas_channel_create.
      cbv zeta. fold huge_size. fold h. rewrite Hch.
      destruct (create_out_cases P os ch name ns app bufn bs huge_size false
                  h.1.2 h.2) as [(Hok & _) | (_ & ->)]; [congruence |].
      cbn. now rewrite app_nil_r.
    + intros Hh [ch Hch] Hfail. subst c. unfold __nsaas_channel_create.
      cbv zeta. fold huge_size. fold h. rewrite Hh.
      fold posix_size. fold p. rewrite Hch.
      destruct (create_out_cases P os ch name ns app bufn bs posix_size true
                  p.1.2 (h.2 ++ p.2)) as [(Hok & _) | (_ & ->)]; [congruence |].
      cbn. auto.
    + intros r Hr. pose proof (create_some_layout P os name ns app bufn bs fd r
                                 Hr) as Hlay.
      apply create_some in Hr as (Hi & _).
      split; [apply Hi |]. split; [exact Hi | exact Hlay].
Qed.

(** ** What a successful initialisation leaves *)

Lemma to_int_cast_back c :
  0 <= c < 2 ^ 63 -> wrap64 (to_int c) = c -> c < 2 ^ 31.
Proof.
  unfold to_int, wrap32, wrap64. intros Hc.
  change (2 ^ 63) with 9223372036854775808 in Hc.
  change (2 ^ 64) with 18446744073709551616.
  change (2 ^ 32) with 4294967296. change (2 ^ 31) with 2147483648.
  destruct (Z.ltb_spec (c mod 4294967296) 2147483648) as [Hw | Hw];
    intros E; Z.div_mod_to_equations; lia.
Qed.

Lemma fmap_wrap32_seqZ n : n <= 2 ^ 32 -> wrap32 <$> seqZ 0 n = seqZ 0 n.
Proof.
  intros Hn. apply list_eq. intros i. rewrite list_lookup_fmap.
  destruct (seqZ 0 n !! i) as [x |] eqn:E; [| reflexivity].
  apply lookup_seqZ in E as [-> Hi]. cbn. f_equal.
  unfold wrap32. apply Z.mod_small. lia.
Qed.

Section InitSuccess.
Variable P : Platform.
Hypothesis HP : PlatformOk P.

Lemma calculate_size_ok_buffer ns app bufn bs posix :
  __nsaas_channel_dataplane_calculate_size P ns app bufn bs posix
    <> SIZE_MAX ->
  bs <= kPageSize_of P posix.
Proof.
  unfold __nsaas_channel_dataplane_calculate_size.
  destruct (_ || _); [congruence |].
  destruct (Z.gtb_spec bs (kPageSize_of P posix)); [congruence | lia].
Qed.

(** A slot count the ring accepts is a power of two. *)
Lemma jring_init_ok_power count esize :
  0 <= count < 2 ^ 64 ->
  (jring_init jring_zero count esize false false).1 = 0 ->
  1 <= count <= 2 ^ 63.
Proof.
  intros Hc. unfold jring_init.
  destruct (Z.eqb_spec esize 0); [discriminate |].
  destruct (Z.eqb_spec count 0); [discriminate |].
  destruct (IS_POW2 count) eqn:Ep; [| discriminate]. intros _.
  destruct (IS_POW2_sound count Hc Ep) as [| (k & Hk & ->)]; [contradiction |].
  assert (0 < 2 ^ k) by (apply Z.pow_pos_nonneg; lia).
  split; [lia |].
  destruct (Z_lt_le_dec k 64) as [Hlt | Hge].
  - apply Z.pow_le_mono_r; lia.
  - assert (2 ^ 64 <= 2 ^ k) by (apply Z.pow_le_mono_r; lia). lia.
Qed.

(** When every sub-step succeeds the free ring holds the indices
    [0 .. capacity - 1], the capacity being one less than the slot
    count. *)
Lemma init_ok_free_ring shm_size posix ns app bufn bs mok :
  0 <= bufn < 2 ^ 64 ->
  init_substeps_ok P shm_size posix ns app bufn bs mok = true ->
  let fr := free_ring_of bufn in
  capacity fr = bufn - 1
  /\ 0 <= bufn - 1 < 2 ^ 31
  /\ (jring_enqueue_bulk fr (wrap32 <$> seqZ 0 (capacity fr)) (capacity fr)).2
     = jring_with_entries fr (seqZ 0 (bufn - 1))
  /\ bs <= kPageSize_of P posix.
Proof.
  intros Hbuf Hok fr. apply init_substeps_ok_spec in Hok.
  cbv zeta in Hok.
  destruct Hok as (Hsz & _ & _ & _ & _ & Hc & _ & Hchk).
  pose proof (jring_init_ok_power bufn _ Hbuf Hc) as Hpow.
  rewrite <- (jring_init_code_indep jring_zero bufn _ true true) in Hc.
  destruct (jring_init_ok_capacity _ _ _ _ _ Hc) as [Hcap Hent].
  fold (free_ring_of bufn) in Hcap, Hent. fold fr in Hcap, Hent, Hchk.
  rewrite jring_enqueue_bulk_empty in Hchk |- * by (rewrite ?Hcap; lia || exact Hent).
  cbn [fst snd] in Hchk. rewrite Hcap in Hchk |- *.
  apply orb_false_iff in Hchk as [Hchk _].
  apply negb_false_iff, Z.eqb_eq in Hchk.
  assert (Hlt : bufn - 1 < 2 ^ 31) by (apply to_int_cast_back; [lia | exact Hchk]).
  split; [reflexivity |]. split; [lia |]. split.
  - cbn [snd]. f_equal. rewrite fmap_wrap32_seqZ by lia.
    apply take_ge. rewrite length_seqZ. lia.
  - apply calculate_size_ok_buffer with ns app bufn.
    apply orb_false_iff in Hsz as [_ Hsz]. now apply Z.eqb_neq in Hsz.
Qed.
End InitSuccess.

(** C3.  When the initialisation succeeds, every buffer below the capacity
    of the free ring has the magic of a message buffer, its own index and
    the size [buffer_size + NSAAS_MSGBUF_HEADROOM_MAX], and the free ring
    holds exactly the indices [0 .. capacity - 1].  The last check of the
    initialisation returns -1, writing nothing, when the enqueue took fewer
    indices than the capacity or left free space. *)
Theorem init_fills_buffers_and_free_ring
    (P : Platform) (shm_size : Z) (posix : bool) (name : string)
    (ns app bufn bs : Z) (mt mok : bool) (r0 : Region) (log0 : list store) :
  PlatformOk P -> 0 <= bufn < 2 ^ 64 -> 0 <= bs < 2 ^ 64 ->
  let res :=
    run (__nsaas_channel_dataplane_init P shm_size posix name ns app bufn bs
           mt mok) (r0, log0) in
  (res.1 = 0 ->
   let r := res.2.1 in
   let cap := capacity (rings r buf_ring) in
   (forall i, 0 <= i < cap ->
      mb_magic (bufs r i) = NSAAS_MSGBUF_MAGIC P
      /\ mb_index (bufs r i) = i
      /\ mb_size (bufs r i) = bs + NSAAS_MSGBUF_HEADROOM_MAX P)
   /\ jr_entries (rings r buf_ring) = seqZ 0 cap)
  /\ (forall enqueued free_space cap s,
        wrap64 enqueued <> cap \/ free_space <> 0 ->
        run (init_publish P enqueued free_space cap) s = (-1, s)).
Proof.
  intros HP Hbuf Hbs res. split.
  - intros Hres r cap.
    destruct (init_result P shm_size posix name ns app bufn bs mt mok (r0, log0))
      as [(_ & Hok & Hinit) | (Hne & _)]; [| contradiction].
    cbv zeta in Hinit. fold res in Hinit. fold r in Hinit.
    destruct Hinit as (Hring & _ & _ & _ & _ & Hbufs).
    destruct (init_ok_free_ring P shm_size posix ns app bufn bs mok Hbuf Hok)
      as (Hcap & Hrange & Henq & Hpage).
    rewrite Henq in Hring.
    assert (Ecap : cap = bufn - 1) by (unfold cap; rewrite Hring; exact Hcap).
    split.
    + intros i Hi. rewrite Hbufs by lia. cbn.
      split; [reflexivity |]. split.
      * unfold wrap32. apply Z.mod_small. lia.
      * destruct (kPageSize_pow2 P HP posix) as (k & Hk & Ek).
        assert (2 ^ k <= 2 ^ 30) by (apply Z.pow_le_mono_r; lia).
        pose proof (headroom_range P HP).
        rewrite wrap64_small by lia. unfold wrap32. apply Z.mod_small. lia.
    + rewrite Hring. cbn. now rewrite Ecap.
  - intros enqueued free_space cap s Hbad. unfold init_publish, run.
    assert (E : negb (wrap64 enqueued =? cap) || negb (free_space =? 0) = true).
    { destruct Hbad as [H | H]; apply Z.eqb_neq in H; rewrite H;
        [reflexivity | apply orb_true_r]. }
    unfold mbind, M_bind. now rewrite E.
Qed.

(** ** The channel manager *)

Section ManagerFacts.
Variable P : Platform.

(** What [AddChannel] registers when it returns [true]. *)
Lemma add_channel_true os channels name ns app bufn bs fd :
  let res := AddChannel P os channels name ns app bufn bs fd in
  res.1.1 = true ->
  exists ch,
    GetChannel res.1.2 name = Some ch
    /\ name_ ch = name
    /\ initialised P bufn bs (ctx_ ch)
    /\ exists size posix,
         init_substeps_ok P size posix ns app bufn bs (os_malloc_ok os)
         = true.
Proof.
  unfold AddChannel, GetChannel. cbv zeta.
  destruct (decide _) as [| _]; [discriminate |].
  destruct (decide _) as [| Hnone]; [discriminate |].
  destruct (cr_channel _) as [r |] eqn:E; [| discriminate].
  intros _. cbn [fst snd]. apply create_some in E as [Hi Hok].
  unfold unordered_map_insert.
  destruct (channels !! name) eqn:El; [exfalso; apply Hnone; eauto |].
  rewrite lookup_insert_eq. eexists. split; [reflexivity |]. cbn. auto.
Qed.

(** [AddChannel] returns [true] on a new name, below the cap, when the
    huge-page mapping is made and every sub-step of its initialisation
    succeeds. *)
Lemma add_channel_succeeds os channels name ns app bufn bs fd :
  (size channels < kMaxChannelNr)%nat -> channels !! name = None ->
  let huge_size :=
    __nsaas_channel_dataplane_calculate_size P ns app bufn bs false in
  is_Some (__nsaas_channel_hugetlbfs_create os name huge_size fd).1.1 ->
  init_substeps_ok P huge_size false ns app bufn bs (os_malloc_ok os) = true ->
  (AddChannel P os channels name ns app bufn bs fd).1.1 = true.
Proof.
  intros Hsz Hname huge_size [ch Hch] Hok. unfold AddChannel.
  destruct (decide _) as [| _]; [lia |].
  destruct (decide _) as [[? Hs] | _]; [congruence |].
  unfold __nsaas_channel_create. cbv zeta. fold huge_size. rewrite Hch.
  destruct (create_out_cases P os ch name ns app bufn bs huge_size false
              (__nsaas_channel_hugetlbfs_create os name huge_size fd).1.2
              (__nsaas_channel_hugetlbfs_create os name huge_size fd).2)
    as [(_ & r & -> & _) | (Hf & _)]; [reflexivity | congruence].
Qed.
End ManagerFacts.

Lemma total_buffer_size_1024 P :
  1 <= NSAAS_MSGBUF_SPACE_RESERVED P + NSAAS_MSGBUF_HEADROOM_MAX P <= 1024 ->
  total_buffer_size_of P 1024 = 2048.
Proof.
  intros H. unfold total_buffer_size_of, ROUNDUP_U64_POW2.
  set (x := 1024 + NSAAS_MSGBUF_SPACE_RESERVED P + NSAAS_MSGBUF_HEADROOM_MAX P).
  assert (Hx : 1025 <= x <= 2048) by (unfold x; lia).
  change (2 ^ 64) with 18446744073709551616 in *.
  rewrite (wrap64_small x) by (change (2 ^ 64) with 18446744073709551616; lia).
  rewrite (wrap64_small (x - 1))
    by (change (2 ^ 64) with 18446744073709551616; lia).
  unfold clzll. destruct (Z.eqb_spec (x - 1) 0); [lia |].
  rewrite (Z.log2_unique (x - 1) 10) by (change (2 ^ 10) with 1024;
    change (2 ^ Z.succ 10) with 2048; lia).
  reflexivity.
Qed.

(** What the accessors report on a channel initialised with 4096 slots on
    the free ring and buffers of 1024 bytes. *)
Lemma accessors_4096_1024 P ch :
  1 <= NSAAS_MSGBUF_SPACE_RESERVED P + NSAAS_MSGBUF_HEADROOM_MAX P <= 1024 ->
  initialised P 4096 1024 (ctx_ ch) ->
  GetFreeBufCount ch = 4095 /\ GetTotalBufCount ch = 4095
  /\ GetUsableBufSize ch = 1024 /\ GetTotalBufSize ch = 2048.
Proof.
  intros HR (Hring & _ & Hsize & Hmss & _).
  unfold GetFreeBufCount, GetTotalBufCount, GetUsableBufSize, GetTotalBufSize,
    __nsaas_channel_buffers_avail.
  rewrite Hring, Hsize, Hmss, total_buffer_size_1024 by exact HR.
  repeat split; vm_compute; reflexivity.
Qed.

(** C2, as the code has it.  After [AddChannel] has created the channel
    ["c0"] with 256 slots on the two message rings, 4096 slots on the free
    ring and buffers of 1024 bytes, [GetFreeBufCount] is 4095,
    [GetTotalBufCount] is 4095 (the capacity of the free ring, one less than
    its slot count), [GetUsableBufSize] is 1024 and [GetTotalBufSize] is
    2048. *)
Theorem created_channel_accessors
    (P : Platform) (os : OsOutcome) (channels : gmap string ShmChannel)
    (fd : Z) :
  1 <= NSAAS_MSGBUF_SPACE_RESERVED P + NSAAS_MSGBUF_HEADROOM_MAX P <= 1024 ->
  let res := AddChannel P os channels "c0" 256 256 4096 1024 fd in
  res.1.1 = true ->
  exists ch,
    GetChannel res.1.2 "c0" = Some ch
    /\ GetFreeBufCount ch = 4095 /\ GetTotalBufCount ch = 4095
    /\ GetUsableBufSize ch = 1024 /\ GetTotalBufSize ch = 2048.
Proof.
  intros HR res Hres.
  destruct (add_channel_true P os channels "c0" 256 256 4096 1024 fd Hres)
    as (ch & Hget & _ & Hinit & _).
  exists ch. split; [exact Hget |]. now apply accessors_4096_1024 with P.
Qed.

Lemma example_add_channel_c0 :
  (AddChannel example_platform all_ok ∅ "c0" 256 256 4096 1024 (-1)).1.1 = true.
Proof.
  apply add_channel_succeeds.
  - rewrite map_size_empty. unfold kMaxChannelNr. lia.
  - apply lookup_empty.
  - vm_compute. eauto.
  - vm_compute. reflexivity.
Qed.

Lemma created_channel_accessors_witness :
  exists ch,
    GetChannel
      (AddChannel example_platform all_ok ∅ "c0" 256 256 4096 1024 (-1)).1.2
      "c0" = Some ch
    /\ GetFreeBufCount ch = 4095 /\ GetTotalBufCount ch = 4095
    /\ GetUsableBufSize ch = 1024 /\ GetTotalBufSize ch = 2048.
Proof.
  apply (created_channel_accessors example_platform all_ok ∅ (-1)).
  - cbn. lia.
  - exact example_add_channel_c0.
Defined.

(** The claim C2 as the spec words it, with [GetTotalBufCount() == 4096],
    fails on the channel it names: the count is 4095. *)
Lemma created_channel_total_count_not_4096 :
  let res :=
    AddChannel example_platform all_ok ∅ "c0" 256 256 4096 1024 (-1) in
  res.1.1 = true
  /\ ~ (exists ch,
          GetChannel res.1.2 "c0" = Some ch
          /\ GetFreeBufCount ch = 4095 /\ GetTotalBufCount ch = 4096
          /\ GetUsableBufSize ch = 1024 /\ GetTotalBufSize ch = 2048).
Proof.
  intros res. split; [exact example_add_channel_c0 |].
  intros (ch & Hget & _ & Htot & _).
  destruct (add_channel_true example_platform all_ok ∅ "c0" 256 256 4096 1024
              (-1) example_add_channel_c0) as (ch' & Hget' & _ & Hinit & _).
  fold res in Hget'. rewrite Hget in Hget'. injection Hget' as <-.
  destruct (accessors_4096_1024 example_platform ch) as (_ & Htot' & _);
    [cbn; lia | exact Hinit |].
  rewrite Htot in Htot'. discriminate.
Qed.

(** C5.  [AddChannel] returns [false], leaves the registry as it is and
    makes no system call (so it creates no region and destroys none) when
    the name is registered already or 32 channels are registered. *)
Theorem add_channel_rejects_duplicate_and_full
    (P : Platform) (os : OsOutcome) (channels : gmap string ShmChannel)
    (name : string) (ns app bufn bs fd : Z) :
  is_Some (channels !! name) \/ (kMaxChannelNr <= size channels)%nat ->
  AddChannel P os channels name ns app bufn bs fd = (false, channels, []).
Proof.
  intros H. unfold AddChannel.
  destruct (decide _) as [| Hsz]; [reflexivity |].
  destruct (decide _) as [| Hname]; [reflexivity |].
  destruct H; contradiction.
Qed.

(** ** Arrays written by a loop *)

(** [for (i = 0; i < n; i++) a[i] = f(i);] on an array of at least [n]
    entries. *)
Lemma foldl_insert_seq_length {A} (f : nat -> A) n : forall (a : list A),
  length (foldl (fun a i => <[i := f i]> a) a (seq 0 n)) = length a.
Proof.
  induction n as [|n IH]; intros a; [reflexivity |].
  rewrite seq_S, foldl_app. cbn. now rewrite length_insert, IH.
Qed.

Lemma foldl_insert_seq_lookup {A} (f : nat -> A) n : forall (a : list A) i,
  (n <= length a)%nat ->
  foldl (fun a i => <[i := f i]> a) a (seq 0 n) !! i
  = if decide (i < n)%nat then Some (f i) else a !! i.
Proof.
  induction n as [|n IH]; intros a i Hn; [reflexivity |].
  rewrite seq_S, foldl_app. cbn.
  destruct (decide (i = n)) as [-> | Hne].
  - rewrite list_lookup_insert_eq by (rewrite foldl_insert_seq_length; lia).
    destruct (decide (n < S n)%nat); [reflexivity | lia].
  - rewrite list_lookup_insert_ne by congruence. rewrite IH by lia.
    destruct (decide (i < n)%nat), (decide (i < S n)%nat); try reflexivity; lia.
Qed.

Lemma foldl_insert_seq_ext {A} (f g : nat -> A) n : forall (a : list A),
  (forall i, (i < n)%nat -> f i = g i) ->
  foldl (fun a i => <[i := f i]> a) a (seq 0 n)
  = foldl (fun a i => <[i := g i]> a) a (seq 0 n).
Proof.
  induction n as [|n IH]; intros a H; [reflexivity |].
  rewrite seq_S, !foldl_app. cbn. rewrite IH by (intros; apply H; lia).
  now rewrite H by lia.
Qed.

(** ** The retry loop of the two free functions *)

Section FreeRetry.
Variable Shm : Type.
Variable free_bulk : Shm -> nat -> list Z -> Z * Shm.

Lemma free_bulk_retry_spec n indices : forall retries shm,
  let t := free_bulk_retry Shm free_bulk retries shm n indices in
  (1 <= length t.2 <= S retries)%nat
  /\ (forall i, (S i < length t.2)%nat -> t.2 !! i = Some 0)
  /\ last t.2 = Some t.1.1
  /\ (t.1.1 = 0 -> length t.2 = S retries)
  /\ t.1.2 = after_free_attempts Shm free_bulk (length t.2) shm n indices
  /\ (forall i r, t.2 !! i = Some r ->
        r = (free_bulk (after_free_attempts Shm free_bulk i shm n indices)
               n indices).1).
Proof.
  induction retries as [|k IH]; intros shm; cbn [free_bulk_retry].
  - destruct (Z.eqb_spec (free_bulk shm n indices).1 0) as [E | E];
      cbn; (repeat split; [lia | lia | intros; lia | auto ..]);
      intros [|i] r [= <-]; reflexivity.
  - destruct (Z.eqb_spec (free_bulk shm n indices).1 0) as [E | E].
    + specialize (IH (free_bulk shm n indices).2).
      cbv zeta in IH. destruct IH as (Hl & Hz & Hlast & Hret & Hshm & Hatt).
      cbn [fst snd length after_free_attempts].
      split; [lia |]. split; [| split; [| split; [| split]]].
      * intros [|i] Hi; [cbn; now rewrite E |]. cbn. apply Hz. lia.
      * rewrite last_cons, Hlast. reflexivity.
      * intros H0. rewrite Hret by exact H0. reflexivity.
      * exact Hshm.
      * intros [|i] r Hr; [now injection Hr as <- |]. cbn in Hr |- *.
        now apply Hatt.
    + cbn. (repeat split; [lia | lia | intros; lia | auto ..]);
        [intros; contradiction |].
      intros [|i] r [= <-]; reflexivity.
Qed.

(** The loop gives 0 exactly when every attempt returned 0. *)
Lemma free_bulk_retry_zero n indices retries shm :
  let t := free_bulk_retry Shm free_bulk retries shm n indices in
  t.1.1 = 0 <-> Forall (fun r => r = 0) t.2.
Proof.
  intros t.
  destruct (free_bulk_retry_spec n indices retries shm)
    as (Hl & Hz & Hlast & _). fold t in Hl, Hz, Hlast.
  split.
  - intros H0. apply Forall_lookup. intros i r Hr.
    destruct (decide (S i < length t.2)%nat) as [Hi | Hi].
    + rewrite Hz in Hr by exact Hi. congruence.
    + apply lookup_lt_Some in Hr as Hlt.
      rewrite last_lookup in Hlast.
      replace (pred (length t.2)) with i in Hlast by lia. congruence.
  - intros Hall. rewrite last_lookup in Hlast.
    rewrite Forall_lookup in Hall. eapply Hall. exact Hlast.
Qed.
End FreeRetry.

(** ** The operations of [ShmChannel] *)

(** C6.  [MsgBufFree], and [MsgBufBulkFree] on a batch that is not empty,
    call the free helper at least once and at most 6 times (5 retries),
    each call but the last having returned 0; they return [false] exactly
    when every call returned 0, which takes all 6 calls; the shared memory
    they leave is the one these calls alone produce, and [MsgBufBulkFree]
    gives the batch back unchanged when it returns [false]. *)
Theorem free_retries_at_most_five
    (Shm : Type) (free_bulk : Shm -> nat -> list Z -> Z * Shm)
    (buf_index : Z -> Z) (shm : Shm) :
  (forall buf,
     let res := MsgBufFree Shm free_bulk buf_index shm buf in
     let indices := [buf_index buf] in
     (1 <= length res.2 <= 6)%nat
     /\ (forall i, (S i < length res.2)%nat -> res.2 !! i = Some 0)
     /\ (forall i r, res.2 !! i = Some r ->
           r = (free_bulk (after_free_attempts Shm free_bulk i shm 1%nat indices)
                  1%nat indices).1)
     /\ (res.1.1 = false <-> Forall (fun r => r = 0) res.2)
     /\ (res.1.1 = false -> length res.2 = 6%nat)
     /\ res.1.2
        = after_free_attempts Shm free_bulk (length res.2) shm 1%nat indices)
  /\ (forall batch,
        GetSize batch <> 0%nat ->
        let res := MsgBufBulkFree Shm free_bulk shm batch in
        let n := GetSize batch in
        let indices := buf_indices batch in
        (1 <= length res.2 <= 6)%nat
        /\ (forall i, (S i < length res.2)%nat -> res.2 !! i = Some 0)
        /\ (forall i r, res.2 !! i = Some r ->
              r = (free_bulk (after_free_attempts Shm free_bulk i shm n indices)
                     n indices).1)
        /\ (res.1.1.1 = false <-> Forall (fun r => r = 0) res.2)
        /\ (res.1.1.1 = false -> length res.2 = 6%nat)
        /\ res.1.2
           = after_free_attempts Shm free_bulk (length res.2) shm n indices
        /\ (res.1.1.1 = false -> res.1.1.2 = batch)).
Proof.
  split.
  - intros buf res indices. subst res. unfold MsgBufFree. fold indices.
    destruct (free_bulk_retry_spec Shm free_bulk 1 indices 5 shm)
      as (Hl & Hz & _ & Hret & Hshm & Hatt).
    pose proof (free_bulk_retry_zero Shm free_bulk 1 indices 5 shm) as Hzero.
    cbv zeta in *. cbn [fst snd].
    set (t := free_bulk_retry Shm free_bulk 5 shm 1 indices) in *.
    assert (Hb : negb (t.1.1 =? 0) = false <-> t.1.1 = 0)
      by (rewrite negb_false_iff; apply Z.eqb_eq).
    repeat split; try tauto; try lia; auto.
  - intros batch Hne res n indices. subst res. unfold MsgBufBulkFree.
    destruct (Nat.eqb_spec (GetSize batch) 0) as [| _]; [contradiction |].
    fold n. fold indices.
    destruct (free_bulk_retry_spec Shm free_bulk n indices 5 shm)
      as (Hl & Hz & _ & Hret & Hshm & Hatt).
    pose proof (free_bulk_retry_zero Shm free_bulk n indices 5 shm) as Hzero.
    cbv zeta in *.
    set (t := free_bulk_retry Shm free_bulk 5 shm n indices) in *.
    destruct (Z.eqb_spec t.1.1 0) as [E | E]; cbn [fst snd].
    + repeat split; try tauto; try lia; auto.
    + repeat split; try tauto; try lia; auto; try discriminate.
Qed.

(** C7.  [DequeueMessages(msg_indices, msgs, nb_msgs)] returns a count [r]
    of at most [nb_msgs] (the helper dequeuing no more than it is asked
    for); for every [i < r], [msg_indices[i]] is the [i]-th index dequeued
    and [msgs[i]] is the address of that slot, the base of the pool plus the
    index times the stride; the entries of [msgs] from [r] on are as they
    were. *)
Theorem dequeue_messages_resolves_slots
    (Shm : Type) (app_ring_dequeue : Shm -> nat -> list Z * Shm)
    (base : Z) (ctx : Region) (shm : Shm) (msg_indices msgs : list Z)
    (nb_msgs : nat) :
  (forall shm n, (length (app_ring_dequeue shm n).1 <= n)%nat) ->
  (nb_msgs <= length msg_indices)%nat -> (nb_msgs <= length msgs)%nat ->
  let res :=
    DequeueMessages Shm app_ring_dequeue base ctx shm msg_indices msgs
      nb_msgs in
  let r := res.1.1.1 in
  (r <= nb_msgs)%nat
  /\ length res.1.2 = length msgs
  /\ (forall i, (i < r)%nat ->
        exists index,
          (app_ring_dequeue shm nb_msgs).1 !! i = Some index
          /\ res.1.1.2 !! i = Some index
          /\ res.1.2 !! i
             = Some (base + hdr ctx buf_pool_ofs + index * hdr ctx buf_size))
  /\ (forall i, (r <= i)%nat -> res.1.2 !! i = msgs !! i).
Proof.
  intros Hdeq Hidx Hmsgs res r. subst r res. unfold DequeueMessages.
  cbv zeta. cbn [fst snd].
  set (d := (app_ring_dequeue shm nb_msgs).1).
  assert (Hd : (length d <= nb_msgs)%nat) by apply Hdeq.
  unfold resolve_msgs.
  split; [exact Hd |]. split; [apply foldl_insert_seq_length |]. split.
  - intros i Hi. destruct (lookup_lt_is_Some_2 d i Hi) as [index Hindex].
    exists index. split; [exact Hindex |].
    assert (Hins : list_inserts 0 d msg_indices !! i = Some index).
    { rewrite list_lookup_inserts by lia. now rewrite Nat.sub_0_r. }
    split; [exact Hins |].
    rewrite foldl_insert_seq_lookup by lia.
    destruct (decide (i < length d)%nat); [| lia].
    rewrite (list_lookup_total_correct _ _ _ Hins). reflexivity.
  - intros i Hi. rewrite foldl_insert_seq_lookup by lia.
    destruct (decide (i < length d)%nat); [lia | reflexivity].
Qed.

(** C8.  The overload of [EnqueueMessages] on an array of pointers, asked
    for more than [kMaxBurst] messages, does what it does on the first
    [kMaxBurst] of them alone: it hands the helper [kMaxBurst] slots, those
    of the first [kMaxBurst] messages, and returns the helper's count, which
    is at most [kMaxBurst] (the helper enqueuing no more than it is given)
    and carries no sign of the messages left out. *)
Theorem enqueue_messages_truncates_to_burst
    (P : Platform) (Shm : Type)
    (nsaas_ring_enqueue : Shm -> nat -> list Z -> nat * Shm)
    (buf_index : Z -> Z) (shm : Shm) (msgs : list Z) (nb_msgs : nat) :
  (forall shm n slots, ((nsaas_ring_enqueue shm n slots).1 <= n)%nat) ->
  (kMaxBurst P < nb_msgs)%nat ->
  let res :=
    EnqueueMessages_ptrs P Shm nsaas_ring_enqueue buf_index shm msgs nb_msgs in
  res = EnqueueMessages_ptrs P Shm nsaas_ring_enqueue buf_index shm
          (take (kMaxBurst P) msgs) (kMaxBurst P)
  /\ (res.1 <= kMaxBurst P)%nat
  /\ exists slots,
       res = nsaas_ring_enqueue shm (kMaxBurst P) slots
       /\ length slots = kMaxBurst P
       /\ forall i, (i < kMaxBurst P)%nat ->
            slots !! i = Some (buf_index (msgs !!! i)).
Proof.
  intros Henq Hnb res. subst res. unfold EnqueueMessages_ptrs, EnqueueMessages.
  cbv zeta. rewrite Nat.min_r by lia. rewrite Nat.min_id.
  unfold fill_slots. split; [| split].
  - f_equal. apply foldl_insert_seq_ext. intros i Hi.
    now rewrite lookup_total_take_lt.
  - apply Henq.
  - eexists. split; [reflexivity |]. split.
    + now rewrite foldl_insert_seq_length, length_replicate.
    + intros i Hi. rewrite foldl_insert_seq_lookup
        by now rewrite length_replicate.
      destruct (decide (i < kMaxBurst P)%nat); [reflexivity | lia].
Qed.

(** C9.  [MsgBufBulkAlloc(batch, cnt)] asks the helper for the smaller of
    [cnt] and the room left in the batch, returns [true] exactly when the
    helper gave at least one buffer, fewer than asked or not, and adds to
    the count of the batch exactly the number of buffers given. *)
Theorem bulk_alloc_true_iff_some_buffer
    (P : Platform) (Shm : Type) (buf_alloc_bulk : Shm -> nat -> list Z * Shm)
    (base : Z) (ctx : Region) (shm : Shm) (batch : MsgBufBatch) (cnt : nat) :
  let asked := Nat.min cnt (GetRoom P batch) in
  let a := buf_alloc_bulk shm asked in
  let res := MsgBufBulkAlloc P Shm buf_alloc_bulk base ctx shm batch cnt in
  (asked <= cnt)%nat /\ (asked <= GetRoom P batch)%nat
  /\ (res.1.1 = true <-> (1 <= length a.1)%nat)
  /\ GetSize res.1.2 = (GetSize batch + length a.1)%nat
  /\ res.2 = a.2.
Proof.
  intros asked a res. subst res. unfold MsgBufBulkAlloc. fold asked. fold a.
  cbv zeta. split; [unfold asked; lia |]. split; [unfold asked; lia |].
  destruct (Nat.eqb_spec (length a.1) 0) as [E | E]; cbn [fst snd].
  - split; [split; [discriminate | lia] |]. auto.
  - split; [split; [lia | reflexivity] |]. auto.
Qed.

(** C10.  [MsgBufBulkFree] on an empty batch returns [true] without calling
    the free helper; when it returns [true] on a batch that is not empty the
    batch comes back cleared, of size zero; when it returns [false] the
    batch comes back with its indices and its count as they were. *)
Theorem bulk_free_batch_afterwards
    (Shm : Type) (free_bulk : Shm -> nat -> list Z -> Z * Shm)
    (shm : Shm) (batch : MsgBufBatch) :
  let res := MsgBufBulkFree Shm free_bulk shm batch in
  (GetSize batch = 0%nat -> res = (true, batch, shm, []))
  /\ (GetSize batch <> 0%nat -> res.1.1.1 = true ->
      res.1.1.2 = Clear batch /\ GetSize res.1.1.2 = 0%nat)
  /\ (res.1.1.1 = false -> res.1.1.2 = batch).
Proof.
  intros res. subst res. unfold MsgBufBulkFree.
  destruct (Nat.eqb_spec (GetSize batch) 0) as [E | E].
  - repeat split; try reflexivity; try contradiction; discriminate.
  - destruct (_ =? 0); cbn [fst snd]; repeat split;
      try reflexivity; try contradiction; discriminate.
Qed.

(** ** The statements at concrete inputs *)

Lemma magic_set_iff_initialised_witness :
  let res :=
    run (__nsaas_channel_dataplane_init example_platform small_size true
           "c0" 2 2 4 64 false true) (Region_zero, []) in
  let magic := NSAAS_CHANNEL_CTX_MAGIC example_platform in
  (* a run that succeeds, from a region whose magic is not set: the magic
     is the last write, it is set in the end, and the region is complete *)
  (hdr Region_zero ctx_magic <> magic
   /\ hdr res.2.1 ctx_magic = magic
   /\ initialised example_platform 4 64 res.2.1
   /\ init_layout example_platform Region_zero small_size true "c0" 2 2 4 64
        false res.2.1
   /\ exists new pre,
        res.2 = (replay Region_zero new, new)
        /\ new = pre ++ [Sync; StCtx ctx_magic magic; Sync]
        /\ no_magic pre = true)
  (* a creation on huge pages whose initialisation fails *)
  /\ (let c := __nsaas_channel_create example_platform malloc_fails "c0"
                 2 2 4 64 (-1) in
      cr_channel c = None
      /\ cr_syscalls c
         = [sys_memfd_create "c0"; sys_ftruncate 3 4194304;
            sys_mmap 3 4194304; sys_mlock 4194304;
            sys_munmap 4194304; sys_close 3])
  (* a creation on POSIX shared memory whose initialisation fails *)
  /\ (let c := __nsaas_channel_create example_platform
                 no_huge_pages_malloc_fails "c0" 2 2 4 64 (-1) in
      cr_channel c = None
      /\ cr_syscalls c
         = [sys_memfd_create "c0"; sys_shm_open "c0";
            sys_ftruncate 4 8192; sys_mmap 4 8192; sys_mlock 8192;
            sys_munmap 8192; sys_close 4; sys_shm_unlink "c0"]).
Proof.
  intros res magic.
  destruct (magic_set_iff_initialised example_platform) as [HA HB].
  assert (H0 : hdr Region_zero ctx_magic <> magic) by discriminate.
  assert (Hok : init_substeps_ok example_platform small_size true 2 2 4 64
                  true = true) by (vm_compute; reflexivity).
  split; [| split].
  - destruct (HA small_size true "c0" 2 2 4 64 false true Region_zero [])
      as (new & E & _ & Hcomplete & Hlast & _ & Hmagic).
    destruct (Hlast Hok) as (pre & Enew & Np).
    destruct (Hmagic H0) as [Hiff _].
    destruct (Hcomplete Hok) as [Hi Hl].
    split; [exact H0 |]. split; [apply Hiff; exact Hok |].
    split; [exact Hi |]. split; [exact Hl |].
    exists new, pre. auto.
  - destruct (HB malloc_fails "c0" 2 2 4 64 (-1)) as (Hh & _).
    apply Hh; [vm_compute; eauto | vm_compute; reflexivity].
  - destruct (HB no_huge_pages_malloc_fails "c0" 2 2 4 64 (-1))
      as (_ & Hp & _).
    apply Hp; [vm_compute; reflexivity | vm_compute; eauto
              | vm_compute; reflexivity].
Defined.

Lemma init_fills_buffers_and_free_ring_witness :
  let r :=
    (run (__nsaas_channel_dataplane_init example_platform small_size true
            "c0" 2 2 4 64 false true) (Region_zero, [])).2.1 in
  ((forall i, 0 <= i < capacity (rings r buf_ring) ->
      mb_magic (bufs r i) = NSAAS_MSGBUF_MAGIC example_platform
      /\ mb_index (bufs r i) = i
      /\ mb_size (bufs r i) = 64 + NSAAS_MSGBUF_HEADROOM_MAX example_platform)
   /\ jr_entries (rings r buf_ring) = seqZ 0 (capacity (rings r buf_ring)))
  /\ run (init_publish example_platform 0 3 3) (Region_zero, [])
     = (-1, (Region_zero, [])).
Proof.
  destruct (init_fills_buffers_and_free_ring example_platform small_size true
              "c0" 2 2 4 64 false true Region_zero [] example_platform_ok)
    as [H1 H2]; [lia | lia |].
  split.
  - apply H1. vm_compute. reflexivity.
  - apply H2. left. vm_compute. discriminate.
Defined.

Lemma add_channel_rejects_duplicate_and_full_witness :
  AddChannel example_platform all_ok {["c0" := example_channel]} "c0"
    256 256 4096 1024 (-1)
  = (false, {["c0" := example_channel]}, []).
Proof.
  apply add_channel_rejects_duplicate_and_full.
  left. rewrite lookup_singleton_eq. eauto.
Defined.

Lemma free_retries_at_most_five_witness :
  let res := MsgBufBulkFree Region stuck_free_bulk small_region example_batch in
  GetSize example_batch <> 0%nat
  /\ res.1.1.1 = false /\ length res.2 = 6%nat /\ res.1.1.2 = example_batch.
Proof.
  intros res.
  assert (Hne : GetSize example_batch <> 0%nat) by discriminate.
  destruct (free_retries_at_most_five Region stuck_free_bulk (fun p => p)
              small_region) as [_ H].
  destruct (H example_batch Hne) as (_ & _ & _ & _ & Hlen & _ & Hbatch).
  assert (Hf : res.1.1.1 = false) by reflexivity.
  split; [exact Hne |]. split; [exact Hf |]. split.
  - apply Hlen. exact Hf.
  - apply Hbatch. exact Hf.
Defined.

Lemma seq_app_ring_dequeue_le (r : Region) n :
  (length (seq_app_ring_dequeue r n).1 <= n)%nat.
Proof. cbn. rewrite length_take. lia. Qed.

Lemma dequeue_messages_resolves_slots_witness :
  let res :=
    DequeueMessages Region seq_app_ring_dequeue 0x20000000 small_region
      busy_region [9; 9; 9; 9] [0; 0; 0; 0] 4 in
  (res.1.1.1 <= 4)%nat
  /\ length res.1.2 = 4%nat
  /\ (forall i, (i < res.1.1.1)%nat ->
        exists index,
          (seq_app_ring_dequeue busy_region 4).1 !! i = Some index
          /\ res.1.1.2 !! i = Some index
          /\ res.1.2 !! i
             = Some (0x20000000 + hdr small_region buf_pool_ofs
                     + index * hdr small_region buf_size))
  /\ (forall i, (res.1.1.1 <= i)%nat -> res.1.2 !! i = [0; 0; 0; 0] !! i).
Proof.
  apply (dequeue_messages_resolves_slots Region seq_app_ring_dequeue
           0x20000000 small_region busy_region [9; 9; 9; 9] [0; 0; 0; 0] 4).
  - exact seq_app_ring_dequeue_le.
  - cbn. lia.
  - cbn. lia.
Defined.

Lemma seq_nsaas_ring_enqueue_le (r : Region) n slots :
  ((seq_nsaas_ring_enqueue r n slots).1 <= n)%nat.
Proof.
  unfold seq_nsaas_ring_enqueue, jring_enqueue_bulk.
  destruct (_ <=? _); cbn; lia.
Qed.

Lemma enqueue_messages_truncates_to_burst_witness :
  let msgs := replicate 20 0x20001000 in
  let buf_index p := (p - 0x20001000) / 2048 in
  let res :=
    EnqueueMessages_ptrs example_platform Region seq_nsaas_ring_enqueue
      buf_index small_region msgs 20 in
  res = EnqueueMessages_ptrs example_platform Region seq_nsaas_ring_enqueue
          buf_index small_region (take 16 msgs) 16
  /\ (res.1 <= 16)%nat
  /\ exists slots,
       res = seq_nsaas_ring_enqueue small_region 16 slots
       /\ length slots = 16%nat
       /\ forall i, (i < 16)%nat -> slots !! i = Some (buf_index (msgs !!! i)).
Proof.
  intros msgs buf_index.
  apply (enqueue_messages_truncates_to_burst example_platform Region
           seq_nsaas_ring_enqueue buf_index small_region msgs 20).
  - exact seq_nsaas_ring_enqueue_le.
  - cbn. lia.
Defined.

Lemma bulk_alloc_true_iff_some_buffer_witness :
  let res :=
    MsgBufBulkAlloc example_platform Region seq_buf_alloc_bulk 0x20000000
      small_region busy_region
      {| cnt_ := 13; buf_indices := replicate 16 0; bufs_ := replicate 16 0 |}
      5 in
  res.1.1 = true /\ GetSize res.1.2 = 15%nat.
Proof.
  intros res.
  destruct (bulk_alloc_true_iff_some_buffer example_platform Region
              seq_buf_alloc_bulk 0x20000000 small_region busy_region
              {| cnt_ := 13; buf_indices := replicate 16 0;
                 bufs_ := replicate 16 0 |} 5)
    as (_ & _ & Htrue & Hsize & _).
  split; [apply Htrue; vm_compute; lia | exact Hsize].
Defined.

Lemma bulk_free_batch_afterwards_witness :
  MsgBufBulkFree Region seq_buf_free_bulk small_region empty_batch
  = (true, empty_batch, small_region, [])
  /\ (MsgBufBulkFree Region stuck_free_bulk small_region example_batch).1.1.2
     = example_batch.
Proof.
  split.
  - apply (bulk_free_batch_afterwards Region seq_buf_free_bulk small_region
             empty_batch). reflexivity.
  - apply (bulk_free_batch_afterwards Region stuck_free_bulk small_region
             example_batch). reflexivity.
Defined.

(** ** More on the macros and on the size calculation *)

(** X1.  On a [size_t], [IS_POW2] holds of zero and of the powers of two,
    and of nothing else. *)
Theorem IS_POW2_iff (x : Z) :
  0 <= x < 2 ^ 64 -> (IS_POW2 x = true <-> x = 0 \/ power_of_two x).
Proof.
  intros Hx. split.
  - now apply IS_POW2_sound.
  - intros [-> | (k & Hk & ->)]; [reflexivity | now apply IS_POW2_power].
Qed.

Lemma IS_POW2_iff_witness :
  (IS_POW2 4096 = true <-> 4096 = 0 \/ power_of_two 4096)
  /\ (IS_POW2 0 = true <-> 0 = 0 \/ power_of_two 0).
Proof.
  split; apply IS_POW2_iff; lia.
Defined.

Lemma power_of_two_lt_succ k p :
  0 <= k -> power_of_two p -> 2 ^ k < p -> 2 ^ (k + 1) <= p.
Proof.
  intros Hk (j & Hj & ->) Hlt.
  apply Z.pow_lt_mono_r_iff in Hlt; [| lia | lia].
  apply Z.pow_le_mono_r; lia.
Qed.

Lemma ROUNDUP_U64_POW2_value x :
  2 <= x <= 2 ^ 63 ->
  ROUNDUP_U64_POW2 x = 2 ^ (Z.log2 (x - 1) + 1)
  /\ 0 <= Z.log2 (x - 1) <= 62
  /\ 2 ^ Z.log2 (x - 1) <= x - 1 < 2 ^ (Z.log2 (x - 1) + 1).
Proof.
  intros Hx. unfold ROUNDUP_U64_POW2.
  assert (H63 : 2 ^ 63 < 2 ^ 64) by (apply Z.pow_lt_mono_r; lia).
  rewrite (wrap64_small (x - 1)) by lia.
  destruct (Z.log2_spec (x - 1)) as [Hlo Hhi]; [lia |].
  pose proof (Z.log2_nonneg (x - 1)) as Hk0.
  assert (Hk : Z.log2 (x - 1) <= 62).
  { destruct (Z_lt_le_dec 62 (Z.log2 (x - 1))) as [Hgt | ]; [| lia].
    assert (2 ^ 63 <= 2 ^ Z.log2 (x - 1)) by (apply Z.pow_le_mono_r; lia).
    lia. }
  unfold clzll. destruct (Z.eqb_spec (x - 1) 0); [lia |].
  replace (64 - (63 - Z.log2 (x - 1))) with (Z.log2 (x - 1) + 1) by lia.
  rewrite Z.shiftl_1_l.
  assert (2 ^ (Z.log2 (x - 1) + 1) <= 2 ^ 63) by (apply Z.pow_le_mono_r; lia).
  assert (0 < 2 ^ (Z.log2 (x - 1) + 1)) by (apply Z.pow_pos_nonneg; lia).
  rewrite wrap64_small by lia.
  replace (Z.succ (Z.log2 (x - 1))) with (Z.log2 (x - 1) + 1) in Hhi by lia.
  auto.
Qed.

(** X2.  For [2 <= x <= 2^63], [ROUNDUP_U64_POW2(x)] is the least power of
    two that is at least [x]: it is a power of two, it lies in
    [x .. 2x - 1], no smaller power of two reaches [x], and a power of two
    is rounded to itself. *)
Theorem ROUNDUP_U64_POW2_least (x : Z) :
  2 <= x <= 2 ^ 63 ->
  let r := ROUNDUP_U64_POW2 x in
  power_of_two r /\ x <= r < 2 * x
  /\ (forall p, power_of_two p -> x <= p -> r <= p)
  /\ (power_of_two x -> r = x).
Proof.
  intros Hx r. subst r.
  destruct (ROUNDUP_U64_POW2_value x Hx) as (-> & Hk & Hlo & Hhi).
  set (k := Z.log2 (x - 1)) in *.
  assert (E : 2 ^ (k + 1) = 2 * 2 ^ k)
    by (rewrite Z.pow_add_r by lia; change (2 ^ 1) with 2; lia).
  assert (Hmin : forall p, power_of_two p -> x <= p -> 2 ^ (k + 1) <= p).
  { intros p Hp Hle. apply power_of_two_lt_succ; [lia | exact Hp | lia]. }
  split; [exists (k + 1); split; [lia | reflexivity] |].
  split; [lia |]. split; [exact Hmin |].
  intros Hp. specialize (Hmin x Hp). lia.
Qed.

Lemma ROUNDUP_U64_POW2_least_witness :
  let r := ROUNDUP_U64_POW2 1152 in
  power_of_two r /\ 1152 <= r < 2 * 1152
  /\ (forall p, power_of_two p -> 1152 <= p -> r <= p)
  /\ (power_of_two 1152 -> r = 1152).
Proof.
  apply ROUNDUP_U64_POW2_least.
  change (2 ^ 63) with 9223372036854775808. lia.
Defined.

Lemma ALIGN_TO_PAGE_SIZE_mod x p : p <> 0 -> ALIGN_TO_PAGE_SIZE x p mod p = 0.
Proof. intros Hp. unfold ALIGN_TO_PAGE_SIZE. now apply Z.mod_mul. Qed.

Lemma calculate_size_is_aligned P ns app bufn bs posix :
  __nsaas_channel_dataplane_calculate_size P ns app bufn bs posix <> SIZE_MAX ->
  exists x,
    __nsaas_channel_dataplane_calculate_size P ns app bufn bs posix
    = ALIGN_TO_PAGE_SIZE x (kPageSize_of P posix).
Proof.
  unfold __nsaas_channel_dataplane_calculate_size.
  destruct (_ || _); [congruence |].
  destruct (_ >? _); [congruence |].
  destruct (add_ring_sizes _ _ _); [| congruence].
  intros _. cbv zeta. eauto.
Qed.

(** X3.  A size that the calculation returns is a whole number of pages of
    the backing; for huge pages it therefore passes the alignment check of
    [__nsaas_channel_hugetlbfs_create], whose first system call is then
    [memfd_create]; a failed calculation, [(size_t)-1], is turned away by
    that check before any system call, the descriptor left as it was. *)
Theorem calculated_size_is_page_aligned
    (P : Platform) (os : OsOutcome) (name : string)
    (ns app bufn bs fd : Z) (posix : bool) :
  getpagesize P <> 0 ->
  let size := __nsaas_channel_dataplane_calculate_size P ns app bufn bs posix in
  let huge := __nsaas_channel_dataplane_calculate_size P ns app bufn bs false in
  (size <> SIZE_MAX -> size mod kPageSize_of P posix = 0)
  /\ (huge <> SIZE_MAX ->
      exists rest,
        (__nsaas_channel_hugetlbfs_create os name huge fd).2
        = sys_memfd_create name :: rest)
  /\ (huge = SIZE_MAX ->
      __nsaas_channel_hugetlbfs_create os name huge fd = (None, fd, [])).
Proof.
  intros Hpage size huge. split; [| split].
  - intros Hs. destruct (calculate_size_is_aligned P ns app bufn bs posix Hs)
      as (x & E). subst size. rewrite E. apply ALIGN_TO_PAGE_SIZE_mod.
    destruct posix; [exact Hpage | discriminate].
  - intros Hs. destruct (calculate_size_is_aligned P ns app bufn bs false Hs)
      as (x & E). subst huge. rewrite E.
    unfold __nsaas_channel_hugetlbfs_create.
    assert (Hland : Z.land (ALIGN_TO_PAGE_SIZE x (kPageSize_of P false))
                      (HUGE_PAGE_2M_SIZE - 1) = 0).
    { change (HUGE_PAGE_2M_SIZE - 1) with (Z.ones 21).
      rewrite Z.land_ones by lia.
      change (2 ^ 21) with (kPageSize_of P false).
      now apply ALIGN_TO_PAGE_SIZE_mod. }
    rewrite Hland. cbn [Z.eqb negb].
    destruct (memfd_create_fd os <? 0); [cbn; eauto |].
    destruct (hugetlb_ftruncate_ok os); [| cbn; eauto].
    destruct (hugetlb_mmap_ok os); [| cbn; eauto].
    destruct (hugetlb_mlock_ok os); cbn; eauto.
  - intros ->. reflexivity.
Qed.

Lemma calculated_size_is_page_aligned_witness :
  let size :=
    __nsaas_channel_dataplane_calculate_size example_platform 256 256 4096
      1024 true in
  let huge :=
    __nsaas_channel_dataplane_calculate_size example_platform 256 256 4096
      1024 false in
  size mod 4096 = 0
  /\ (exists rest,
        (__nsaas_channel_hugetlbfs_create all_ok "c0" huge (-1)).2
        = sys_memfd_create "c0" :: rest)
  /\ __nsaas_channel_hugetlbfs_create all_ok "c0"
       (__nsaas_channel_dataplane_calculate_size example_platform 3 256 4096
          1024 false) 7
     = (None, 7, []).
Proof.
  intros size huge.
  destruct (calculated_size_is_page_aligned example_platform all_ok "c0"
              256 256 4096 1024 (-1) true) as (H1 & H2 & _); [discriminate |].
  destruct (calculated_size_is_page_aligned example_platform all_ok "c0"
              3 256 4096 1024 7 false) as (_ & _ & H3); [discriminate |].
  split; [apply H1; vm_compute; discriminate |].
  split; [apply H2; vm_compute; discriminate |].
  apply H3. reflexivity.
Defined.

(** ** More on the creators of the backing memory *)

(** X4.  [__nsaas_channel_posix_create] returns a mapping exactly when
    [shm_open], [ftruncate], [mmap] and [mlock] all succeed; it then leaves
    the descriptor in [*shm_fd] and has made these four calls and no other.
    When it returns [NULL], [*shm_fd] is negative whatever it held before;
    when the object had been opened, [*shm_fd] is -1, the last two calls are
    [close] and [shm_unlink] of the name, and [munmap] is called exactly
    when the mapping had been made. *)
Theorem posix_create_outcome
    (os : OsOutcome) (name : string) (size fd0 : Z) :
  let r := __nsaas_channel_posix_create os name size fd0 in
  let fd := shm_open_fd os in
  (is_Some r.1.1 <->
   0 <= fd /\ shm_ftruncate_ok os = true /\ shm_mmap_ok os = true
   /\ shm_mlock_ok os = true)
  /\ (is_Some r.1.1 ->
      r.1.2 = fd
      /\ r.2 = [sys_shm_open name; sys_ftruncate fd size; sys_mmap fd size;
                sys_mlock size])
  /\ (r.1.1 = None -> r.1.2 < 0)
  /\ (r.1.1 = None -> 0 <= fd ->
      r.1.2 = -1
      /\ exists pre,
           r.2 = sys_shm_open name :: pre
                 ++ [sys_close fd; sys_shm_unlink name]
           /\ (In (sys_munmap size) pre <->
               shm_ftruncate_ok os = true /\ shm_mmap_ok os = true)).
Proof.
  intros r fd. subst r fd. unfold __nsaas_channel_posix_create. cbv zeta.
  destruct (Z.ltb_spec (shm_open_fd os) 0) as [Hfd | Hfd];
    [| destruct (shm_ftruncate_ok os);
       [destruct (shm_mmap_ok os); [destruct (shm_mlock_ok os) |] |]];
    cbn [negb fst snd].
  - split; [split; [intros [? [=]] | lia] |].
    split; [intros [? [=]] |]. split; [lia | lia].
  - split; [split; [auto | eauto] |]. split; [auto |].
    split; discriminate.
  - split; [split; [intros [? [=]] | intros (_ & _ & _ & [=])] |].
    split; [intros [? [=]] |]. split; [lia |]. intros _ _.
    split; [reflexivity |].
    exists [sys_ftruncate (shm_open_fd os) size; sys_mmap (shm_open_fd os) size;
            sys_mlock size; sys_munmap size].
    split; [reflexivity |]. split; [auto |]. intros _. cbn. auto.
  - split; [split; [intros [? [=]] | intros (_ & _ & [=] & _)] |].
    split; [intros [? [=]] |]. split; [lia |]. intros _ _.
    split; [reflexivity |].
    exists [sys_ftruncate (shm_open_fd os) size; sys_mmap (shm_open_fd os) size].
    split; [reflexivity |].
    split; [cbn; intros [[=] | [[=] | []]] | intros [_ [=]]].
  - split; [split; [intros [? [=]] | intros (_ & [=] & _)] |].
    split; [intros [? [=]] |]. split; [lia |]. intros _ _.
    split; [reflexivity |].
    exists [sys_ftruncate (shm_open_fd os) size].
    split; [reflexivity |].
    split; [cbn; intros [[=] | []] | intros [[=] _]].
Qed.

(** X5.  [__nsaas_channel_hugetlbfs_create] never calls [shm_unlink]; it
    returns a mapping exactly when the size is a multiple of 2 MiB and
    [memfd_create], [ftruncate], [mmap] and [mlock] all succeed.  When it
    returns [NULL] after [memfd_create] gave a descriptor, [*shm_fd] is -1
    and the last call is the [close] of that descriptor; [munmap] is called
    exactly when the mapping had been made. *)
Theorem hugetlbfs_create_outcome
    (os : OsOutcome) (name : string) (size fd0 : Z) :
  let r := __nsaas_channel_hugetlbfs_create os name size fd0 in
  let fd := memfd_create_fd os in
  let aligned := Z.land size (HUGE_PAGE_2M_SIZE - 1) = 0 in
  (is_Some r.1.1 <->
   aligned /\ 0 <= fd /\ hugetlb_ftruncate_ok os = true
   /\ hugetlb_mmap_ok os = true /\ hugetlb_mlock_ok os = true)
  /\ (is_Some r.1.1 ->
      r.1.2 = fd
      /\ r.2 = [sys_memfd_create name; sys_ftruncate fd size;
                sys_mmap fd size; sys_mlock size])
  /\ ~ In (sys_shm_unlink name) r.2
  /\ (r.1.1 = None -> aligned -> 0 <= fd ->
      r.1.2 = -1 /\ last r.2 = Some (sys_close fd)
      /\ (In (sys_munmap size) r.2 <->
          hugetlb_ftruncate_ok os = true /\ hugetlb_mmap_ok os = true)).
Proof.
  intros r fd aligned. subst r fd aligned.
  unfold __nsaas_channel_hugetlbfs_create. cbv zeta.
  destruct (Z.eqb_spec (Z.land size (HUGE_PAGE_2M_SIZE - 1)) 0) as [Ha | Ha];
    cbn [negb].
  2: { cbn [fst snd]. split; [split; [intros [? [=]] | tauto] |].
       split; [intros [? [=]] |]. split; [intros [] | tauto]. }
  destruct (Z.ltb_spec (memfd_create_fd os) 0) as [Hfd | Hfd];
    [| destruct (hugetlb_ftruncate_ok os);
       [destruct (hugetlb_mmap_ok os); [destruct (hugetlb_mlock_ok os) |] |]];
    cbn [negb fst snd].
  - split; [split; [intros [? [=]] | lia] |].
    split; [intros [? [=]] |].
    split; [cbn; intros [[=] | []] | lia].
  - split; [split; [auto | eauto] |]. split; [auto |].
    split; [cbn; intros [[=] | [[=] | [[=] | [[=] | []]]]] | discriminate].
  - split; [split; [intros [? [=]] | intros (_ & _ & _ & _ & [=])] |].
    split; [intros [? [=]] |].
    split; [cbn; intros [[=] | [[=] | [[=] | [[=] | [[=] | [[=] | []]]]]]] |].
    intros _ _ _. split; [reflexivity |]. split; [reflexivity |].
    split; [auto |]. intros _. cbn. auto 10.
  - split; [split; [intros [? [=]] | intros (_ & _ & _ & [=] & _)] |].
    split; [intros [? [=]] |].
    split; [cbn; intros [[=] | [[=] | [[=] | [[=] | []]]]] |].
    intros _ _ _. split; [reflexivity |]. split; [reflexivity |].
    split; [cbn; intros [[=] | [[=] | [[=] | [[=] | []]]]] | intros [_ [=]]].
  - split; [split; [intros [? [=]] | intros (_ & _ & [=] & _)] |].
    split; [intros [? [=]] |].
    split; [cbn; intros [[=] | [[=] | [[=] | []]]] |].
    intros _ _ _. split; [reflexivity |]. split; [reflexivity |].
    split; [cbn; intros [[=] | [[=] | [[=] | []]]] | intros [[=] _]].
Qed.

(** X6.  [__nsaas_channel_destroy] always calls [munmap] first, closes the
    descriptor exactly when it is not negative, and calls [shm_unlink]
    exactly for POSIX shared memory; it leaves a negative [*shm_fd], so a
    second call on the same variable closes nothing, yet unmaps and unlinks
    again. *)
Theorem destroy_closes_once
    (size fd : Z) (posix : bool) (name : string) :
  let d := __nsaas_channel_destroy size fd posix name in
  let d' := __nsaas_channel_destroy size d.1 posix name in
  d.1 < 0
  /\ (exists rest, d.2 = sys_munmap size :: rest)
  /\ (In (sys_close fd) d.2 <-> 0 <= fd)
  /\ (In (sys_shm_unlink name) d.2 <-> posix = true)
  /\ d'.1 = d.1
  /\ d'.2 = sys_munmap size
            :: (if posix then [sys_shm_unlink name] else []).
Proof.
  intros d d'. subst d d'. unfold __nsaas_channel_destroy. cbn [fst snd].
  destruct (Z.leb_spec 0 fd) as [Hfd | Hfd]; cbn [Z.leb Z.compare Z.opp].
  - split; [lia |]. split; [cbn; eauto |].
    split; [split; [auto | intros _; cbn; auto] |].
    split; [| split; [reflexivity | reflexivity]].
    destruct posix; cbn; split; auto; try discriminate.
    intros [[=] | [[=] | []]].
  - destruct (Z.leb_spec 0 fd) as [| _]; [lia |].
    split; [lia |]. split; [cbn; eauto |].
    split; [split; [| lia] |].
    { destruct posix; cbn; intros H;
        repeat (destruct H as [H | H]; try discriminate); destruct H. }
    split; [| split; [reflexivity | reflexivity]].
    destruct posix; cbn; split; auto; try discriminate.
    intros [[=] | []].
Qed.

(** ** More on [__nsaas_channel_create] *)

Ltac case_hugetlbfs os size :=
  unfold __nsaas_channel_hugetlbfs_create;
  destruct (Z.eqb_spec (Z.land size (HUGE_PAGE_2M_SIZE - 1)) 0);
  cbn [negb];
  [ destruct (Z.ltb_spec (memfd_create_fd os) 0);
    [| destruct (hugetlb_ftruncate_ok os);
       [destruct (hugetlb_mmap_ok os); [destruct (hugetlb_mlock_ok os) |] |]]
  | ];
  cbn [negb fst snd].

Ltac case_posix os :=
  unfold __nsaas_channel_posix_create;
  destruct (Z.ltb_spec (shm_open_fd os) 0);
  [| destruct (shm_ftruncate_ok os);
     [destruct (shm_mmap_ok os); [destruct (shm_mlock_ok os) |] |]];
  cbn [negb fst snd].

Ltac case_create_out P :=
  lazymatch goal with
  | |- context [create_out P ?os ?ch ?n ?a ?b ?c ?d ?sz ?px ?f ?cl] =>
      let Hok := fresh "Hok" in
      let r := fresh "r" in
      let E := fresh "E" in
      let Hi := fresh "Hi" in
      destruct (create_out_cases P os ch n a b c d sz px f cl)
        as [(Hok & r & E & Hi & ? & ? & ? & ?) | (Hok & E)];
      [ destruct (create_out P os ch n a b c d sz px f cl);
        cbn [cr_channel cr_mem_size cr_is_posix_shm cr_shm_fd cr_syscalls]
          in *; subst
      | rewrite E;
        cbn [cr_channel cr_mem_size cr_is_posix_shm cr_shm_fd cr_syscalls] ]
  end.

Lemma init_substeps_ok_size P size posix ns app bufn bs mok :
  init_substeps_ok P size posix ns app bufn bs mok = true ->
  __nsaas_channel_dataplane_calculate_size P ns app bufn bs posix <> SIZE_MAX
  /\ __nsaas_channel_dataplane_calculate_size P ns app bufn bs posix <= size.
Proof.
  intros H. apply init_substeps_ok_spec in H as (H & _).
  apply orb_false_iff in H as [H1 H2].
  rewrite Z.gtb_ltb in H1. apply Z.ltb_ge in H1. apply Z.eqb_neq in H2. auto.
Qed.

(** X7.  The out parameters of [__nsaas_channel_create].  When it returns
    a channel, [*shm_fd] is the descriptor of the backing that was mapped
    and is not negative, [*channel_mem_size] is the size calculated for the
    page size of that backing and is not [(size_t)-1], and the last system
    call is the [mlock] of the mapping.  When it returns [NULL], [*shm_fd]
    is negative, and [*channel_mem_size] is 0 if a mapping had been made and
    its initialisation failed, but the size calculated for POSIX shared
    memory if both creators failed.  [*is_posix_shm] is set exactly when the
    huge-page creator failed. *)
Theorem create_out_parameters
    (P : Platform) (os : OsOutcome) (name : string)
    (ns app bufn bs fd0 : Z) :
  let c := __nsaas_channel_create P os name ns app bufn bs fd0 in
  let size posix :=
    __nsaas_channel_dataplane_calculate_size P ns app bufn bs posix in
  let h := __nsaas_channel_hugetlbfs_create os name (size false) fd0 in
  let p := __nsaas_channel_posix_create os name (size true) h.1.2 in
  (is_Some (cr_channel c) ->
   0 <= cr_shm_fd c
   /\ cr_shm_fd c
      = (if cr_is_posix_shm c then shm_open_fd os else memfd_create_fd os)
   /\ cr_mem_size c = size (cr_is_posix_shm c)
   /\ cr_mem_size c <> SIZE_MAX
   /\ last (cr_syscalls c) = Some (sys_mlock (cr_mem_size c)))
  /\ (cr_channel c = None ->
      cr_shm_fd c < 0
      /\ (cr_mem_size c = 0 /\ (is_Some h.1.1 \/ is_Some p.1.1)
          \/ cr_mem_size c = size true /\ h.1.1 = None /\ p.1.1 = None))
  /\ (cr_is_posix_shm c = true <-> h.1.1 = None).
Proof.
  intros c size h p. subst c h p. unfold __nsaas_channel_create. cbv zeta.
  fold (size false). fold (size true).
  case_hugetlbfs os (size false).
  all: try (case_posix os).
  all: try (case_create_out P).
  all: cbn [fst snd cr_channel cr_mem_size cr_is_posix_shm cr_shm_fd
            cr_syscalls].
  all: (split; [intros Hs | split; [intros Hn | ]]).
  all: try (destruct Hs as [? [=]]).
  all: try discriminate Hn.
  all: try (split; [intros [=] | intros [=]]; fail).
  all: try (split; [reflexivity | reflexivity]; fail).
  all: try match goal with
       | Hok : init_substeps_ok _ _ _ _ _ _ _ _ = true |- _ =>
           apply init_substeps_ok_size in Hok as [Hne _]
       end.
  all: try (split; [lia | split; [reflexivity | split; [reflexivity |
              split; [exact Hne | reflexivity]]]]; fail).
  all: unfold __nsaas_channel_destroy; cbn [fst snd].
  all: try (split; [ | left; split; [reflexivity | eauto]];
            destruct (0 <=? _) eqn:Ez; lia).
  all: try (split; [lia | right; auto]; fail).
Qed.

Ltac solve_In :=
  cbn; repeat first [left; reflexivity | right].

Ltac solve_not_In :=
  let H := fresh "H" in
  cbn; intros H;
  repeat (destruct H as [H | H]; [discriminate H |]); destruct H.

(** X8.  A creation that returns [NULL] leaves nothing behind.  When the
    huge-page mapping had been made and its initialisation failed, the
    mapping is unmapped, the last call closes its descriptor, and POSIX
    shared memory is not tried.  When the huge-page creator failed and
    [shm_open] had created the object, its descriptor is closed and the last
    call unlinks the name.  A descriptor that [memfd_create] gave is closed
    in either case. *)
Theorem failed_create_releases
    (P : Platform) (os : OsOutcome) (name : string)
    (ns app bufn bs fd0 : Z) :
  let c := __nsaas_channel_create P os name ns app bufn bs fd0 in
  let size posix :=
    __nsaas_channel_dataplane_calculate_size P ns app bufn bs posix in
  let h := __nsaas_channel_hugetlbfs_create os name (size false) fd0 in
  cr_channel c = None ->
  (is_Some h.1.1 ->
   ~ In (sys_shm_open name) (cr_syscalls c)
   /\ In (sys_munmap (size false)) (cr_syscalls c)
   /\ last (cr_syscalls c) = Some (sys_close (memfd_create_fd os)))
  /\ (h.1.1 = None -> 0 <= shm_open_fd os ->
      In (sys_close (shm_open_fd os)) (cr_syscalls c)
      /\ last (cr_syscalls c) = Some (sys_shm_unlink name))
  /\ (Z.land (size false) (HUGE_PAGE_2M_SIZE - 1) = 0 ->
      0 <= memfd_create_fd os ->
      In (sys_close (memfd_create_fd os)) (cr_syscalls c)).
Proof.
  intros c size h. subst c h. unfold __nsaas_channel_create. cbv zeta.
  fold (size false). fold (size true).
  case_hugetlbfs os (size false).
  all: try (case_posix os).
  all: try (case_create_out P).
  all: cbn [fst snd cr_channel cr_mem_size cr_is_posix_shm cr_shm_fd
            cr_syscalls].
  all: intros Hnone; try discriminate Hnone.
  all: unfold __nsaas_channel_destroy; cbn [fst snd].
  all: repeat match goal with
       | H : 0 <= ?x |- context [0 <=? ?x] =>
           destruct (Z.leb_spec 0 x); [| lia]
       end.
  all: (split; [intros Hs | split; [intros Hn Hfd | intros Ha Hfd]]).
  all: try (destruct Hs as [? [=]]).
  all: try discriminate Hn.
  all: try lia.
  all: try (split; [solve_not_In | split; [solve_In | reflexivity]]; fail).
  all: try (split; [solve_In | reflexivity]; fail).
  all: try (solve_In; fail).
Qed.

Lemma failed_create_releases_witness :
  (let c := __nsaas_channel_create example_platform malloc_fails "c0"
              2 2 4 64 (-1) in
   ~ In (sys_shm_open "c0") (cr_syscalls c)
   /\ last (cr_syscalls c) = Some (sys_close (memfd_create_fd malloc_fails)))
  /\ (let c := __nsaas_channel_create example_platform
                 no_huge_pages_malloc_fails "c0" 2 2 4 64 (-1) in
      last (cr_syscalls c) = Some (sys_shm_unlink "c0")).
Proof.
  split.
  - intros c.
    destruct (failed_create_releases example_platform malloc_fails "c0"
                2 2 4 64 (-1)) as (H & _ & _); [reflexivity |].
    destruct H as (H1 & _ & H2); [vm_compute; eauto |]. auto.
  - intros c.
    destruct (failed_create_releases example_platform
                no_huge_pages_malloc_fails "c0" 2 2 4 64 (-1))
      as (_ & H & _); [reflexivity |].
    destruct H as (_ & H2); [reflexivity | vm_compute; discriminate |].
    exact H2.
Defined.

(** ** More on the initialisation *)

Lemma substring_0_length n : forall s,
  (String.length (String.substring 0 n s) <= n)%nat.
Proof.
  induction n as [|n IH]; intros [|c s]; cbn; try lia.
  specialize (IH s). lia.
Qed.

(** X9.  The guard of the initialisation: when the calculated size exceeds
    the size of the mapping, or the calculation fails, the function returns
    -1 and has written nothing to the mapping. *)
Theorem init_rejects_small_mapping
    (P : Platform) (shm_size : Z) (posix : bool) (name : string)
    (ns app bufn bs : Z) (mt mok : bool) (s : IState) :
  let total :=
    __nsaas_channel_dataplane_calculate_size P ns app bufn bs posix in
  shm_size < total \/ total = SIZE_MAX ->
  run (__nsaas_channel_dataplane_init P shm_size posix name ns app bufn bs
         mt mok) s
  = (-1, s).
Proof.
  intros total Hbad. unfold run, __nsaas_channel_dataplane_init. cbv zeta.
  fold total.
  assert (E : (total >? shm_size) || (total =? SIZE_MAX) = true).
  { apply orb_true_iff. rewrite Z.gtb_ltb, Z.ltb_lt, Z.eqb_eq. exact Hbad. }
  unfold mbind at 1, M_bind at 1. rewrite E. reflexivity.
Qed.

Lemma init_rejects_small_mapping_witness :
  run (__nsaas_channel_dataplane_init example_platform (small_size - 1) true
         "c0" 2 2 4 64 false true) (Region_zero, [])
  = (-1, (Region_zero, []))
  /\ run (__nsaas_channel_dataplane_init example_platform small_size true
            "c0" 3 2 4 64 false true) (Region_zero, [])
     = (-1, (Region_zero, [])).
Proof.
  split; apply init_rejects_small_mapping.
  - left. vm_compute. reflexivity.
  - right. vm_compute. reflexivity.
Defined.

(** X10.  The context that a successful initialisation leaves: the version,
    the calculated size, which fits the mapping, the name cut to 63
    characters, the request counter at 0, and the statistics and the rings
    in a row after the context: each offset is the one before plus the
    bytes of what lies there, the control rings counted with the size of a
    ring slot; the pool starts at the end of the free ring rounded up to
    the page size of the backing. *)
Theorem init_records_layout
    (P : Platform) (shm_size : Z) (posix : bool) (name : string)
    (ns app bufn bs : Z) (mt mok : bool) (s : IState) :
  let res :=
    run (__nsaas_channel_dataplane_init P shm_size posix name ns app bufn bs
           mt mok) s in
  let r := res.2.1 in
  let bytes n := jring_get_buf_ring_size P sizeof_NSaaSRingSlot_t n in
  res.1 = 0 ->
  (hdr r ctx_version = NSAAS_CHANNEL_VERSION P
   /\ hdr r ctx_size
      = __nsaas_channel_dataplane_calculate_size P ns app bufn bs posix
   /\ hdr r ctx_size <= shm_size /\ hdr r ctx_size <> SIZE_MAX
   /\ ctx_name r = String.substring 0 63 name
   /\ (String.length (ctx_name r) <= 63)%nat
   /\ hdr r ctrl_ctx_req_id = 0
   /\ stats_zeroed r = true)
  /\ hdr r stats_ofs = sizeof_NSaaSChannelCtx_t P
  /\ hdr r ctrl_sq_ring_ofs
     = wrap64 (hdr r stats_ofs + sizeof_NSaaSChannelStats_t P)
  /\ hdr r ctrl_cq_ring_ofs = wrap64 (hdr r ctrl_sq_ring_ofs + bytes 2)
  /\ hdr r nsaas_ring_ofs = wrap64 (hdr r ctrl_cq_ring_ofs + bytes 2)
  /\ hdr r app_ring_ofs = wrap64 (hdr r nsaas_ring_ofs + bytes ns)
  /\ hdr r buf_ring_ofs = wrap64 (hdr r app_ring_ofs + bytes app)
  /\ hdr r buf_pool_ofs
     = ALIGN_TO_PAGE_SIZE (wrap64 (hdr r buf_ring_ofs + bytes bufn))
         (kPageSize_of P posix)
  /\ (kPageSize_of P posix | hdr r buf_pool_ofs).
Proof.
  intros res r bytes H0. subst res r bytes.
  destruct (init_layout_result P shm_size posix name ns app bufn bs mt mok s
              H0) as [((Hv & Hs & Hfit & Hn & Hq & Hst) & Hofs & _) Hok].
  cbv zeta in Hs, Hfit.
  apply init_substeps_ok_size in Hok as [Hne _].
  destruct Hofs as (O1 & O2 & O3 & O4 & O5 & O6 & O7).
  split.
  { rewrite Hs, Hn. repeat split; auto. apply substring_0_length. }
  repeat split; try assumption.
  rewrite O7. unfold ALIGN_TO_PAGE_SIZE. apply Z.divide_factor_r.
Qed.

Lemma init_records_layout_witness :
  let r :=
    (run (__nsaas_channel_dataplane_init example_platform small_size true
            "c0" 2 2 4 64 false true) (Region_zero, [])).2.1 in
  hdr r stats_ofs = 192 /\ hdr r ctrl_sq_ring_ofs = 256
  /\ hdr r ctrl_cq_ring_ofs = 392 /\ hdr r nsaas_ring_ofs = 528
  /\ hdr r app_ring_ofs = 664 /\ hdr r buf_ring_ofs = 800
  /\ hdr r buf_pool_ofs = 4096 /\ hdr r ctx_size = 8192.
Proof.
  intros r.
  destruct (init_records_layout example_platform small_size true "c0"
              2 2 4 64 false true (Region_zero, []))
    as ((_ & Hs & _) & O1 & O2 & O3 & O4 & O5 & O6 & O7 & _);
    [vm_compute; reflexivity |].
  fold r in Hs, O1, O2, O3, O4, O5, O6, O7.
  rewrite O7, O6, O5, O4, O3, O2, O1, Hs. vm_compute. repeat split.
Defined.

(** X11.  The four rings for control and for messages after a successful
    initialisation: each is empty, holds one entry less than it has slots,
    and has the flags the initialisation passes: the side of the stack
    follows [is_multithread], the side of the application is always
    multi-threaded, and the submission ring of the control path has a
    single consumer, its completion ring a single producer. *)
Theorem init_leaves_rings_empty
    (P : Platform) (shm_size : Z) (posix : bool) (name : string)
    (ns app bufn bs : Z) (mt mok : bool) (s : IState) :
  let res :=
    run (__nsaas_channel_dataplane_init P shm_size posix name ns app bufn bs
           mt mok) s in
  let r := res.2.1 in
  let ring count esize prod cons :=
    {| jr_size := count; jr_mask := count - 1; capacity := count - 1;
       jr_esize := esize; jr_prod_flag := prod; jr_cons_flag := cons;
       jr_entries := [] |} in
  res.1 = 0 ->
  rings r ctrl_sq_ring = ring 2 (sizeof_NSaaSCtrlQueueEntry_t P) mt false
  /\ rings r ctrl_cq_ring = ring 2 (sizeof_NSaaSCtrlQueueEntry_t P) false mt
  /\ rings r nsaas_ring = ring ns 4 mt true
  /\ rings r app_ring = ring app 4 true mt.
Proof.
  intros res r ring H0. subst res r ring.
  destruct (init_layout_result P shm_size posix name ns app bufn bs mt mok s
              H0) as [(_ & _ & (R1 & R2 & R3 & R4) & _) Hok].
  apply init_substeps_ok_spec in Hok
    as (_ & C1 & C2 & C3 & C4 & _). cbv zeta in *.
  assert (Hring : forall count esize prod cons,
            (jring_init jring_zero count esize false false).1 = 0 ->
            ring_of count esize prod cons
            = {| jr_size := count; jr_mask := count - 1;
                 capacity := count - 1; jr_esize := esize;
                 jr_prod_flag := prod; jr_cons_flag := cons;
                 jr_entries := [] |}).
  { intros count esize prod cons. unfold ring_of, jring_init.
    destruct (_ || _); [discriminate | reflexivity]. }
  rewrite R1, R2, R3, R4.
  repeat split; apply Hring; assumption.
Qed.

Lemma init_leaves_rings_empty_witness :
  let r :=
    (run (__nsaas_channel_dataplane_init example_platform small_size true
            "c0" 2 2 4 64 false true) (Region_zero, [])).2.1 in
  jring_count (rings r nsaas_ring) = 0 /\ capacity (rings r nsaas_ring) = 1
  /\ jring_count (rings r app_ring) = 0
  /\ jr_prod_flag (rings r app_ring) = true
  /\ jr_cons_flag (rings r ctrl_sq_ring) = false.
Proof.
  intros r.
  destruct (init_leaves_rings_empty example_platform small_size true "c0"
              2 2 4 64 false true (Region_zero, []))
    as (R1 & R2 & R3 & R4); [vm_compute; reflexivity |].
  fold r in R1, R2, R3, R4. rewrite R1, R3, R4. repeat split.
Defined.

(** X12.  A successful initialisation writes the header of no buffer at or
    beyond the capacity of the free ring, which is one less than the number
    of slots asked for: the last slot of the pool that the size calculation
    counts is left as it was. *)
Theorem init_skips_last_pool_slot
    (P : Platform) (shm_size : Z) (posix : bool) (name : string)
    (ns app bufn bs : Z) (mt mok : bool) (r0 : Region) (log0 : list store) :
  let res :=
    run (__nsaas_channel_dataplane_init P shm_size posix name ns app bufn bs
           mt mok) (r0, log0) in
  res.1 = 0 ->
  hdr res.2.1 buf_pool_mask = bufn - 1
  /\ (forall i, ~ 0 <= i < bufn - 1 -> bufs res.2.1 i = bufs r0 i)
  /\ bufs res.2.1 (bufn - 1) = bufs r0 (bufn - 1).
Proof.
  intros res H0. subst res.
  destruct (init_layout_result P shm_size posix name ns app bufn bs mt mok
              (r0, log0) H0) as [(_ & _ & _ & Hb) Hok].
  destruct (init_result P shm_size posix name ns app bufn bs mt mok
              (r0, log0)) as [(_ & _ & Hi) | (Hne & _)]; [| contradiction].
  destruct Hi as (_ & Hmask & _). cbv zeta in Hmask.
  apply init_substeps_ok_spec in Hok as (_ & _ & _ & _ & _ & C5 & _).
  cbv zeta in C5.
  assert (Hcap : capacity (free_ring_of bufn) = bufn - 1).
  { unfold free_ring_of.
    apply jring_init_ok_capacity.
    rewrite jring_init_code_indep. exact C5. }
  cbn [fst] in Hb. rewrite Hcap in Hb, Hmask.
  split; [exact Hmask |]. split; [exact Hb |]. apply Hb. lia.
Qed.

Lemma init_skips_last_pool_slot_witness :
  let r :=
    (run (__nsaas_channel_dataplane_init example_platform small_size true
            "c0" 2 2 4 64 false true) (Region_zero, [])).2.1 in
  hdr r buf_pool_mask = 3 /\ bufs r 3 = MsgBufHdr_zero.
Proof.
  intros r.
  destruct (init_skips_last_pool_slot example_platform small_size true "c0"
              2 2 4 64 false true Region_zero [])
    as (H1 & _ & H3); [vm_compute; reflexivity |].
  split; [exact H1 | exact H3].
Defined.

Lemma replay_keeps_magic v l : forall r,
  forallb (fun e => match e with
                    | StCtx ctx_magic w => w =? v
                    | _ => true
                    end) l = true ->
  hdr r ctx_magic = v -> hdr (replay r l) ctx_magic = v.
Proof.
  induction l as [|e l IH]; intros r Hl Hr; [exact Hr |].
  cbn [forallb] in Hl. apply andb_prop in Hl as [He Hl].
  change (replay r (e :: l)) with (replay (apply_store r e) l).
  apply IH; [exact Hl |].
  destruct e as [f w| | | | | | | |]; try exact Hr.
  destruct f; try exact Hr.
  cbn. rewrite fn_lookup_insert. now apply Z.eqb_eq.
Qed.

Lemma no_magic_keeps v l :
  no_magic l = true ->
  forallb (fun e => match e with
                    | StCtx ctx_magic w => w =? v
                    | _ => true
                    end) l = true.
Proof.
  unfold no_magic. rewrite !forallb_forall. intros H e He.
  specialize (H e He). destruct e as [f w| | | | | | | |]; try reflexivity.
  destruct f; try reflexivity. discriminate.
Qed.

(** X13.  The initialisation never clears the magic.  On a region that
    carries the magic already, a peer sees the magic after every prefix of
    the writes of a second initialisation, whether it succeeds or fails,
    and so also while the context and the rings are being rewritten. *)
Theorem init_never_clears_magic
    (P : Platform) (shm_size : Z) (posix : bool) (name : string)
    (ns app bufn bs : Z) (mt mok : bool) (r0 : Region) (log0 : list store) :
  let res :=
    run (__nsaas_channel_dataplane_init P shm_size posix name ns app bufn bs
           mt mok) (r0, log0) in
  hdr r0 ctx_magic = NSAAS_CHANNEL_CTX_MAGIC P ->
  exists new,
    res.2 = (replay r0 new, log0 ++ new)
    /\ forall k,
         hdr (replay r0 (take k new)) ctx_magic = NSAAS_CHANNEL_CTX_MAGIC P.
Proof.
  intros res Hm. subst res.
  destruct (init_trace P shm_size posix name ns app bufn bs mt mok (r0, log0))
    as (new & E & T0 & T1). cbv zeta in *. cbn [fst snd] in E.
  exists new. split; [exact E |]. intros k.
  apply replay_keeps_magic; [| exact Hm].
  assert (Hall : forallb (fun e => match e with
                    | StCtx ctx_magic w => w =? NSAAS_CHANNEL_CTX_MAGIC P
                    | _ => true
                    end) new = true).
  { destruct (Z.eq_dec
      (run (__nsaas_channel_dataplane_init P shm_size posix name ns app bufn
              bs mt mok) (r0, log0)).1 0) as [R | R].
    - destruct (T0 R) as (pre & -> & Np).
      rewrite forallb_app, (no_magic_keeps _ _ Np). cbn.
      now rewrite Z.eqb_refl.
    - apply no_magic_keeps. auto. }
  rewrite <- (take_drop k new) in Hall. rewrite forallb_app in Hall.
  now apply andb_prop in Hall.
Qed.

Lemma init_never_clears_magic_witness :
  let r0 :=
    apply_store Region_zero
      (StCtx ctx_magic (NSAAS_CHANNEL_CTX_MAGIC example_platform)) in
  let res :=
    run (__nsaas_channel_dataplane_init example_platform small_size true
           "c1" 2 2 4 64 false false) (r0, []) in
  exists new,
    res.2 = (replay r0 new, [] ++ new)
    /\ forall k,
         hdr (replay r0 (take k new)) ctx_magic
         = NSAAS_CHANNEL_CTX_MAGIC example_platform.
Proof.
  intros r0 res.
  apply (init_never_clears_magic example_platform small_size true "c1"
           2 2 4 64 false false r0 []).
  reflexivity.
Defined.

(** ** The pool and the calculated size *)

Section PoolFacts.
Variable P : Platform.
Hypothesis HP : PlatformOk P.

Lemma ring_bytes_value n :
  power_of_two n -> n <= 2 ^ 31 ->
  jring_get_buf_ring_size P sizeof_NSaaSRingSlot_t n = sizeof_jring P + 4 * n.
Proof.
  intros (k & Hk & ->) Hn. unfold jring_get_buf_ring_size.
  assert (0 < 2 ^ k) by (apply Z.pow_pos_nonneg; lia).
  rewrite IS_POW2_power by exact Hk.
  destruct (Z.eqb_spec (2 ^ k) 0); [lia |]. cbn [orb negb].
  change (sizeof_NSaaSRingSlot_t =? 0) with false. cbn [orb].
  change sizeof_NSaaSRingSlot_t with 4.
  pose proof (sizeof_jring_range P HP).
  change (2 ^ 31) with 2147483648 in Hn.
  change (2 ^ 32) with 4294967296 in *.
  rewrite (wrap64_small (2 ^ k * 4))
    by (change (2 ^ 64) with 18446744073709551616; lia).
  rewrite wrap64_small
    by (change (2 ^ 64) with 18446744073709551616; lia).
  lia.
Qed.

Lemma ALIGN_TO_PAGE_SIZE_value x p :
  0 < p -> 0 <= x -> x + p <= 2 ^ 64 ->
  x <= ALIGN_TO_PAGE_SIZE x p < x + p.
Proof.
  intros Hp Hx Hb. unfold ALIGN_TO_PAGE_SIZE.
  rewrite wrap64_small by lia.
  pose proof (Z.mul_div_le (x + (p - 1)) p Hp).
  pose proof (Z.mul_succ_div_gt (x + (p - 1)) p Hp).
  lia.
Qed.

Lemma ALIGN_TO_PAGE_SIZE_mono x y p :
  0 < p -> 0 <= x <= y -> y + p <= 2 ^ 64 ->
  ALIGN_TO_PAGE_SIZE x p <= ALIGN_TO_PAGE_SIZE y p.
Proof.
  intros Hp Hx Hb. unfold ALIGN_TO_PAGE_SIZE.
  rewrite !wrap64_small by lia.
  apply Z.mul_le_mono_nonneg_r; [lia |].
  apply Z.div_le_mono; lia.
Qed.

Lemma total_buffer_size_bound bs :
  0 <= bs <= 2 ^ 30 ->
  2 <= bs + NSAAS_MSGBUF_SPACE_RESERVED P + NSAAS_MSGBUF_HEADROOM_MAX P ->
  2 <= total_buffer_size_of P bs < 2 ^ 32.
Proof.
  intros Hbs Hx. unfold total_buffer_size_of.
  pose proof (reserved_range P HP). pose proof (headroom_range P HP).
  change (2 ^ 30) with 1073741824 in Hbs.
  change (2 ^ 16) with 65536 in *.
  rewrite wrap64_small
    by (change (2 ^ 64) with 18446744073709551616; lia).
  destruct (ROUNDUP_U64_POW2_value
              (bs + NSAAS_MSGBUF_SPACE_RESERVED P
               + NSAAS_MSGBUF_HEADROOM_MAX P)) as (-> & Hk & Hlo & Hhi).
  { change (2 ^ 63) with 9223372036854775808. lia. }
  set (k := Z.log2 _) in *.
  assert (E : 2 ^ (k + 1) = 2 * 2 ^ k)
    by (rewrite Z.pow_add_r by lia; change (2 ^ 1) with 2; lia).
  change (2 ^ 32) with 4294967296. lia.
Qed.

Lemma kPageSize_range posix : 2 <= kPageSize_of P posix <= 2 ^ 30.
Proof.
  destruct (kPageSize_pow2 P HP posix) as (k & Hk & ->).
  split.
  - change 2 with (2 ^ 1) at 1. apply Z.pow_le_mono_r; lia.
  - apply Z.pow_le_mono_r; lia.
Qed.

(** The pool offset, the size and the stride that a successful
    initialisation records, where nothing wraps. *)
Lemma pool_layout_values shm_size posix name ns app bufn bs mt mok s :
  0 <= ns <= 2 ^ 31 -> 0 <= app <= 2 ^ 31 -> 0 <= bufn <= 2 ^ 31 ->
  0 <= bs ->
  2 <= bs + NSAAS_MSGBUF_SPACE_RESERVED P + NSAAS_MSGBUF_HEADROOM_MAX P ->
  let res :=
    run (__nsaas_channel_dataplane_init P shm_size posix name ns app bufn bs
           mt mok) s in
  let r := res.2.1 in
  let bytes n := jring_get_buf_ring_size P sizeof_NSaaSRingSlot_t n in
  let header :=
    sizeof_NSaaSChannelCtx_t P + sizeof_NSaaSChannelStats_t P + bytes ns
    + bytes app + bytes bufn in
  let p := kPageSize_of P posix in
  let slot := total_buffer_size_of P bs in
  res.1 = 0 ->
  (0 <= header <= 2 ^ 36 /\ 2 <= p <= 2 ^ 30 /\ 2 <= slot < 2 ^ 32)
  /\ hdr r buf_size = slot
  /\ hdr r buf_pool_ofs
     = ALIGN_TO_PAGE_SIZE (header + 2 * (sizeof_jring P + 8)) p
  /\ hdr r ctx_size
     = ALIGN_TO_PAGE_SIZE (ALIGN_TO_PAGE_SIZE header p + bufn * slot) p
  /\ hdr r ctx_size <= shm_size.
Proof.
  intros Hns Happ Hbufn Hbs Hx res r bytes header p slot H0.
  subst res r bytes header p slot.
  destruct (init_layout_result P shm_size posix name ns app bufn bs mt mok s
              H0) as [((_ & Hs & Hfit & _) & Hofs & _) Hok].
  destruct (init_result P shm_size posix name ns app bufn bs mt mok s)
    as [(_ & _ & Hi) | (Hne & _)]; [| contradiction].
  destruct Hi as (_ & _ & Hsize & _).
  cbv zeta in Hs, Hfit.
  apply init_substeps_ok_size in Hok as [Hne _].
  assert (B31 : 2 ^ 31 < 2 ^ 64) by (apply Z.pow_lt_mono_r; lia).
  destruct (calculate_size_ok_inv P ns app bufn bs posix
              ltac:(lia) ltac:(lia) ltac:(lia) Hne)
    as (Pns & Papp & Pbufn & Hpage).
  pose proof (kPageSize_range posix) as Hp.
  pose proof (total_buffer_size_bound bs ltac:(lia) Hx) as Ht.
  pose proof (ring_bytes_value ns Pns ltac:(lia)) as Rns.
  pose proof (ring_bytes_value app Papp ltac:(lia)) as Rapp.
  pose proof (ring_bytes_value bufn Pbufn ltac:(lia)) as Rbufn.
  assert (R2 : jring_get_buf_ring_size P sizeof_NSaaSRingSlot_t 2
               = sizeof_jring P + 4 * 2).
  { apply ring_bytes_value; [exists 1; split; [lia | reflexivity] |].
    change (2 ^ 31) with 2147483648. lia. }
  pose proof (sizeof_ctx_range P HP). pose proof (sizeof_stats_range P HP).
  pose proof (sizeof_jring_range P HP).
  destruct Hofs as (O1 & O2 & O3 & O4 & O5 & O6 & O7).
  unfold ring_bytes in *.
  change NSAAS_CHANNEL_CTRL_CQ_SLOT_NR with 2 in *.
  change NSAAS_CHANNEL_CTRL_SQ_SLOT_NR with 2 in *.
  rewrite Rns, Rapp, Rbufn, R2 in *.
  change (2 ^ 30) with 1073741824 in *.
  change (2 ^ 31) with 2147483648 in *.
  change (2 ^ 32) with 4294967296 in *.
  change (2 ^ 36) with 68719476736 in *.
  assert (B64 : 2 ^ 64 = 18446744073709551616) by reflexivity.
  rewrite O1 in O2. rewrite wrap64_small in O2 by lia.
  rewrite O2 in O3. rewrite wrap64_small in O3 by lia.
  rewrite O3 in O4. rewrite wrap64_small in O4 by lia.
  rewrite O4 in O5. rewrite wrap64_small in O5 by lia.
  rewrite O5 in O6. rewrite wrap64_small in O6 by lia.
  rewrite O6 in O7. rewrite wrap64_small in O7 by lia.
  split; [lia |].
  split; [rewrite Hsize; unfold wrap32; apply Z.mod_small; lia |].
  split; [rewrite O7; f_equal; lia |].
  split; [| lia].
  rewrite Hs. clear Hs Hfit Hne.
  unfold __nsaas_channel_dataplane_calculate_size.
  assert (I1 : IS_POW2 ns = true)
    by (destruct Pns as (k & ? & ->); now apply IS_POW2_power).
  assert (I2 : IS_POW2 app = true)
    by (destruct Papp as (k & ? & ->); now apply IS_POW2_power).
  assert (I3 : IS_POW2 bufn = true)
    by (destruct Pbufn as (k & ? & ->); now apply IS_POW2_power).
  rewrite I1, I2, I3. cbn [negb orb].
  destruct (Z.gtb_spec bs (kPageSize_of P posix)); [lia |].
  cbn [add_ring_sizes]. rewrite Rns, Rapp, Rbufn.
  unfold SIZE_MAX.
  destruct (Z.eqb_spec (sizeof_jring P + 4 * ns) (2 ^ 64 - 1)); [lia |].
  destruct (Z.eqb_spec (sizeof_jring P + 4 * app) (2 ^ 64 - 1)); [lia |].
  destruct (Z.eqb_spec (sizeof_jring P + 4 * bufn) (2 ^ 64 - 1)); [lia |].
  cbv zeta.
  rewrite (wrap64_small (sizeof_NSaaSChannelCtx_t P
                         + sizeof_NSaaSChannelStats_t P)) by lia.
  rewrite (wrap64_small (_ + (sizeof_jring P + 4 * ns))) by lia.
  rewrite (wrap64_small (_ + (sizeof_jring P + 4 * app))) by lia.
  rewrite (wrap64_small (_ + (sizeof_jring P + 4 * bufn))) by lia.
  match goal with
  | |- context [ALIGN_TO_PAGE_SIZE ?h (kPageSize_of P posix) + _] =>
      pose proof (ALIGN_TO_PAGE_SIZE_value h (kPageSize_of P posix)
                    ltac:(lia) ltac:(lia) ltac:(lia)) as HA
  end.
  assert (0 <= bufn * total_buffer_size_of P bs <= 2147483648 * 4294967296)
    by nia.
  rewrite (wrap64_small (bufn * _)) by lia.
  rewrite (wrap64_small (_ + bufn * _)) by lia.
  reflexivity.
Qed.

Lemma ALIGN_TO_PAGE_SIZE_multiple x p :
  0 < p -> 0 <= x -> x + p <= 2 ^ 64 -> (p | x) ->
  ALIGN_TO_PAGE_SIZE x p = x.
Proof.
  intros Hp Hx Hb [q ->].
  pose proof (ALIGN_TO_PAGE_SIZE_value (q * p) p Hp Hx Hb) as Hv.
  unfold ALIGN_TO_PAGE_SIZE in *.
  set (d := wrap64 (q * p + (p - 1)) / p) in *. clearbody d. clear Hb Hx.
  assert (E : d = q) by nia. now rewrite E.
Qed.
End PoolFacts.

(** X14.  Where the pool lies in the calculated size, for slot counts up
    to 2^31 and a buffer of at least two bytes with its reserved space and
    headroom, so that nothing wraps.  The size counts the context, the
    statistics and the three rings of the data path, rounded up to a page,
    and then one buffer for every slot of the free ring; the initialisation
    puts the two control rings in front of these rings.  So the pool never
    starts before the offset the size has counted for it, and when it
    starts there, every slot of the pool lies within the recorded size and
    within the mapping. *)
Theorem pool_within_size
    (P : Platform) (shm_size : Z) (posix : bool) (name : string)
    (ns app bufn bs : Z) (mt mok : bool) (s : IState) :
  PlatformOk P ->
  0 <= ns <= 2 ^ 31 -> 0 <= app <= 2 ^ 31 -> 0 <= bufn <= 2 ^ 31 ->
  0 <= bs ->
  2 <= bs + NSAAS_MSGBUF_SPACE_RESERVED P + NSAAS_MSGBUF_HEADROOM_MAX P ->
  let res :=
    run (__nsaas_channel_dataplane_init P shm_size posix name ns app bufn bs
           mt mok) s in
  let r := res.2.1 in
  let bytes n := jring_get_buf_ring_size P sizeof_NSaaSRingSlot_t n in
  let counted :=
    ALIGN_TO_PAGE_SIZE
      (sizeof_NSaaSChannelCtx_t P + sizeof_NSaaSChannelStats_t P + bytes ns
       + bytes app + bytes bufn) (kPageSize_of P posix) in
  res.1 = 0 ->
  counted <= hdr r buf_pool_ofs
  /\ (hdr r buf_pool_ofs = counted ->
      hdr r buf_pool_ofs + bufn * hdr r buf_size <= hdr r ctx_size
      /\ hdr r ctx_size <= shm_size).
Proof.
  intros HP Hns Happ Hbufn Hbs Hx res r bytes counted H0.
  subst res r bytes counted.
  destruct (pool_layout_values P HP shm_size posix name ns app bufn bs mt mok
              s Hns Happ Hbufn Hbs Hx H0)
    as ((Hh & Hp & Ht) & Esize & Epool & Ectx & Hfit).
  pose proof (sizeof_jring_range P HP).
  set (header := _ + _ + _ + _ + _) in *.
  set (p := kPageSize_of P posix) in *.
  change (2 ^ 30) with 1073741824 in *.
  change (2 ^ 31) with 2147483648 in *.
  change (2 ^ 32) with 4294967296 in *.
  change (2 ^ 36) with 68719476736 in *.
  assert (B64 : 2 ^ 64 = 18446744073709551616) by reflexivity.
  split.
  - rewrite Epool. apply ALIGN_TO_PAGE_SIZE_mono; lia.
  - intros Eq. split; [| exact Hfit].
    rewrite Eq, Esize, Ectx.
    pose proof (ALIGN_TO_PAGE_SIZE_value header p ltac:(lia) ltac:(lia)
                  ltac:(lia)) as HA.
    assert (0 <= bufn * total_buffer_size_of P bs <= 2147483648 * 4294967296)
      by nia.
    apply ALIGN_TO_PAGE_SIZE_value; lia.
Qed.

Lemma pool_within_size_witness :
  let r :=
    (run (__nsaas_channel_dataplane_init example_platform small_size true
            "c0" 2 2 4 64 false true) (Region_zero, [])).2.1 in
  hdr r buf_pool_ofs + 4 * hdr r buf_size <= hdr r ctx_size
  /\ hdr r ctx_size <= small_size.
Proof.
  intros r.
  destruct (pool_within_size example_platform small_size true "c0" 2 2 4 64
              false true (Region_zero, []) example_platform_ok)
    as (_ & H);
    [vm_compute; intuition discriminate | vm_compute; intuition discriminate
    | vm_compute; intuition discriminate | vm_compute; discriminate
    | vm_compute; discriminate | vm_compute; reflexivity |].
  apply H. vm_compute. reflexivity.
Defined.

(** X25.  The other side of the same layout, under the same bounds and
    when the bytes of the pool are a whole number of pages.  If the two
    control rings carry the end of the rings over a page boundary, so that
    the pool starts after the offset the size has counted for it, then the
    slots of the pool reach at least a page beyond the recorded size; and
    when a slot is smaller than a page, already the buffers whose headers
    the initialisation has written, all but the last slot, end beyond
    it. *)
Theorem pool_beyond_size
    (P : Platform) (shm_size : Z) (posix : bool) (name : string)
    (ns app bufn bs : Z) (mt mok : bool) (s : IState) :
  PlatformOk P ->
  0 <= ns <= 2 ^ 31 -> 0 <= app <= 2 ^ 31 -> 0 <= bufn <= 2 ^ 31 ->
  0 <= bs ->
  2 <= bs + NSAAS_MSGBUF_SPACE_RESERVED P + NSAAS_MSGBUF_HEADROOM_MAX P ->
  let res :=
    run (__nsaas_channel_dataplane_init P shm_size posix name ns app bufn bs
           mt mok) s in
  let r := res.2.1 in
  let bytes n := jring_get_buf_ring_size P sizeof_NSaaSRingSlot_t n in
  let counted :=
    ALIGN_TO_PAGE_SIZE
      (sizeof_NSaaSChannelCtx_t P + sizeof_NSaaSChannelStats_t P + bytes ns
       + bytes app + bytes bufn) (kPageSize_of P posix) in
  res.1 = 0 ->
  (kPageSize_of P posix | bufn * hdr r buf_size) ->
  counted < hdr r buf_pool_ofs ->
  hdr r ctx_size + kPageSize_of P posix
  <= hdr r buf_pool_ofs + bufn * hdr r buf_size
  /\ (hdr r buf_size < kPageSize_of P posix ->
      hdr r ctx_size < hdr r buf_pool_ofs + (bufn - 1) * hdr r buf_size).
Proof.
  intros HP Hns Happ Hbufn Hbs Hx res r bytes counted H0.
  subst res r bytes counted.
  destruct (pool_layout_values P HP shm_size posix name ns app bufn bs mt mok
              s Hns Happ Hbufn Hbs Hx H0)
    as ((Hh & Hp & Ht) & Esize & Epool & Ectx & Hfit).
  pose proof (sizeof_jring_range P HP).
  set (header := _ + _ + _ + _ + _) in *.
  set (p := kPageSize_of P posix) in *.
  change (2 ^ 30) with 1073741824 in *.
  change (2 ^ 31) with 2147483648 in *.
  change (2 ^ 32) with 4294967296 in *.
  change (2 ^ 36) with 68719476736 in *.
  assert (B64 : 2 ^ 64 = 18446744073709551616) by reflexivity.
  rewrite Esize, Ectx. intros Hdiv Hlt.
  pose proof (ALIGN_TO_PAGE_SIZE_value header p ltac:(lia) ltac:(lia)
                ltac:(lia)) as HA.
  assert (Hprod : 0 <= bufn * total_buffer_size_of P bs
                  <= 2147483648 * 4294967296) by nia.
  assert (Dc : (p | ALIGN_TO_PAGE_SIZE header p))
    by (unfold ALIGN_TO_PAGE_SIZE; apply Z.divide_factor_r).
  assert (Dp : (p | hdr (run (__nsaas_channel_dataplane_init P shm_size posix
                                name ns app bufn bs mt mok) s).2.1
                      buf_pool_ofs))
    by (rewrite Epool; unfold ALIGN_TO_PAGE_SIZE; apply Z.divide_factor_r).
  rewrite (ALIGN_TO_PAGE_SIZE_multiple
             (ALIGN_TO_PAGE_SIZE header p + bufn * total_buffer_size_of P bs)
             p) by (try apply Z.divide_add_r; auto; lia).
  assert (Hstep : ALIGN_TO_PAGE_SIZE header p + p
                  <= hdr (run (__nsaas_channel_dataplane_init P shm_size posix
                                 name ns app bufn bs mt mok) s).2.1
                       buf_pool_ofs).
  { destruct Dc as [q1 E1], Dp as [q2 E2]. rewrite E1, E2 in Hlt |- *.
    assert (q1 < q2) by nia. nia. }
  split; [lia |]. intros Hsmall.
  replace ((bufn - 1) * total_buffer_size_of P bs)
    with (bufn * total_buffer_size_of P bs - total_buffer_size_of P bs)
    by ring.
  lia.
Qed.

(** A region in which the control rings cross a page: 512 and 256 slots on
    the message rings, 32 on the free ring, buffers of 64 bytes. *)
Lemma pool_beyond_size_witness :
  let size :=
    __nsaas_channel_dataplane_calculate_size example_platform 512 256 32 64
      true in
  let r :=
    (run (__nsaas_channel_dataplane_init example_platform size true
            "c0" 512 256 32 64 false true) (Region_zero, [])).2.1 in
  hdr r ctx_size + 4096 <= hdr r buf_pool_ofs + 32 * hdr r buf_size
  /\ hdr r ctx_size < hdr r buf_pool_ofs + (32 - 1) * hdr r buf_size.
Proof.
  intros size r.
  destruct (pool_beyond_size example_platform size true "c0" 512 256 32 64
              false true (Region_zero, []) example_platform_ok)
    as (H1 & H2);
    [vm_compute; intuition discriminate | vm_compute; intuition discriminate
    | vm_compute; intuition discriminate | vm_compute; discriminate
    | vm_compute; discriminate | vm_compute; reflexivity
    | exists 2; vm_compute; reflexivity | vm_compute; reflexivity |].
  split; [exact H1 |]. apply H2. vm_compute. reflexivity.
Defined.

(** X24.  The value of the calculated size where nothing wraps: for slot
    counts that are powers of two up to 2^31 and a buffer within a page and
    of at least two bytes with its reserved space and headroom.  A slot of
    the pool is the least power of two that holds the buffer, the reserved
    space and the headroom; the size is a whole number of pages, holds the
    context, the statistics, the three rings of the data path (each the
    header of a ring and four bytes a slot) and one pool slot for every
    slot of the free ring, and exceeds their sum by less than two pages. *)
Theorem calculated_size_bounds
    (P : Platform) (ns app bufn bs : Z) (posix : bool) :
  PlatformOk P ->
  power_of_two ns -> power_of_two app -> power_of_two bufn ->
  ns <= 2 ^ 31 -> app <= 2 ^ 31 -> bufn <= 2 ^ 31 ->
  0 <= bs <= kPageSize_of P posix ->
  2 <= bs + NSAAS_MSGBUF_SPACE_RESERVED P + NSAAS_MSGBUF_HEADROOM_MAX P ->
  let slot := total_buffer_size_of P bs in
  let header :=
    sizeof_NSaaSChannelCtx_t P + sizeof_NSaaSChannelStats_t P
    + (sizeof_jring P + 4 * ns) + (sizeof_jring P + 4 * app)
    + (sizeof_jring P + 4 * bufn) in
  let size := __nsaas_channel_dataplane_calculate_size P ns app bufn bs posix in
  (power_of_two slot
   /\ bs + NSAAS_MSGBUF_SPACE_RESERVED P + NSAAS_MSGBUF_HEADROOM_MAX P
      <= slot
      < 2 * (bs + NSAAS_MSGBUF_SPACE_RESERVED P + NSAAS_MSGBUF_HEADROOM_MAX P))
  /\ header + bufn * slot <= size
     < header + bufn * slot + 2 * kPageSize_of P posix
  /\ (kPageSize_of P posix | size).
Proof.
  intros HP Pns Papp Pbufn Hns Happ Hbufn Hbs Hx slot header size.
  pose proof (kPageSize_range P HP posix) as Hp.
  pose proof (total_buffer_size_bound P HP bs ltac:(lia) Hx) as Ht.
  pose proof (ring_bytes_value P HP ns Pns Hns) as Rns.
  pose proof (ring_bytes_value P HP app Papp Happ) as Rapp.
  pose proof (ring_bytes_value P HP bufn Pbufn Hbufn) as Rbufn.
  pose proof (sizeof_ctx_range P HP). pose proof (sizeof_stats_range P HP).
  pose proof (sizeof_jring_range P HP).
  pose proof (reserved_range P HP). pose proof (headroom_range P HP).
  assert (Hpos : 0 < ns /\ 0 < app /\ 0 < bufn).
  { destruct Pns as (k1 & ? & ->), Papp as (k2 & ? & ->),
      Pbufn as (k3 & ? & ->).
    repeat split; apply Z.pow_pos_nonneg; lia. }
  split.
  { subst slot. unfold total_buffer_size_of.
    change (2 ^ 30) with 1073741824 in *. change (2 ^ 16) with 65536 in *.
    rewrite wrap64_small
      by (change (2 ^ 64) with 18446744073709551616; lia).
    destruct (ROUNDUP_U64_POW2_value
                (bs + NSAAS_MSGBUF_SPACE_RESERVED P
                 + NSAAS_MSGBUF_HEADROOM_MAX P)) as (-> & Hk & Hlo & Hhi).
    { change (2 ^ 63) with 9223372036854775808. lia. }
    set (k := Z.log2 _) in *.
    assert (E : 2 ^ (k + 1) = 2 * 2 ^ k)
      by (rewrite Z.pow_add_r by lia; change (2 ^ 1) with 2; lia).
    split; [exists (k + 1); split; [lia | reflexivity] | lia]. }
  subst size. unfold __nsaas_channel_dataplane_calculate_size.
  assert (I1 : IS_POW2 ns = true)
    by (destruct Pns as (k & ? & ->); now apply IS_POW2_power).
  assert (I2 : IS_POW2 app = true)
    by (destruct Papp as (k & ? & ->); now apply IS_POW2_power).
  assert (I3 : IS_POW2 bufn = true)
    by (destruct Pbufn as (k & ? & ->); now apply IS_POW2_power).
  rewrite I1, I2, I3. cbn [negb orb].
  destruct (Z.gtb_spec bs (kPageSize_of P posix)); [lia |].
  cbn [add_ring_sizes]. rewrite Rns, Rapp, Rbufn.
  change (2 ^ 30) with 1073741824 in *.
  change (2 ^ 31) with 2147483648 in *.
  change (2 ^ 32) with 4294967296 in *.
  assert (B64 : 2 ^ 64 = 18446744073709551616) by reflexivity.
  unfold SIZE_MAX.
  destruct (Z.eqb_spec (sizeof_jring P + 4 * ns) (2 ^ 64 - 1)); [lia |].
  destruct (Z.eqb_spec (sizeof_jring P + 4 * app) (2 ^ 64 - 1)); [lia |].
  destruct (Z.eqb_spec (sizeof_jring P + 4 * bufn) (2 ^ 64 - 1)); [lia |].
  cbv zeta. fold slot.
  set (p := kPageSize_of P posix) in *.
  rewrite (wrap64_small (sizeof_NSaaSChannelCtx_t P
                         + sizeof_NSaaSChannelStats_t P)) by lia.
  rewrite (wrap64_small (_ + (sizeof_jring P + 4 * ns))) by lia.
  rewrite (wrap64_small (_ + (sizeof_jring P + 4 * app))) by lia.
  rewrite (wrap64_small (_ + (sizeof_jring P + 4 * bufn))) by lia.
  fold header.
  pose proof (ALIGN_TO_PAGE_SIZE_value header p ltac:(lia) ltac:(lia)
                ltac:(lia)) as HA.
  assert (0 <= bufn * slot <= 2147483648 * 4294967296) by nia.
  rewrite (wrap64_small (bufn * _)) by lia.
  rewrite (wrap64_small (_ + bufn * _)) by lia.
  pose proof (ALIGN_TO_PAGE_SIZE_value
                (ALIGN_TO_PAGE_SIZE header p + bufn * slot) p ltac:(lia)
                ltac:(lia) ltac:(lia)) as HB.
  split; [lia |].
  unfold ALIGN_TO_PAGE_SIZE at 1. apply Z.divide_factor_r.
Qed.

Lemma power_of_two_2 : power_of_two 2.
Proof. exists 1. split; [lia | reflexivity]. Qed.

Lemma power_of_two_4 : power_of_two 4.
Proof. exists 2. split; [lia | reflexivity]. Qed.

Lemma calculated_size_bounds_witness :
  total_buffer_size_of example_platform 64 = 256
  /\ 672 + 4 * 256 <= small_size < 672 + 4 * 256 + 2 * 4096
  /\ (4096 | small_size).
Proof.
  destruct (calculated_size_bounds example_platform 2 2 4 64 true
              example_platform_ok power_of_two_2 power_of_two_2
              power_of_two_4) as (_ & H2 & H3);
    [vm_compute; discriminate | vm_compute; discriminate
    | vm_compute; discriminate | vm_compute; intuition discriminate
    | vm_compute; discriminate |].
  split; [reflexivity |]. split; [exact H2 | exact H3].
Defined.

(** ** More on the operations of [ShmChannel] *)

Section ApiFacts.
Variable Shm : Type.
Variable base : Z.
Variable ctx : Region.

(** What the overload of [DequeueMessages] on two arrays leaves in them,
    entry by entry. *)
Lemma DequeueMessages_entries
    (deq : Shm -> nat -> list Z * Shm) shm msg_indices msgs n :
  let d := (deq shm n).1 in
  let res := DequeueMessages Shm deq base ctx shm msg_indices msgs n in
  (length d <= length msg_indices)%nat -> (length d <= length msgs)%nat ->
  res.1.1.1 = length d
  /\ res.2 = (deq shm n).2
  /\ length res.1.1.2 = length msg_indices
  /\ length res.1.2 = length msgs
  /\ (forall i, (i < length d)%nat ->
        res.1.1.2 !! i = d !! i
        /\ res.1.2 !! i = __nsaas_channel_buf base ctx <$> d !! i)
  /\ (forall i, (length d <= i)%nat ->
        res.1.1.2 !! i = msg_indices !! i /\ res.1.2 !! i = msgs !! i).
Proof.
  intros d res Hi Hm. subst res. unfold DequeueMessages. cbv zeta.
  cbn [fst snd]. fold d.
  split; [reflexivity |]. split; [reflexivity |].
  split; [apply length_inserts |].
  split; [unfold resolve_msgs; apply foldl_insert_seq_length |].
  split.
  - intros i Hlt.
    assert (Hins : list_inserts 0 d msg_indices !! i = d !! i).
    { rewrite list_lookup_inserts by lia. now rewrite Nat.sub_0_r. }
    split; [exact Hins |].
    unfold resolve_msgs. rewrite foldl_insert_seq_lookup by lia.
    destruct (decide (i < length d)%nat); [| lia].
    destruct (lookup_lt_is_Some_2 d i Hlt) as [x Hx].
    rewrite Hx in Hins. rewrite (list_lookup_total_correct _ _ _ Hins).
    now rewrite Hx.
  - intros i Hge. split.
    + apply list_lookup_inserts_ge. lia.
    + unfold resolve_msgs. rewrite foldl_insert_seq_lookup by lia.
      destruct (decide (i < length d)%nat); [lia | reflexivity].
Qed.
End ApiFacts.

(** X15.  The overload of [DequeueMessages] on a batch appends: on a batch
    of at most [kMaxBurst] messages whose arrays have [kMaxBurst] entries,
    with a helper that dequeues no more than it is asked for, it asks for
    the room that is left, returns what the helper dequeued, leaves the
    entries below the old size as they were, puts the [i]-th index dequeued
    and the address of its buffer at the entry [size + i], and adds the
    count to the size, which stays within [kMaxBurst]. *)
Theorem dequeue_batch_appends
    (P : Platform) (Shm : Type)
    (app_ring_dequeue : Shm -> nat -> list Z * Shm)
    (base : Z) (ctx : Region) (shm : Shm) (batch : MsgBufBatch) :
  (forall shm n, (length (app_ring_dequeue shm n).1 <= n)%nat) ->
  (GetSize batch <= kMaxBurst P)%nat ->
  length (buf_indices batch) = kMaxBurst P ->
  length (bufs_ batch) = kMaxBurst P ->
  let d := (app_ring_dequeue shm (GetRoom P batch)).1 in
  let res := DequeueMessages_batch P Shm app_ring_dequeue base ctx shm batch in
  res.1.1 = length d
  /\ GetSize res.1.2 = (GetSize batch + length d)%nat
  /\ (GetSize res.1.2 <= kMaxBurst P)%nat
  /\ length (buf_indices res.1.2) = kMaxBurst P
  /\ length (bufs_ res.1.2) = kMaxBurst P
  /\ (forall i, (i < GetSize batch)%nat ->
        buf_indices res.1.2 !! i = buf_indices batch !! i
        /\ bufs_ res.1.2 !! i = bufs_ batch !! i)
  /\ (forall i index, d !! i = Some index ->
        buf_indices res.1.2 !! (GetSize batch + i)%nat = Some index
        /\ bufs_ res.1.2 !! (GetSize batch + i)%nat
           = Some (base + hdr ctx buf_pool_ofs + index * hdr ctx buf_size)).
Proof.
  intros Hdeq Hsz Hli Hlb d res. subst res.
  unfold DequeueMessages_batch. cbv zeta.
  pose proof (Hdeq shm (GetRoom P batch)) as Hd. fold d in Hd.
  unfold GetRoom, GetSize in *.
  destruct (DequeueMessages_entries Shm base ctx app_ring_dequeue shm
              (drop (cnt_ batch) (buf_indices batch))
              (drop (cnt_ batch) (bufs_ batch)) (kMaxBurst P - cnt_ batch))
    as (Er & _ & Eli & Elb & Hlt & _);
    [rewrite length_drop; fold d; lia | rewrite length_drop; fold d; lia |].
  fold d in Er, Hlt.
  set (dq := DequeueMessages Shm app_ring_dequeue base ctx shm
               (drop (cnt_ batch) (buf_indices batch))
               (drop (cnt_ batch) (bufs_ batch))
               (kMaxBurst P - cnt_ batch)) in *.
  cbn [fst snd cnt_ buf_indices bufs_ IncrCount].
  rewrite length_drop in Eli, Elb.
  split; [exact Er |]. split; [now rewrite Er |].
  split; [rewrite Er; lia |].
  split; [rewrite length_app, length_take, Eli; lia |].
  split; [rewrite length_app, length_take, Elb; lia |].
  split.
  - intros i Hi.
    rewrite !lookup_app_l by (rewrite length_take; lia).
    rewrite !lookup_take_lt by lia. auto.
  - intros i index Hidx.
    assert (Hil : (i < length d)%nat) by (eapply lookup_lt_Some; eauto).
    destruct (Hlt i Hil) as (H1 & H2). rewrite Hidx in H1, H2.
    rewrite !lookup_app_r by (rewrite length_take; lia).
    rewrite !length_take.
    replace (cnt_ batch + i - cnt_ batch `min` length (buf_indices batch))%nat
      with i by lia.
    replace (cnt_ batch + i - cnt_ batch `min` length (bufs_ batch))%nat
      with i by lia.
    rewrite H1, H2. auto.
Qed.

Lemma dequeue_batch_appends_witness :
  let res :=
    DequeueMessages_batch example_platform Region seq_app_ring_dequeue
      0x20000000 small_region busy_region example_batch in
  res.1.1 = 2%nat /\ GetSize res.1.2 = 4%nat
  /\ buf_indices res.1.2 !! 0%nat = Some 0
  /\ buf_indices res.1.2 !! 2%nat = Some 2
  /\ bufs_ res.1.2 !! 3%nat = Some (0x20000000 + 4096 + 0 * 2048).
Proof.
  intros res.
  destruct (dequeue_batch_appends example_platform Region
              seq_app_ring_dequeue 0x20000000 small_region busy_region
              example_batch seq_app_ring_dequeue_le)
    as (H1 & H2 & _ & _ & _ & H3 & H4);
    [cbn; lia | reflexivity | reflexivity |].
  fold res in H1, H2, H3, H4.
  split; [exact H1 |]. split; [exact H2 |].
  split; [apply (H3 0%nat); cbn; lia |].
  split; [apply (H4 0%nat 2); reflexivity |].
  apply (H4 1%nat 0). reflexivity.
Defined.

(** X16.  Where [MsgBufBulkAlloc] puts what it allocates.  The helper is
    handed the two arrays of the batch from their first entry, not from
    the entry [GetSize()]: the indices allocated and the addresses of their
    buffers are at the entries [0 .. ret - 1], the entries from [ret] on
    are as they were, and the size grows by [ret] and stays within
    [kMaxBurst].  So a batch that was empty holds what was allocated, and
    on a batch that was not empty the first entries are overwritten. *)
Theorem bulk_alloc_fills_from_start
    (P : Platform) (Shm : Type) (buf_alloc_bulk : Shm -> nat -> list Z * Shm)
    (base : Z) (ctx : Region) (shm : Shm) (batch : MsgBufBatch) (cnt : nat) :
  (forall shm n, (length (buf_alloc_bulk shm n).1 <= n)%nat) ->
  (GetSize batch <= kMaxBurst P)%nat ->
  length (buf_indices batch) = kMaxBurst P ->
  length (bufs_ batch) = kMaxBurst P ->
  let a := (buf_alloc_bulk shm (Nat.min cnt (GetRoom P batch))).1 in
  let res := MsgBufBulkAlloc P Shm buf_alloc_bulk base ctx shm batch cnt in
  GetSize res.1.2 = (GetSize batch + length a)%nat
  /\ (GetSize res.1.2 <= kMaxBurst P)%nat
  /\ (length a <= cnt)%nat /\ (length a <= GetRoom P batch)%nat
  /\ (forall i index, a !! i = Some index ->
        buf_indices res.1.2 !! i = Some index
        /\ bufs_ res.1.2 !! i
           = Some (base + hdr ctx buf_pool_ofs + index * hdr ctx buf_size))
  /\ (forall i, (length a <= i)%nat ->
        buf_indices res.1.2 !! i = buf_indices batch !! i
        /\ bufs_ res.1.2 !! i = bufs_ batch !! i).
Proof.
  intros Halloc Hsz Hli Hlb a res. subst res.
  pose proof (Halloc shm (Nat.min cnt (GetRoom P batch))) as Ha. fold a in Ha.
  unfold MsgBufBulkAlloc. cbv zeta. fold a.
  unfold GetRoom, GetSize in *.
  assert (Hres : forall (b : bool) (x : MsgBufBatch) (y : Shm),
            (if b then (false, x, y) else (true, x, y)).1.2 = x)
    by (intros []; reflexivity).
  rewrite Hres. cbn [IncrCount cnt_ buf_indices bufs_].
  split; [reflexivity |]. split; [lia |]. split; [lia |]. split; [lia |].
  split.
  - intros i index Hidx.
    assert (Hil : (i < length a)%nat) by (eapply lookup_lt_Some; eauto).
    rewrite !list_lookup_inserts
      by (rewrite ?length_fmap; lia).
    rewrite Nat.sub_0_r, list_lookup_fmap, Hidx. auto.
  - intros i Hge.
    rewrite !list_lookup_inserts_ge by (rewrite ?length_fmap; lia). auto.
Qed.

Lemma seq_buf_alloc_bulk_le (r : Region) n :
  (length (seq_buf_alloc_bulk r n).1 <= n)%nat.
Proof. cbn. rewrite length_take. lia. Qed.

Lemma bulk_alloc_fills_from_start_witness :
  let res :=
    MsgBufBulkAlloc example_platform Region seq_buf_alloc_bulk 0x20000000
      small_region busy_region example_batch 1 in
  GetSize res.1.2 = 3%nat
  /\ buf_indices example_batch !! 0%nat = Some 0
  /\ buf_indices res.1.2 !! 0%nat = Some 1
  /\ buf_indices res.1.2 !! 2%nat = Some 0.
Proof.
  intros res.
  destruct (bulk_alloc_fills_from_start example_platform Region
              seq_buf_alloc_bulk 0x20000000 small_region busy_region
              example_batch 1 seq_buf_alloc_bulk_le)
    as (Hs & _ & _ & _ & H1 & H2); [cbn; lia | reflexivity | reflexivity |].
  fold res in Hs, H1, H2.
  split; [exact Hs |]. split; [reflexivity |].
  split; [apply (H1 0%nat 1); reflexivity |].
  destruct (H2 2%nat) as [H2a _]; [vm_compute; lia |].
  rewrite H2a. reflexivity.
Defined.

(** X17.  [MsgBufAlloc] is [MsgBufBulkAlloc] of one buffer into an empty
    batch: it calls the helper with the same count and leaves the same
    shared memory; with a helper that gives no more than asked it returns a
    pointer exactly when the bulk allocation returns [true], and the
    pointer is then the first buffer of the batch, the address of the slot
    the helper took. *)
Theorem alloc_is_bulk_alloc_of_one
    (P : Platform) (Shm : Type) (buf_alloc_bulk : Shm -> nat -> list Z * Shm)
    (base : Z) (ctx : Region) (shm : Shm) (batch : MsgBufBatch) :
  (forall shm n, (length (buf_alloc_bulk shm n).1 <= n)%nat) ->
  (1 <= kMaxBurst P)%nat -> GetSize batch = 0%nat ->
  (1 <= length (bufs_ batch))%nat ->
  let one := MsgBufAlloc Shm buf_alloc_bulk base ctx shm in
  let bulk := MsgBufBulkAlloc P Shm buf_alloc_bulk base ctx shm batch 1 in
  one.2 = bulk.2
  /\ (is_Some one.1 <-> bulk.1.1 = true)
  /\ (forall buf, one.1 = Some buf ->
        bufs_ bulk.1.2 !! 0%nat = Some buf
        /\ exists index,
             (buf_alloc_bulk shm 1%nat).1 = [index]
             /\ buf = base + hdr ctx buf_pool_ofs + index * hdr ctx buf_size).
Proof.
  intros Halloc Hk Hsz Hlb one bulk. subst one bulk.
  unfold MsgBufAlloc, MsgBufBulkAlloc, GetRoom, GetSize in *. cbv zeta.
  rewrite Hsz. rewrite Nat.sub_0_r, Nat.min_l by lia.
  pose proof (Halloc shm 1%nat) as Ha.
  destruct (buf_alloc_bulk shm 1%nat) as [[|index [|? ?]] shm'];
    cbn [fst snd length] in *; try lia.
  - split; [reflexivity |]. split; [split; [intros [? [=]] | intros [=]] |].
    intros buf [=].
  - split; [reflexivity |]. split; [split; [auto | eauto] |].
    intros buf [= <-]. split; [| eauto].
    destruct (bufs_ batch) as [|b l]; [cbn in Hlb; lia | reflexivity].
Qed.

Lemma alloc_is_bulk_alloc_of_one_witness :
  (MsgBufAlloc Region seq_buf_alloc_bulk 0x20000000 small_region
     busy_region).1
  = Some (0x20000000 + 4096 + 1 * 2048)
  /\ (MsgBufBulkAlloc example_platform Region seq_buf_alloc_bulk 0x20000000
        small_region busy_region empty_batch 1).1.1 = true.
Proof.
  destruct (alloc_is_bulk_alloc_of_one example_platform Region
              seq_buf_alloc_bulk 0x20000000 small_region busy_region
              empty_batch seq_buf_alloc_bulk_le)
    as (_ & H1 & _); [cbn; lia | reflexivity | cbn; lia |].
  split; [reflexivity |]. apply H1. eexists. reflexivity.
Defined.

(** X18.  The overloads of [EnqueueMessages] agree.  With a helper that
    reads only the slots it is asked to enqueue, the overload on an array
    of pointers, given the buffers of a batch of at most [kMaxBurst]
    messages, does what the overload on the batch does, whenever each
    buffer of the batch is the one of the index filed with it. *)
Theorem enqueue_overloads_agree
    (P : Platform) (Shm : Type)
    (nsaas_ring_enqueue : Shm -> nat -> list Z -> nat * Shm)
    (buf_index : Z -> Z) (shm : Shm) (batch : MsgBufBatch) :
  (forall shm n l l',
     take n l = take n l' ->
     nsaas_ring_enqueue shm n l = nsaas_ring_enqueue shm n l') ->
  (GetSize batch <= kMaxBurst P)%nat ->
  (GetSize batch <= length (buf_indices batch))%nat ->
  (forall i, (i < GetSize batch)%nat ->
     buf_index (bufs_ batch !!! i) = buf_indices batch !!! i) ->
  EnqueueMessages_ptrs P Shm nsaas_ring_enqueue buf_index shm (bufs_ batch)
    (GetSize batch)
  = EnqueueMessages_batch Shm nsaas_ring_enqueue shm batch.
Proof.
  intros Hread Hsz Hli Hidx.
  unfold EnqueueMessages_ptrs, EnqueueMessages_batch, EnqueueMessages,
    fill_slots, GetSize in *. cbv zeta.
  rewrite Nat.min_l by lia. apply Hread.
  apply list_eq. intros i. rewrite !lookup_take.
  destruct (decide (i < cnt_ batch)%nat) as [Hi | Hi]; [| reflexivity].
  rewrite foldl_insert_seq_lookup by (rewrite length_replicate; lia).
  destruct (decide (i < cnt_ batch)%nat); [| lia].
  rewrite Hidx by lia. symmetry. apply list_lookup_lookup_total_lt. lia.
Qed.

Lemma seq_nsaas_ring_enqueue_reads_prefix (r : Region) n l l' :
  take n l = take n l' ->
  seq_nsaas_ring_enqueue r n l = seq_nsaas_ring_enqueue r n l'.
Proof.
  intros E. unfold seq_nsaas_ring_enqueue, jring_enqueue_bulk.
  rewrite Nat2Z.id, E. reflexivity.
Qed.

Lemma enqueue_overloads_agree_witness :
  let buf_index p := (p - 0x20001000) / 2048 in
  EnqueueMessages_ptrs example_platform Region seq_nsaas_ring_enqueue
    buf_index small_region (bufs_ example_batch) 2
  = EnqueueMessages_batch Region seq_nsaas_ring_enqueue small_region
      example_batch.
Proof.
  intros buf_index.
  apply (enqueue_overloads_agree example_platform Region
           seq_nsaas_ring_enqueue buf_index small_region example_batch).
  - exact (seq_nsaas_ring_enqueue_reads_prefix).
  - cbn. lia.
  - cbn. lia.
  - intros [|[|i]] Hi; [reflexivity | reflexivity | cbn in Hi; lia].
Defined.

(** ** More on the channel manager *)

Section ManagerMore.
Variable P : Platform.

Lemma add_channel_cases os channels name ns app bufn bs fd :
  let res := AddChannel P os channels name ns app bufn bs fd in
  let c := __nsaas_channel_create P os name ns app bufn bs fd in
  (res.1.1 = false /\ res.1.2 = channels
   /\ ((kMaxChannelNr <= size channels)%nat \/ is_Some (channels !! name)
       \/ cr_channel c = None))
  \/ (res.1.1 = true
      /\ (size channels < kMaxChannelNr)%nat /\ channels !! name = None
      /\ exists r,
           cr_channel c = Some r
           /\ res.1.2
              = <[name := {| name_ := name; ctx_ := r;
                             mem_size_ := cr_mem_size c;
                             is_posix_shm_ := cr_is_posix_shm c;
                             channel_fd_ := cr_shm_fd c |}]> channels).
Proof.
  intros res c. subst res c. unfold AddChannel.
  destruct (decide _) as [Hfull | Hroom]; [left; auto |].
  destruct (decide _) as [Hdup | Hnew]; [left; auto |].
  assert (Hnone : channels !! name = None).
  { destruct (channels !! name) eqn:E; [exfalso; apply Hnew; eauto | auto]. }
  destruct (cr_channel _) as [r |] eqn:E; cbn [fst snd].
  - right. split; [reflexivity |]. split; [lia |]. split; [exact Hnone |].
    exists r. split; [reflexivity |].
    unfold unordered_map_insert. now rewrite Hnone.
  - left. auto.
Qed.
End ManagerMore.

(** X19.  What [AddChannel] does to the registry.  It returns [true]
    exactly when the registry holds fewer than 32 channels, none of them
    under the name, and the creation returns a channel.  When it returns
    [false] the registry is as it was, also after a creation that failed.
    When it returns [true] the registry has one channel more, filed under
    the name and carrying it.  No other name is touched in either case. *)
Theorem add_channel_effect
    (P : Platform) (os : OsOutcome) (channels : gmap string ShmChannel)
    (name : string) (ns app bufn bs fd : Z) :
  let res := AddChannel P os channels name ns app bufn bs fd in
  (res.1.1 = true <->
   (GetChannelCount channels < kMaxChannelNr)%nat
   /\ GetChannel channels name = None
   /\ is_Some (cr_channel
                 (__nsaas_channel_create P os name ns app bufn bs fd)))
  /\ (res.1.1 = false -> res.1.2 = channels)
  /\ (res.1.1 = true ->
      GetChannelCount res.1.2 = S (GetChannelCount channels)
      /\ exists ch, GetChannel res.1.2 name = Some ch /\ GetName ch = name)
  /\ (forall other, other <> name ->
        GetChannel res.1.2 other = GetChannel channels other).
Proof.
  intros res. subst res. unfold GetChannelCount, GetChannel, GetName.
  destruct (add_channel_cases P os channels name ns app bufn bs fd)
    as [(E & Em & Hwhy) | (E & Hroom & Hnew & r & Hr & Em)];
    cbv zeta in *; rewrite E, Em.
  - split.
    { split; [discriminate |]. intros (H1 & H2 & [x H3]).
      destruct Hwhy as [H | [[y H] | H]]; [lia | congruence | congruence]. }
    split; [reflexivity |]. split; [discriminate | reflexivity].
  - split; [split; [intros _; rewrite Hr; eauto | reflexivity] |].
    split; [discriminate |]. split.
    + intros _. split; [now apply map_size_insert_None |].
      rewrite lookup_insert_eq. eauto.
    + intros other Hne. now apply lookup_insert_ne.
Qed.

(** X20.  [DestroyChannel] removes the channel filed under the name and
    nothing else: the name is free afterwards, every other name is as it
    was, the count goes down by one when the name was filed and the
    registry is unchanged when it was not.  Destroying a channel right
    after [AddChannel] returned [true] for it gives the registry back as it
    was before the two calls. *)
Theorem destroy_channel_effect
    (P : Platform) (channels : gmap string ShmChannel) (name : string) :
  let after := DestroyChannel channels name in
  GetChannel after name = None
  /\ (forall other, other <> name ->
        GetChannel after other = GetChannel channels other)
  /\ (is_Some (GetChannel channels name) ->
      S (GetChannelCount after) = GetChannelCount channels)
  /\ (GetChannel channels name = None -> after = channels)
  /\ (forall os ns app bufn bs fd,
        let res := AddChannel P os channels name ns app bufn bs fd in
        res.1.1 = true -> DestroyChannel res.1.2 name = channels).
Proof.
  intros after. subst after. unfold DestroyChannel, GetChannel,
    GetChannelCount.
  split; [| split; [| split; [| split]]].
  - destruct (decide _) as [Hs | Hn]; [apply lookup_delete_eq |].
    destruct (channels !! name) eqn:E; [exfalso; apply Hn; eauto | auto].
  - intros other Hne. destruct (decide _); [| reflexivity].
    now apply lookup_delete_ne.
  - intros [ch Hch]. destruct (decide _) as [_ | Hn];
      [| exfalso; apply Hn; eauto].
    rewrite (map_size_delete_Some name channels) by eauto.
    pose proof (map_size_ne_0_lookup_2 channels name ltac:(eauto)).
    lia.
  - intros Hnone. destruct (decide _) as [[x Hx] | _]; [congruence | auto].
  - intros os ns app bufn bs fd Htrue.
    destruct (add_channel_cases P os channels name ns app bufn bs fd)
      as [(E & _) | (_ & _ & Hnew & r & _ & Em)]; cbv zeta in *;
      [congruence |].
    rewrite Em.
    destruct (decide _) as [_ | Hn];
      [| exfalso; apply Hn; rewrite lookup_insert_eq; eauto].
    now apply delete_insert_id.
Qed.

(** X21.  The registry of a manager after any sequence of [AddChannel] and
    [DestroyChannel] calls: it never holds more than [kMaxChannelNr]
    channels, every channel is filed under its own name, and every channel
    carries the magic of an initialised region. *)
Theorem manager_invariant (P : Platform) (calls : list ManagerCall) :
  let channels := manager_calls P calls in
  (GetChannelCount channels <= kMaxChannelNr)%nat
  /\ forall name ch,
       GetChannel channels name = Some ch ->
       GetName ch = name
       /\ hdr (ctx_ ch) ctx_magic = NSAAS_CHANNEL_CTX_MAGIC P.
Proof.
  unfold manager_calls, GetChannelCount, GetChannel, GetName. cbv zeta.
  induction calls as [|c calls IH] using rev_ind.
  - cbn. split; [rewrite map_size_empty; unfold kMaxChannelNr; lia |].
    intros name ch H. rewrite lookup_empty in H. discriminate.
  - rewrite foldl_app. cbn [foldl].
    set (m := foldl (manager_call P) ∅ calls) in *.
    destruct IH as [Hsz Hall].
    destruct c as [os name ns app bufn bs fd | name]; cbn [manager_call].
    + destruct (add_channel_cases P os m name ns app bufn bs fd)
        as [(_ & Em & _) | (_ & Hroom & Hnew & r & Hr & Em)];
        cbv zeta in *; rewrite Em; [auto |].
      split; [rewrite map_size_insert_None by exact Hnew; lia |].
      intros name' ch Hch.
      destruct (decide (name' = name)) as [-> | Hne].
      * rewrite lookup_insert_eq in Hch. injection Hch as <-. cbn.
        split; [reflexivity |].
        apply create_some in Hr as [Hi _]. apply Hi.
      * rewrite lookup_insert_ne in Hch by congruence. now apply Hall.
    + unfold DestroyChannel. destruct (decide _) as [[x Hx] | _]; [| auto].
      split.
      * rewrite (map_size_delete_Some name m) by eauto. lia.
      * intros name' ch Hch.
        destruct (decide (name' = name)) as [-> | Hne].
        -- rewrite lookup_delete_eq in Hch. discriminate.
        -- rewrite lookup_delete_ne in Hch by congruence. now apply Hall.
Qed.

(** X22.  [GetAllChannels] returns as many channels as [GetChannelCount]
    counts, and a channel is among them exactly when [GetChannel] finds it
    under some name. *)
Theorem get_all_channels_lists_registry
    (channels : gmap string ShmChannel) :
  length (GetAllChannels channels) = GetChannelCount channels
  /\ forall ch,
       ch ∈ GetAllChannels channels
       <-> exists name, GetChannel channels name = Some ch.
Proof.
  unfold GetAllChannels, GetChannelCount, GetChannel. split.
  - rewrite length_fmap. apply length_map_to_list.
  - intros ch. rewrite list_elem_of_fmap. split.
    + intros ([name ch'] & -> & Hin). exists name.
      now apply elem_of_map_to_list in Hin.
    + intros (name & Hch). exists (name, ch). split; [reflexivity |].
      now apply elem_of_map_to_list.
Qed.

(** ** The handle of a registered channel *)

Section HandleFacts.
Variable P : Platform.

(** A channel that [__nsaas_channel_create] returns records the size of
    its mapping, the one calculated for its backing. *)
Lemma create_some_size os name ns app bufn bs fd r :
  let c := __nsaas_channel_create P os name ns app bufn bs fd in
  let h :=
    __nsaas_channel_hugetlbfs_create os name
      (__nsaas_channel_dataplane_calculate_size P ns app bufn bs false) fd in
  cr_channel c = Some r ->
  hdr r ctx_size = cr_mem_size c
  /\ cr_mem_size c
     = __nsaas_channel_dataplane_calculate_size P ns app bufn bs
         (cr_is_posix_shm c)
  /\ cr_mem_size c <> SIZE_MAX
  /\ 0 <= cr_shm_fd c
  /\ cr_shm_fd c
     = (if cr_is_posix_shm c then shm_open_fd os else memfd_create_fd os)
  /\ (cr_is_posix_shm c = true <-> h.1.1 = None).
Proof.
  intros c h. subst c h. unfold __nsaas_channel_create. cbv zeta.
  set (hs := __nsaas_channel_dataplane_calculate_size P ns app bufn bs false).
  set (ps := __nsaas_channel_dataplane_calculate_size P ns app bufn bs true).
  assert (Hrun : forall size posix ch fd' calls,
    cr_channel (create_out P os ch name ns app bufn bs size posix fd' calls)
    = Some r ->
    size = __nsaas_channel_dataplane_calculate_size P ns app bufn bs posix ->
    let c := create_out P os ch name ns app bufn bs size posix fd' calls in
    hdr r ctx_size = cr_mem_size c
    /\ cr_mem_size c
       = __nsaas_channel_dataplane_calculate_size P ns app bufn bs
           (cr_is_posix_shm c)
    /\ cr_mem_size c <> SIZE_MAX
    /\ cr_shm_fd c = fd' /\ cr_is_posix_shm c = posix).
  { intros size posix ch fd' calls Hc Hsize.
    destruct (create_out_some P os ch name ns app bufn bs size posix fd' calls r
                Hc) as (H0 & -> & Em & Ep & Ef). cbv zeta.
    rewrite Em, Ep, Ef.
    destruct (init_layout_result P size posix name ns app bufn bs false
                (os_malloc_ok os) (ch, []) H0)
      as [((_ & Hs & _) & _) Hok].
    apply init_substeps_ok_size in Hok as [Hne _].
    cbv zeta in Hs. rewrite Hs. rewrite <- Hsize in *. auto. }
  case_hugetlbfs os hs.
  all: try (case_posix os).
  all: cbn [fst snd cr_channel]; try discriminate.
  all: intros Hc.
  all: destruct (Hrun _ _ _ _ _ Hc eq_refl) as (H1 & H2 & H3 & H4 & H5).
  all: rewrite H4, H5 in *.
  all: repeat split; try assumption; try reflexivity; try discriminate.
Qed.
End HandleFacts.

(** X23.  The handle that [AddChannel] registers when it returns [true]:
    it carries the name, a descriptor that is not negative, the one of the
    backing that was mapped, and the size that the channel reports,
    [ctx->size], is the size calculated for the page size of that backing,
    the very size of the mapping that the handle records; the channel is on
    POSIX shared memory exactly when the huge-page creator failed. *)
Theorem registered_channel_handle
    (P : Platform) (os : OsOutcome) (channels : gmap string ShmChannel)
    (name : string) (ns app bufn bs fd : Z) :
  0 < getpagesize P ->
  let res := AddChannel P os channels name ns app bufn bs fd in
  let size posix :=
    __nsaas_channel_dataplane_calculate_size P ns app bufn bs posix in
  res.1.1 = true ->
  exists ch,
    GetChannel res.1.2 name = Some ch
    /\ GetName ch = name
    /\ 0 <= GetFd ch
    /\ GetFd ch
       = (if IsPosixShm ch then shm_open_fd os else memfd_create_fd os)
    /\ GetChannelSize ch = size (IsPosixShm ch)
    /\ GetChannelSize ch = mem_size_ ch
    /\ (IsPosixShm ch = true <->
        (__nsaas_channel_hugetlbfs_create os name (size false) fd).1.1
        = None).
Proof.
  intros Hpage res size Htrue. subst res.
  destruct (add_channel_cases P os channels name ns app bufn bs fd)
    as [(E & _) | (_ & _ & _ & r & Hr & Em)]; cbv zeta in *; [congruence |].
  rewrite Em. unfold GetChannel. rewrite lookup_insert_eq.
  eexists. split; [reflexivity |].
  unfold GetName, GetFd, IsPosixShm, GetChannelSize.
  cbn [name_ ctx_ mem_size_ is_posix_shm_ channel_fd_].
  destruct (create_some_size P os name ns app bufn bs fd r Hr)
    as (Hs & Hm & Hne & Hfd & Hwhich & Hposix). cbv zeta in *.
  assert (Hrange : 0 <= cr_mem_size
            (__nsaas_channel_create P os name ns app bufn bs fd) < 2 ^ 64).
  { rewrite Hm in Hne |- *.
    destruct (calculate_size_is_aligned P ns app bufn bs _ Hne) as (x & ->).
    apply ALIGN_TO_PAGE_SIZE_range.
    destruct (cr_is_posix_shm _); [exact Hpage | reflexivity]. }
  rewrite Hs, wrap64_small by exact Hrange.
  repeat split; try assumption; apply Hposix.
Qed.

Lemma registered_channel_handle_witness :
  let res := AddChannel example_platform all_ok ∅ "c0" 2 2 4 64 (-1) in
  exists ch,
    GetChannel res.1.2 "c0" = Some ch
    /\ GetName ch = "c0" /\ GetFd ch = 3 /\ IsPosixShm ch = false
    /\ GetChannelSize ch = 4194304 /\ mem_size_ ch = 4194304.
Proof.
  intros res.
  destruct (registered_channel_handle example_platform all_ok ∅ "c0"
              2 2 4 64 (-1)) as (ch & H1 & H2 & _ & H4 & H5 & H6 & H7);
    [reflexivity | vm_compute; reflexivity |].
  fold res in H1. exists ch.
  assert (Hp : IsPosixShm ch = false).
  { destruct (IsPosixShm ch); [| reflexivity].
    destruct H7 as [H7 _]. specialize (H7 eq_refl). discriminate H7. }
  rewrite Hp in H4, H5.
  split; [exact H1 |]. split; [exact H2 |]. split; [exact H4 |].
  split; [exact Hp |]. split; [exact H5 |]. rewrite <- H6. exact H5.
Defined.
